(** * JSON-RPC 2.0 over HTTP: client engine, server engine, middleware chain

    A shallow embedding of the Go package [jsonrpc] (client.go, server.go,
    error.go, helpers.go) and the properties of its protocol engine:
    batch correlation by id, framing of responses, per-element isolation of
    failures, and the order in which middleware wraps an endpoint.

    Conventions.
    - A JSON text is held as its syntax tree [JSON]; a body that the
      scanner of encoding/json rejects is [Malformed].
    - Go's [(value, error)] pairs are the sum [result]; engine entry points
      that index slices return an [outcome], which adds the run-time panic.
    - Hooks, endpoints and the transport are Go closures with effects: they
      are functions in the state monad [M] over the [World].
    - A value decoded into a Go [any] is held as the JSON that
      encoding/json writes for it: a number has gone through float64, an
      object through a map, see [json.store_any].
    - Slices that are appended to after they were shared
      ([Options.before], [Options.after], [Options.middleware]) are modelled
      with their backing arrays, see [Slices]. *)

From Stdlib Require Import ZArith NArith String Ascii.
From stdpp Require Import base option list gmap strings.

Set Default Proof Using "Type".
Local Open Scope string_scope.
Local Open Scope list_scope.
Local Open Scope nat_scope.
Local Open Scope stdpp_scope.

(* ================================================================== *)
(** * Values on the wire *)
(* ================================================================== *)

(** A JSON value. [JNum] is a number written as an integer literal (the
    literal -0 apart), [JFrac] any other number literal (-0, a fraction or
    an exponent), kept as its text. A string is held as encoding/json
    decodes it. *)
#[local] Unset Elimination Schemes.
Inductive JSON :=
| JNull
| JBool (b : bool)
| JNum (n : Z)
| JFrac (lit : string)
| JStr (s : string)
| JArr (elems : list JSON)
| JObj (members : list (string * JSON)).
#[local] Set Elimination Schemes.

(** The bytes of an HTTP body as encoding/json sees them: either the first
    JSON value of the stream (leading white space skipped), or a text the
    scanner rejects, with the scanner's message ([EOF] for an empty body). *)
Inductive Payload :=
| Malformed (why : string)
| Value (v : JSON).

(** json.RawMessage: the undecoded text of one value; [None] is the nil
    (or empty) message. *)
Definition RawMessage := option JSON.

(** error.go: type Error struct { code int; message string; data any }.
    [data] only ever receives a value decoded from JSON; [JNull] is nil. *)
Record Error := mkError {
  code : Z;
  message : string;
  data : JSON;
}.

(** func (e *Error) Code() int *)
Definition Error_Code (e : Error) : Z := code e.
(** func (e *Error) Data() any *)
Definition Error_Data (e : Error) : JSON := data e.
(** func (e *Error) Error() string *)
Definition Error_Error (e : Error) : string := message e.

(** Go's [error] interface: a plain error made of a text (errors.New, the
    errors of encoding/json and net/http), or an [*Error], which implements
    the interface through its method [Error]. *)
Inductive goerror :=
| ErrText (msg : string)
| ErrRPC (e : Error).

(** err.Error() *)
Definition error_text (e : goerror) : string :=
  match e with
  | ErrText msg => msg
  | ErrRPC e => Error_Error e
  end.

(** The dynamic values of type [any] that the engine handles: nil, a value
    that came from or goes to JSON, an [*Error], and a value encoding/json
    cannot encode (a channel, a func), named by its type. *)
Inductive any :=
| AnyNil
| AnyJSON (j : JSON)
| AnyError (e : Error)
| AnyOpaque (ty : string).

Inductive result (A : Type) :=
| Ok (a : A)
| Fail (e : goerror).
Arguments Ok {A} a.
Arguments Fail {A} e.

Inductive outcome (A : Type) :=
| Return (a : A)
| Raise (e : goerror)
| Panic (msg : string).
Arguments Return {A} a.
Arguments Raise {A} e.
Arguments Panic {A} msg.

(** context.Context: the values a hook attached to the call. *)
Definition Context := list (string * string).

(** Everything a closure can change besides its results: headers set on
    the request or the writer, logs, counters. *)
Definition World := list string.

Definition M (A : Type) : Type := World -> A * World.
Definition ret {A} (a : A) : M A := fun w => (a, w).
Definition bind {A B} (m : M A) (k : A -> M B) : M B :=
  fun w => let '(a, w') := m w in k a w'.

Declare Scope go_scope.
Delimit Scope go_scope with go.
Notation "x <- m ;; k" := (bind m (fun x => k))
  (at level 100, m at next level, right associativity) : go_scope.
Notation "m ;;; k" := (bind m (fun _ => k))
  (at level 100, right associativity) : go_scope.

(* ================================================================== *)
(** * strconv, as far as encoding/json uses it for an [any] *)
(* ================================================================== *)

(** encoding/json decodes a number into an [any] with
    strconv.ParseFloat(s, 64) and encodes a float64 with
    strconv.AppendFloat. Both are given here on exact integers: a float64
    is a mantissa and a power of two. *)
Module strconv.

Local Open Scope Z_scope.

(** The decimal digits of a natural number, most significant first. *)
Fixpoint digits_of (fuel : nat) (n : Z) (acc : string) : string :=
  match fuel with
  | O => acc
  | S fuel' =>
      let acc' := String (ascii_of_N (Z.to_N (48 + n mod 10))) acc in
      if n <? 10 then acc' else digits_of fuel' (n / 10) acc'
  end.

(** strconv.Itoa *)
Definition Itoa (n : Z) : string :=
  if n <? 0 then String "-" (digits_of (S (Z.to_nat (Z.log2 (- n)))) (- n) "")
  else digits_of (S (Z.to_nat (Z.log2 n))) n "".

Definition digit (c : ascii) : option Z :=
  let n := Z.of_N (N_of_ascii c) in
  if (48 <=? n) && (n <=? 57) then Some (n - 48) else None.

(** The digits at the start of a text: the number they make after the
    digits already read, how many they are, and the text after them. *)
Fixpoint read_digits (s : string) (acc count : Z) : Z * Z * string :=
  match s with
  | String c s' =>
      match digit c with
      | Some d => read_digits s' (10 * acc + d) (count + 1)
      | None => (acc, count, s)
      end
  | EmptyString => (acc, count, s)
  end.

(** A number literal of JSON, read: the number is
    [mant * 10 ^ exp10], negated when [neg]. *)
Record decimal := {
  neg : bool;
  mant : Z;
  exp10 : Z;
}.

Definition read_exponent (s : string) : option Z :=
  let '(minus, s) :=
    match s with
    | String "-" s' => (true, s')
    | String "+" s' => (false, s')
    | _ => (false, s)
    end in
  match read_digits s 0 0 with
  | (e, count, EmptyString) =>
      if count =? 0 then None else Some (if minus then - e else e)
  | _ => None
  end.

Definition read_literal (lit : string) : option decimal :=
  let '(minus, s) :=
    match lit with
    | String "-" s' => (true, s')
    | _ => (false, lit)
    end in
  let leading_zero := match s with String "0" _ => true | _ => false end in
  let '(int, int_count, s) := read_digits s 0 0 in
  if (int_count =? 0) || (leading_zero && (1 <? int_count)) then None
  else
    let after_fraction :=
      match s with
      | String "." s' =>
          let '(m, frac_count, s'') := read_digits s' int 0 in
          if frac_count =? 0 then None else Some (m, frac_count, s'')
      | _ => Some (int, 0, s)
      end in
    match after_fraction with
    | None => None
    | Some (m, frac_count, EmptyString) =>
        Some {| neg := minus; mant := m; exp10 := - frac_count |}
    | Some (m, frac_count, String c s') =>
        if (Ascii.eqb c "e" || Ascii.eqb c "E")%bool then
          match read_exponent s' with
          | Some e => Some {| neg := minus; mant := m; exp10 := e - frac_count |}
          | None => None
          end
        else None
    end.

(** A finite float64: [mantissa * 2 ^ exponent], negated when [sign],
    with [0 <= mantissa < 2^53] and [-1074 <= exponent <= 971]. *)
Record float64 := {
  sign : bool;
  mantissa : Z;
  exponent : Z;
}.

(** The number of decimal digits of a positive number. *)
Definition ndigits (n : Z) : Z := Z.of_nat (String.length (Itoa n)).

(** strconv.ParseFloat(s, 64) on a literal that has been read: the
    nearest float64, ties to the even mantissa; [None] is the range error
    of a number that rounds to an infinity. A number too small for the
    smallest float64 rounds to zero, without error. *)
Definition ParseFloat (d : decimal) : option float64 :=
  if mant d =? 0 then Some {| sign := neg d; mantissa := 0; exponent := 0 |}
  else
    let magnitude := ndigits (mant d) + exp10 d in
    if 310 <? magnitude then None
    else if magnitude <? -330 then Some {| sign := neg d; mantissa := 0; exponent := 0 |}
    else
      let num := if 0 <=? exp10 d then mant d * 10 ^ exp10 d else mant d in
      let den := if 0 <=? exp10 d then 1 else 10 ^ (- exp10 d) in
      let quot e := (num * 2 ^ Z.max 0 (- e)) / (den * 2 ^ Z.max 0 e) in
      let e0 := Z.log2 num - Z.log2 den - 53 in
      let e1 := if 2 ^ 53 <=? quot e0 then e0 + 1 else e0 in
      let e2 := Z.max e1 (-1074) in
      let a := num * 2 ^ Z.max 0 (- e2) in
      let b := den * 2 ^ Z.max 0 e2 in
      let q := a / b in
      let r := a mod b in
      let up := (b <? 2 * r) || ((b =? 2 * r) && Z.odd q) in
      let q' := if up then q + 1 else q in
      let '(q'', e3) := if q' =? 2 ^ 53 then (2 ^ 52, e2 + 1) else (q', e2) in
      if 971 <? e3 then None
      else Some {| sign := neg d; mantissa := q'';
                   exponent := if q'' =? 0 then 0 else e3 |}.

(** The shortest decimal that ParseFloat reads back as the float
    [f], not zero, and among those of that length the nearest:
    its digits as a number not divisible by ten, and its power of ten. *)
Fixpoint strip_zeros (fuel : nat) (c k : Z) : Z * Z :=
  match fuel with
  | O => (c, k)
  | S fuel' => if (c mod 10 =? 0) && negb (c =? 0) then strip_zeros fuel' (c / 10) (k + 1) else (c, k)
  end.

Fixpoint point_from (fuel : nat) (V D dp : Z) : Z :=
  (* the least dp' >= dp with V / D < 10 ^ dp' *)
  match fuel with
  | O => dp
  | S fuel' =>
      if V * 10 ^ Z.max 0 (- dp) <? D * 10 ^ Z.max 0 dp then dp
      else point_from fuel' V D (dp + 1)
  end.

Fixpoint shortest_from (fuel : nat) (V D lo hi : Z) (inclusive : bool) (dp n : Z) : Z * Z :=
  let k := dp - n in
  let ls := if 0 <=? k then D * 10 ^ k else D in
  let rs := if 0 <=? k then 1 else 10 ^ (- k) in
  let c := (V * rs) / ls in
  let down_ok := (lo * rs <? c * ls) || (inclusive && (lo * rs =? c * ls)) in
  let up_ok := ((c + 1) * ls <? hi * rs) || (inclusive && ((c + 1) * ls =? hi * rs)) in
  let below := V * rs - c * ls in
  let above := (c + 1) * ls - V * rs in
  let nearest := if below <? above then c
                 else if above <? below then c + 1
                 else if Z.even c then c else c + 1 in
  match fuel with
  | O => (nearest, k)
  | S fuel' =>
      if down_ok && up_ok then (nearest, k)
      else if down_ok then (c, k)
      else if up_ok then (c + 1, k)
      else shortest_from fuel' V D lo hi inclusive dp (n + 1)
  end.

Definition shortest (f : float64) : Z * Z :=
  let D := 2 ^ Z.max 0 (2 - exponent f) in
  let unit := 2 ^ Z.max 0 (exponent f - 2) in
  let V := 4 * mantissa f * unit in
  let hi := V + 2 * unit in
  let lo := if (mantissa f =? 2 ^ 52) && (-1074 <? exponent f) then V - unit else V - 2 * unit in
  let estimate := ((Z.log2 V - Z.log2 D) * 30103) / 100000 - 1 in
  let dp := point_from 8 V D estimate in
  let '(c, k) := shortest_from 16 V D lo hi (Z.even (mantissa f)) dp 1 in
  strip_zeros 400 c k.

Fixpoint zeros (n : nat) : string :=
  match n with
  | O => ""
  | S n' => String "0" (zeros n')
  end.

(** The text that encoding/json writes for a float64: strconv.AppendFloat
    with the format f and the shortest digits, or with the format e for a
    number below 1e-6 or not below 1e21, whose exponent loses its leading
    zero. [inl] is an integer literal. *)
Definition FormatFloat (f : float64) : Z + string :=
  if mantissa f =? 0 then (if sign f then inr "-0" else inl 0)
  else
    let '(c, k) := shortest f in
    let ds := Itoa c in
    let nd := Z.of_nat (String.length ds) in
    let x := nd + k - 1 in
    let minus := if sign f then "-" else "" in
    if (x <? -6) || (21 <=? x) then
      let first := substring 0 1 ds in
      let rest := substring 1 (String.length ds - 1) ds in
      inr (minus +:+ first +:+ (if 1 <? nd then "." +:+ rest else "")
             +:+ (if x <? 0 then "e-" +:+ Itoa (- x) else "e+" +:+ Itoa x))
    else if 0 <=? k then inl ((if sign f then -1 else 1) * (c * 10 ^ k))
    else if 0 <=? x then
      inr (minus +:+ substring 0 (Z.to_nat (x + 1)) ds +:+ "."
             +:+ substring (Z.to_nat (x + 1)) (String.length ds) ds)
    else inr (minus +:+ "0." +:+ zeros (Z.to_nat (- x - 1)) +:+ ds).

End strconv.

(* ================================================================== *)
(** * encoding/json, as far as the engine uses it *)
(* ================================================================== *)

Module json.

(** The word encoding/json uses for a value in an UnmarshalTypeError. *)
Definition kind (v : JSON) : string :=
  match v with
  | JNull => "null"
  | JBool _ => "bool"
  | JNum _ | JFrac _ => "number"
  | JStr _ => "string"
  | JArr _ => "array"
  | JObj _ => "object"
  end.

(** The text of a type error: the kind of the value and the Go type it
    was to be stored in. What encoding/json adds about the place of the
    value (the struct field, the position in the input) differs between
    its versions and is left out. *)
Definition UnmarshalTypeError (v : JSON) (gotype : string) : goerror :=
  ErrText ("json: cannot unmarshal " +:+ kind v +:+ " into Go value of type " +:+ gotype).

(** A number that does not fit the Go type is named with its literal. *)
Definition literal (v : JSON) : string :=
  match v with
  | JNum n => strconv.Itoa n
  | JFrac lit => lit
  | _ => kind v
  end.

Definition NumberError (v : JSON) (gotype : string) : goerror :=
  ErrText ("json: cannot unmarshal number " +:+ literal v
           +:+ " into Go value of type " +:+ gotype).

(** The decoder keeps the first type error and goes on decoding
    (decodeState.saveError). *)
Definition saved := option goerror.
Definition saveError (old new : saved) : saved :=
  match old with
  | Some _ => old
  | None => new
  end.

(** Object keys match a field name exactly or up to the simple case
    folding of Unicode. The field names of the engine are ASCII, and the
    characters outside ASCII that fold to an ASCII letter are U+017F (the
    long s, the bytes C5 BF, with s) and U+212A (the Kelvin sign, the
    bytes E2 84 AA, with k): these and the ASCII letters are folded. *)
Definition fold_ascii (c : ascii) : ascii :=
  let n := N_of_ascii c in
  if ((65 <=? n) && (n <=? 90))%N then ascii_of_N (n + 32) else c.

Definition is_byte (c : ascii) (n : N) : bool := (N_of_ascii c =? n)%N.

Fixpoint foldName (s : string) : string :=
  match s with
  | EmptyString => EmptyString
  | String c s' =>
      match s' with
      | String c1 s'' =>
          if is_byte c 197 && is_byte c1 191 then String "s" (foldName s'')
          else
            match s'' with
            | String c2 s''' =>
                if is_byte c 226 && is_byte c1 132 && is_byte c2 170
                then String "k" (foldName s''')
                else String (fold_ascii c) (foldName s')
            | EmptyString => String (fold_ascii c) (foldName s')
            end
      | EmptyString => String (fold_ascii c) (foldName s')
      end
  end.

Definition is_field (name key : string) : bool :=
  String.eqb (foldName name) (foldName key).

(** Storing one JSON value into a Go variable of a basic type. [null]
    leaves a string or a number as it is; a value of the wrong kind is a
    type error and leaves the variable as it is. *)
Definition store_string (v : JSON) (cur : string) : string * saved :=
  match v with
  | JStr s => (s, None)
  | JNull => (cur, None)
  | _ => (cur, Some (UnmarshalTypeError v "string"))
  end.

Definition store_int (v : JSON) (cur : Z) : Z * saved :=
  match v with
  | JNum n =>
      if ((- 2 ^ 63 <=? n) && (n <? 2 ^ 63))%Z then (n, None)
      else (cur, Some (NumberError v "int"))
  | JFrac "-0" => (0%Z, None)
  | JFrac _ => (cur, Some (NumberError v "int"))
  | JNull => (cur, None)
  | _ => (cur, Some (UnmarshalTypeError v "int"))
  end.

Definition store_uint64 (v : JSON) (cur : N) : N * saved :=
  match v with
  | JNum n =>
      if ((0 <=? n) && (n <? 2 ^ 64))%Z then (Z.to_N n, None)
      else (cur, Some (NumberError v "uint64"))
  | JFrac _ => (cur, Some (NumberError v "uint64"))
  | JNull => (cur, None)
  | _ => (cur, Some (UnmarshalTypeError v "uint64"))
  end.

(** Into an [any]. The Go value is held as the JSON that encoding/json
    writes for it. [null] gives nil, which is written as null. A number
    becomes a float64: an integer below 2^53 is one, and is written with
    its digits; any other number is rounded by strconv.ParseFloat and
    written as the float64 is, and a number beyond the range of float64
    is a type error that leaves nil. An object becomes a map, which has
    one value for a key, the last, and is written with its keys sorted. *)
Definition store_number (v : JSON) : JSON * saved :=
  let through (text : string) (d : strconv.decimal) : JSON * saved :=
    match strconv.ParseFloat d with
    | None =>
        (JNull,
         Some (ErrText ("json: cannot unmarshal number " +:+ text
                        +:+ " into Go value of type float64")))
    | Some f =>
        (match strconv.FormatFloat f with
         | inl n => JNum n
         | inr lit => JFrac lit
         end, None)
    end in
  match v with
  | JNum n =>
      if (Z.abs n <? 2 ^ 53)%Z then (v, None)
      else through (strconv.Itoa n)
             {| strconv.neg := (n <? 0)%Z; strconv.mant := Z.abs n;
                strconv.exp10 := 0 |}
  | JFrac lit =>
      match strconv.read_literal lit with
      | Some d => through lit d
      | None => (v, None)
      end
  | _ => (v, None)
  end.

(** m[key] = value, on a map held with its keys in the order of their
    bytes. *)
Fixpoint set_member (k : string) (v : JSON) (m : list (string * JSON))
  : list (string * JSON) :=
  match m with
  | [] => [(k, v)]
  | (k', v') :: rest =>
      match String.compare k k' with
      | Eq => (k, v) :: rest
      | Lt => (k, v) :: m
      | Gt => (k', v') :: set_member k v rest
      end
  end.

Fixpoint store_any (v : JSON) : JSON * saved :=
  match v with
  | JArr elems =>
      let fix elements (l : list JSON) (e : saved) : list JSON * saved :=
        match l with
        | [] => ([], e)
        | x :: rest =>
            let '(x', ex) := store_any x in
            let '(rest', e') := elements rest (saveError e ex) in
            (x' :: rest', e')
        end in
      let '(l, e) := elements elems None in
      (JArr l, e)
  | JObj members =>
      let fix entries (l m : list (string * JSON)) (e : saved)
        : list (string * JSON) * saved :=
        match l with
        | [] => (m, e)
        | (k, x) :: rest =>
            let '(x', ex) := store_any x in
            entries rest (set_member k x' m) (saveError e ex)
        end in
      let '(m, e) := entries members [] None in
      (JObj m, e)
  | _ => store_number v
  end.

(** Into a json.RawMessage: the text of the value, [null] included. *)
Definition store_raw (v : JSON) : RawMessage := Some v.

(** Decoding the members of an object into a struct, one after the other;
    a later member with the same key overwrites an earlier one. *)
Fixpoint object {A} (field : string -> JSON -> A -> A * saved)
    (members : list (string * JSON)) (a : A) (e : saved) : A * saved :=
  match members with
  | [] => (a, e)
  | (k, v) :: rest =>
      let '(a', e') := field k v a in
      object field rest a' (saveError e e')
  end.

(** Decoding the elements of an array into a slice: one element of the
    slice per element of the array, each decoded into the zero value. *)
Fixpoint array {A} (elem : JSON -> A -> A * saved) (zero : A)
    (elems : list JSON) (e : saved) : list A * saved :=
  match elems with
  | [] => ([], e)
  | v :: rest =>
      let '(a, e') := elem v zero in
      let '(l, e'') := array elem zero rest (saveError e e') in
      (a :: l, e'')
  end.

(** json.Marshal on an [any]. An [*Error] has no exported field and
    encodes as the empty object. *)
Definition Marshal (v : any) : result JSON :=
  match v with
  | AnyNil => Ok JNull
  | AnyJSON j => Ok j
  | AnyError _ => Ok (JObj [])
  | AnyOpaque ty => Fail (ErrText ("json: unsupported type: " +:+ ty))
  end.




End json.

(* ================================================================== *)
(** * net/http, as far as the engine uses it *)
(* ================================================================== *)

Module http.

(** *http.Request: the context it carries and its body. *)
Record Request := {
  Method : string;
  URL : string;
  Ctx : Context;
  Body : Payload;
}.

(** func (r *Request) WithContext(ctx) *Request *)
Definition WithContext (r : Request) (ctx : Context) : Request :=
  {| Method := Method r; URL := URL r; Ctx := ctx; Body := Body r |}.

(** What io.Copy(buf, resp.Body) leaves behind: the number of bytes
    written, and the content of that many bytes at the start of the
    caller's working buffer. The latter is the body itself as long as the
    buffer did not have to grow while the body was being read. *)
Record Copied := {
  written : Z;
  in_buffer : Payload;
}.

(** *http.Response; [RespBody] is the result of reading the body to its
    end, [Req] the request the response answers (resp.Request), which the
    transports of net/http always set. *)
Record Response := {
  StatusCode : Z;
  Status : string;
  RespBody : result Copied;
  Req : Request;
}.

(** http.ResponseWriter: a handle; what is written through it is part of
    the [World]. *)
Inductive ResponseWriter : Set := Writer.

End http.

(* ================================================================== *)
(** * Go slices with their backing arrays *)
(* ================================================================== *)

Module Slices.

(** A slice header. All slices of the engine start at the first element of
    their array, so the header is the array, a length and a capacity;
    [base = None] is the nil slice. *)
Record slice := {
  base : option nat;
  len : nat;
  cap : nat;
}.

Definition nil : slice := {| base := None; len := 0; cap := 0 |}.

(** runtime.nextslicecap: the capacity that append asks for when the old
    array is too small. *)
Fixpoint grow_quarter (fuel newcap newLen : nat) : nat :=
  match fuel with
  | 0 => newLen
  | S fuel' =>
      let newcap' := newcap + (newcap + 3 * 256) / 4 in
      if (newLen <=? newcap')%nat then newcap' else grow_quarter fuel' newcap' newLen
  end.

Definition nextslicecap (newLen oldCap : nat) : nat :=
  let doublecap := oldCap + oldCap in
  if (doublecap <? newLen)%nat then newLen
  else if (oldCap <? 256)%nat then doublecap
  else grow_quarter newLen oldCap newLen.

(** runtime.roundupsize for memory that holds pointers: the size of the
    smallest size class of the allocator that holds the request, where a
    request of more than 512 bytes carries a header of 8 bytes; a request
    that is too large for the classes takes whole pages of 8192 bytes. *)
Definition class_to_size : list N :=
  [8; 16; 24; 32; 48; 64; 80; 96; 112; 128; 144; 160; 176; 192; 208; 224; 240; 256;
   288; 320; 352; 384; 416; 448; 480; 512; 576; 640; 704; 768; 896; 1024; 1152; 1280;
   1408; 1536; 1792; 2048; 2304; 2688; 3072; 3200; 3456; 4096; 4864; 5120; 5376; 6144;
   6528; 6784; 6912; 8192; 9472; 9728; 10240; 10880; 12288; 13568; 14336; 16384; 18432;
   19072; 20480; 21760; 24576; 27264; 28672; 32768]%N.

Fixpoint class_for (classes : list N) (size : N) : option N :=
  match classes with
  | [] => None
  | c :: rest => if (size <=? c)%N then Some c else class_for rest size
  end.

Definition roundupsize (size : N) : N :=
  if (size <=? 32768 - 8)%N then
    let reqSize := if (512 <? size)%N then (size + 8)%N else size in
    match class_for class_to_size reqSize with
    | Some c => (c - (reqSize - size))%N
    | None => size
    end
  else ((size + 8191) / 8192 * 8192)%N.

(** runtime.growslice for elements of one word, as the func values of the
    engine are: the capacity of the array it allocates. *)
Definition growslice_cap (newLen oldCap : nat) : nat :=
  N.to_nat (roundupsize (N.of_nat (nextslicecap newLen oldCap) * 8) / 8).

Section Store.
Context {A : Type}.

(** The arrays allocated so far; an array is held up to its last written
    element. *)
Record store := {
  arrays : gmap nat (list A);
  next : nat;
}.

Definition empty : store := {| arrays := ∅; next := 0 |}.

Definition array_of (st : store) (b : nat) : list A :=
  default [] (arrays st !! b).

(** The elements s[0], ..., s[len(s)-1]. *)
Definition read (st : store) (s : slice) : list A :=
  match base s with
  | Some b => take (len s) (array_of st b)
  | None => []
  end.

(** append(s, xs...): when the capacity suffices the elements are written
    into the array of [s], after its first [len s] elements, whatever was
    there; otherwise a new array receives a copy of [s] and the elements.
    The nil slice has no capacity: appending nothing to it gives it back. *)
Definition append (st : store) (s : slice) (xs : list A) : store * slice :=
  let n := len s + length xs in
  let grown :=
    let b := next st in
    ({| arrays := <[b := read st s ++ xs]> (arrays st); next := S b |},
     {| base := Some b; len := n; cap := growslice_cap n (cap s) |}) in
  match base s with
  | Some b =>
      if (n <=? cap s)%nat then
        let old := array_of st b in
        ({| arrays := <[b := take (len s) old ++ xs ++ drop n old]> (arrays st);
            next := next st |},
         {| base := Some b; len := n; cap := cap s |})
      else grown
  | None =>
      match xs with
      | [] => (st, s)
      | _ => grown
      end
  end.

(** Invariants of a store. [wf]: every array was allocated, below [next].
    [valid s]: the slice lies within an allocated array that holds at
    least its elements. [protected s t]: appending to [s] cannot write
    over an element of [t], because [s] is full, or lives in another
    array, or is at least as long as [t]. *)
Definition wf (st : store) : Prop :=
  ∀ b, is_Some (arrays st !! b) → b < next st.

Definition valid (st : store) (s : slice) : Prop :=
  match base s with
  | Some b => b < next st ∧ len s ≤ length (array_of st b)
  | None => len s = 0
  end.

Definition protected (s t : slice) : Prop :=
  len s = cap s ∨ base t ≠ base s ∨ len t ≤ len s.

End Store.
Arguments store A : clear implicits.

End Slices.

(* ================================================================== *)
(** * helpers.go *)
(* ================================================================== *)

(** type Endpoint func(ctx, request interface{}) (response interface{}, err error) *)
Definition Endpoint := Context -> any -> M (result any).
(** type EndpointMiddlewareFunc = func(Endpoint) Endpoint *)
Abbreviation EndpointMiddlewareFunc := (Endpoint -> Endpoint) (only parsing).

(** for i := len(others) - 1; i >= 0; i-- { next = others[i](next) },
    with [n = i + 1]. *)
Fixpoint wrap_others (others : list EndpointMiddlewareFunc) (n : nat)
    (next : Endpoint) : Endpoint :=
  match n with
  | 0 => next
  | S i =>
      match others !! i with
      | Some mw => wrap_others others i (mw next)
      | None => next
      end
  end.

Definition middlewareChain (middlewares : list EndpointMiddlewareFunc)
  : EndpointMiddlewareFunc :=
  fun next =>
    match middlewares with
    | [] => next
    | outer :: others => outer (wrap_others others (length others) next)
    end.

(* ================================================================== *)
(** * server.go *)
(* ================================================================== *)

Module Server.

Definition Version : string := "2.0".

Definition jsonRPCParseError : Z := -32700.
Definition jsonRPCInvalidRequestError : Z := -32600.
Definition jsonRPCMethodNotFoundError : Z := -32601.
Definition jsonRPCInvalidParamsError : Z := -32602.
Definition jsonRPCInternalError : Z := -32603.

(** type BeforeFunc func(ctx, r *http.Request) (newCtx context.Context, err error) *)
Definition BeforeFunc := Context -> http.Request -> M (Context * option goerror).
(** type AfterFunc func(ctx, rw http.ResponseWriter) (newCtx context.Context) *)
Definition AfterFunc := Context -> http.ResponseWriter -> M Context.
(** type ReqDecode func(ctx, r *http.Request, params json.RawMessage) (result any, err error) *)
Definition ReqDecode := Context -> http.Request -> RawMessage -> M (result any).

(** [err_Data] has the tag omitempty; [JNull] is the nil interface. *)
Record jsonRPCError := {
  err_Code : Z;
  err_Message : string;
  err_Data : JSON;
}.

Record jsonRPCRequest := {
  req_ID : JSON;
  req_Version : string;
  req_Method : string;
  req_Params : RawMessage;
}.

(** [resp_Error] and [resp_Result] have the tag omitempty. *)
Record jsonRPCResponse := {
  resp_ID : JSON;
  resp_Version : string;
  resp_Error : option jsonRPCError;
  resp_Result : RawMessage;
}.

Record jsonRPCRequestData := {
  requests : list jsonRPCRequest;
  isBatch : bool;
}.

Definition zero_request : jsonRPCRequest :=
  {| req_ID := JNull; req_Version := ""; req_Method := ""; req_Params := None |}.

Definition zero_requestData : jsonRPCRequestData :=
  {| requests := []; isBatch := false |}.

(** One member of a JSON object stored into a jsonRPCRequest. *)
Definition request_field (k : string) (v : JSON) (r : jsonRPCRequest)
  : jsonRPCRequest * json.saved :=
  if json.is_field "id" k then
    let '(id, e) := json.store_any v in
    ({| req_ID := id; req_Version := req_Version r;
        req_Method := req_Method r; req_Params := req_Params r |}, e)
  else if json.is_field "jsonrpc" k then
    let '(s, e) := json.store_string v (req_Version r) in
    ({| req_ID := req_ID r; req_Version := s;
        req_Method := req_Method r; req_Params := req_Params r |}, e)
  else if json.is_field "method" k then
    let '(s, e) := json.store_string v (req_Method r) in
    ({| req_ID := req_ID r; req_Version := req_Version r;
        req_Method := s; req_Params := req_Params r |}, e)
  else if json.is_field "params" k then
    ({| req_ID := req_ID r; req_Version := req_Version r;
        req_Method := req_Method r; req_Params := json.store_raw v |}, None)
  else (r, None).

(** json.Unmarshal(b, &req) for a jsonRPCRequest. *)
Definition unmarshal_request (b : JSON) (req : jsonRPCRequest)
  : jsonRPCRequest * json.saved :=
  match b with
  | JObj members => json.object request_field members req None
  | JNull => (req, None)
  | _ => (req, Some (json.UnmarshalTypeError b "jsonrpc.jsonRPCRequest"))
  end.

(** json.Unmarshal(b, &r.requests) for a []jsonRPCRequest. *)
Definition unmarshal_requests (b : JSON) (reqs : list jsonRPCRequest)
  : list jsonRPCRequest * json.saved :=
  match b with
  | JArr elems => json.array unmarshal_request zero_request elems None
  | JNull => ([], None)
  | _ => (reqs, Some (json.UnmarshalTypeError b "[]jsonrpc.jsonRPCRequest"))
  end.

(** bytes.HasPrefix(b, []byte("[")), on the text of one JSON value: the
    text of an array, and of no other value, begins with the bracket. *)
Definition HasPrefix_bracket (b : JSON) : bool :=
  match b with
  | JArr _ => true
  | _ => false
  end.

(** func (r *jsonRPCRequestData) UnmarshalJSON(b []byte) error *)
Definition UnmarshalJSON (b : JSON) (r : jsonRPCRequestData)
  : jsonRPCRequestData * option goerror :=
  if HasPrefix_bracket b then
    let '(reqs, err) := unmarshal_requests b (requests r) in
    ({| requests := reqs; isBatch := true |}, err)
  else
    let '(req, err) := unmarshal_request b zero_request in
    match err with
    | Some e => (r, Some e)
    | None => ({| requests := requests r ++ [req]; isBatch := isBatch r |}, None)
    end.

(** json.NewDecoder(r.Body).Decode(&requestData): the decoder first reads
    one whole value and fails on a text that is not JSON, before the
    method UnmarshalJSON of the target is called with the value. *)
Definition Decode (body : Payload) (r : jsonRPCRequestData)
  : jsonRPCRequestData * option goerror :=
  match body with
  | Malformed why => (r, Some (ErrText why))
  | Value b => UnmarshalJSON b r
  end.

(** The three slices of an [Options] share arrays with the slices they
    were copied from. *)
Record Arrays := {
  before_arrays : Slices.store BeforeFunc;
  after_arrays : Slices.store AfterFunc;
  middleware_arrays : Slices.store EndpointMiddlewareFunc;
}.

Definition no_arrays : Arrays :=
  {| before_arrays := Slices.empty; after_arrays := Slices.empty;
     middleware_arrays := Slices.empty |}.

Record Options := {
  before : Slices.slice;
  after : Slices.slice;
  middleware : Slices.slice;
}.

Definition zero_Options : Options :=
  {| before := Slices.nil; after := Slices.nil; middleware := Slices.nil |}.

(** type Option func(o *Options) *)
Definition Option := Options -> Arrays -> Options * Arrays.

(** func Before(before ...BeforeFunc) Option *)
Definition Before (bs : list BeforeFunc) : Option :=
  fun o h =>
    let '(st, s) := Slices.append (before_arrays h) (before o) bs in
    ({| before := s; after := after o; middleware := middleware o |},
     {| before_arrays := st; after_arrays := after_arrays h;
        middleware_arrays := middleware_arrays h |}).

(** func After(after ...AfterFunc) Option *)
Definition After (fs : list AfterFunc) : Option :=
  fun o h =>
    let '(st, s) := Slices.append (after_arrays h) (after o) fs in
    ({| before := before o; after := s; middleware := middleware o |},
     {| before_arrays := before_arrays h; after_arrays := st;
        middleware_arrays := middleware_arrays h |}).

(** func EndpointMiddleware(middleware ...EndpointMiddlewareFunc) Option *)
Definition EndpointMiddleware (ms : list EndpointMiddlewareFunc) : Option :=
  fun o h =>
    let '(st, s) := Slices.append (middleware_arrays h) (middleware o) ms in
    ({| before := before o; after := after o; middleware := s |},
     {| before_arrays := before_arrays h; after_arrays := after_arrays h;
        middleware_arrays := st |}).

(** for _, opt := range opts { opt(o) } *)
Definition apply_options (opts : list Option) (o : Options) (h : Arrays)
  : Options * Arrays :=
  fold_left (fun oh opt => opt (fst oh) (snd oh)) opts (o, h).

Record ServerMethod := {
  endpoint : Endpoint;
  reqDecode : ReqDecode;
  opts : Options;
}.

(** The server: its registry, its own options, and the arrays behind the
    slices of its options and of the options of its methods. *)
Record Server := {
  methods : gmap string ServerMethod;
  server_opts : Options;
  heap : Arrays;
}.

(** func NewServer(opts ...Option) *Server *)
Definition NewServer (opts : list Option) : Server :=
  let '(o, h) := apply_options opts zero_Options no_arrays in
  {| methods := ∅; server_opts := o; heap := h |}.

(** func (s *Server) Register(method, endpoint, reqDecode, opts ...Option) *ServerMethod.
    The result is the server afterwards; the method returned by the Go
    function is the one found under [method] in its registry. *)
Definition Register (s : Server) (method : string) (endpoint : Endpoint)
    (reqDecode : ReqDecode) (opts : list Option) : Server :=
  let o := {| before := before (server_opts s); after := after (server_opts s);
              middleware := middleware (server_opts s) |} in
  let '(o, h) := apply_options opts o (heap s) in
  let sm := {| opts := o; endpoint := endpoint; reqDecode := reqDecode |} in
  {| methods := <[method := sm]> (methods s); server_opts := server_opts s;
     heap := h |}.

(** The hooks and middleware a method runs with, read through its slices. *)
Definition method_before (s : Server) (sm : ServerMethod) : list BeforeFunc :=
  Slices.read (before_arrays (heap s)) (before (opts sm)).
Definition method_after (s : Server) (sm : ServerMethod) : list AfterFunc :=
  Slices.read (after_arrays (heap s)) (after (opts sm)).
Definition method_middleware (s : Server) (sm : ServerMethod)
  : list EndpointMiddlewareFunc :=
  Slices.read (middleware_arrays (heap s)) (middleware (opts sm)).

(** The middleware of the server, read through the slice of its own
    options. *)
Definition server_middleware (s : Server) : list EndpointMiddlewareFunc :=
  Slices.read (middleware_arrays (heap s)) (middleware (server_opts s)).

(** The hooks of the server, read through the slices of its own options. *)
Definition server_before (s : Server) : list BeforeFunc :=
  Slices.read (before_arrays (heap s)) (before (server_opts s)).
Definition server_after (s : Server) : list AfterFunc :=
  Slices.read (after_arrays (heap s)) (after (server_opts s)).

(** The options that the package offers. *)
Definition offered (opt : Option) : Prop :=
  (∃ bs, opt = Before bs) ∨ (∃ fs, opt = After fs) ∨ (∃ ms, opt = EndpointMiddleware ms).

(** The invariant of the arrays of a server with respect to its own
    options. *)
Definition heap_ok (s : Server) : Prop :=
  Slices.wf (before_arrays (heap s)) ∧ Slices.wf (after_arrays (heap s)) ∧
  Slices.wf (middleware_arrays (heap s)) ∧
  Slices.valid (before_arrays (heap s)) (before (server_opts s)) ∧
  Slices.valid (after_arrays (heap s)) (after (server_opts s)) ∧
  Slices.valid (middleware_arrays (heap s)) (middleware (server_opts s)).

(** func (s *Server) makeErrorResponse(id any, code int, message string) jsonRPCResponse *)
Definition makeErrorResponse (id : JSON) (code : Z) (message : string)
  : jsonRPCResponse :=
  {| resp_ID := id; resp_Version := Version;
     resp_Error := Some {| err_Code := code; err_Message := message; err_Data := JNull |};
     resp_Result := None |}.

Local Open Scope go_scope.

(** for _, before := range method.opts.before { ctx, err = before(ctx, r); if err != nil { return } } *)
Fixpoint run_before (bs : list BeforeFunc) (ctx : Context) (r : http.Request)
  : M (result Context) :=
  match bs with
  | [] => ret (Ok ctx)
  | before :: rest =>
      ce <- before ctx r ;;
      match snd ce with
      | Some err => ret (Fail err)
      | None => run_before rest (fst ce) r
      end
  end.

(** for _, after := range method.opts.after { ctx = after(ctx, w) } *)
Fixpoint run_after (fs : list AfterFunc) (ctx : Context) (w : http.ResponseWriter)
  : M Context :=
  match fs with
  | [] => ret ctx
  | after :: rest => ctx' <- after ctx w ;; run_after rest ctx' w
  end.

(** func (s *Server) handleMethod(method, ctx, w, r, params) (resp any, err error) *)
Definition handleMethod (s : Server) (method : ServerMethod) (ctx : Context)
    (w : http.ResponseWriter) (r : http.Request) (params : RawMessage)
  : M (result any) :=
  rb <- run_before (method_before s method) ctx r ;;
  match rb with
  | Fail err => ret (Fail err)
  | Ok ctx =>
      rd <- reqDecode method ctx r params ;;
      match rd with
      | Fail err => ret (Fail err)
      | Ok request =>
          re <- middlewareChain (method_middleware s method) (endpoint method) ctx request ;;
          match re with
          | Fail err => ret (Fail err)
          | Ok response =>
              _ <- run_after (method_after s method) ctx w ;;
              ret (Ok response)
          end
      end
  end.

(** The body of the loop of ServeHTTP: the response for one request. *)
Definition serve_request (s : Server) (ctx : Context) (w : http.ResponseWriter)
    (r : http.Request) (req : jsonRPCRequest) : M jsonRPCResponse :=
  match methods s !! req_Method req with
  | None =>
      ret (makeErrorResponse (req_ID req) jsonRPCMethodNotFoundError
             ("method " +:+ req_Method req +:+ " not found"))
  | Some method =>
      res <- handleMethod s method ctx w r (req_Params req) ;;
      match res with
      | Fail err =>
          ret (makeErrorResponse (req_ID req) jsonRPCInternalError (error_text err))
      | Ok resp =>
          match json.Marshal resp with
          | Fail err =>
              ret (makeErrorResponse (req_ID req) jsonRPCInternalError (error_text err))
          | Ok result =>
              ret {| resp_ID := req_ID req; resp_Version := "2.0";
                     resp_Error := None; resp_Result := Some result |}
          end
      end
  end.

(** for _, req := range requestData.requests { ...; responses = append(responses, ...) } *)
Fixpoint serve_requests (s : Server) (ctx : Context) (w : http.ResponseWriter)
    (r : http.Request) (reqs : list jsonRPCRequest)
    (responses : list jsonRPCResponse) : M (list jsonRPCResponse) :=
  match reqs with
  | [] => ret responses
  | req :: rest =>
      resp <- serve_request s ctx w r req ;;
      serve_requests s ctx w r rest (responses ++ [resp])
  end.

(** What ServeHTTP hands to the encoder: the slice of responses, or its
    first element. *)
Inductive Emitted :=
| Batch (responses : list jsonRPCResponse)
| Single (response : jsonRPCResponse).

(** ServeHTTP up to the choice of the framing: the decoded request data
    and the responses. *)
Definition dispatch (s : Server) (w : http.ResponseWriter) (r : http.Request)
  : M (jsonRPCRequestData * list jsonRPCResponse) :=
  let ctx := http.Ctx r in
  let '(requestData, err) := Decode (http.Body r) zero_requestData in
  match err with
  | Some err =>
      ret (requestData, [makeErrorResponse JNull jsonRPCParseError (error_text err)])
  | None =>
      responses <- serve_requests s ctx w r (requests requestData) [] ;;
      ret (requestData, responses)
  end.

(** if requestData.isBatch { data = responses } else { data = responses[0] } *)
Definition respond (requestData : jsonRPCRequestData)
    (responses : list jsonRPCResponse) : outcome Emitted :=
  if isBatch requestData then Return (Batch responses)
  else
    match responses with
    | response :: _ => Return (Single response)
    | [] => Panic "index out of range [0] with length 0"
    end.

(** func (s *Server) ServeHTTP(w http.ResponseWriter, r *http.Request) *)
Definition ServeHTTP (s : Server) (w : http.ResponseWriter) (r : http.Request)
  : M (outcome Emitted) :=
  dr <- dispatch s w r ;;
  ret (respond (fst dr) (snd dr)).

(** json.NewEncoder(w).Encode(data): the JSON written to the client. *)
Definition encode_error (e : jsonRPCError) : JSON :=
  JObj ([("code", JNum (err_Code e)); ("message", JStr (err_Message e))]
        ++ match err_Data e with
           | JNull => []
           | d => [("data", d)]
           end).

Definition encode_response (resp : jsonRPCResponse) : JSON :=
  JObj ([("id", resp_ID resp); ("jsonrpc", JStr (resp_Version resp))]
        ++ match resp_Error resp with
           | Some e => [("error", encode_error e)]
           | None => []
           end
        ++ match resp_Result resp with
           | Some raw => [("result", raw)]
           | None => []
           end).

(** [responses] is declared by  var responses []jsonRPCResponse  and is
    the nil slice until something is appended to it; the encoder writes a
    nil slice as null and any other slice as an array. *)
Definition encode_emitted (data : Emitted) : JSON :=
  match data with
  | Batch [] => JNull
  | Batch responses => JArr (map encode_response responses)
  | Single response => encode_response response
  end.

End Server.

(* ================================================================== *)
(** * client.go *)
(* ================================================================== *)

Module Client.

(** type ClientBeforeFunc func(context.Context, *http.Request) context.Context *)
Definition ClientBeforeFunc := Context -> http.Request -> M Context.
(** type ClientAfterFunc func(context.Context, *http.Response, json.RawMessage) context.Context *)
Definition ClientAfterFunc := Context -> http.Response -> RawMessage -> M Context.
(** The method Do of an *http.Client. *)
Definition HTTPClient := http.Request -> M (result http.Response).

Record clientOptions := {
  ctx : option Context;
  before : list ClientBeforeFunc;
  after : list ClientAfterFunc;
  httpClient : option HTTPClient;
}.

(** type ClientOption func(o *clientOptions) *)
Definition ClientOption := clientOptions -> clientOptions.

Definition WithHTTPClient (httpClient : HTTPClient) : ClientOption :=
  fun o => {| ctx := ctx o; before := before o; after := after o;
              httpClient := Some httpClient |}.

Definition WithContext (c : Context) : ClientOption :=
  fun o => {| ctx := Some c; before := before o; after := after o;
              httpClient := httpClient o |}.

Definition BeforeRequest (bs : list ClientBeforeFunc) : ClientOption :=
  fun o => {| ctx := ctx o; before := before o ++ bs; after := after o;
              httpClient := httpClient o |}.

Definition AfterRequest (fs : list ClientAfterFunc) : ClientOption :=
  fun o => {| ctx := ctx o; before := before o; after := after o ++ fs;
              httpClient := httpClient o |}.

(** A typed request: the interface Requester, with the optional
    interfaces RequesterWithBefore, RequesterWithAfter and
    requesterWithContext. A request that does not implement one of them
    has the empty list of hooks, or no context. *)
Record Requester := {
  MakeRequest : string * any;
  MakeResult : RawMessage -> result any;
  Before : list ClientBeforeFunc;
  After : list ClientAfterFunc;
  Context_ : option Context;
}.

Record clientReq := {
  creq_ID : N;
  creq_Version : string;
  creq_Method : string;
  creq_Params : any;
}.

Record clientError := {
  cerr_Code : Z;
  cerr_Message : string;
  cerr_Data : JSON;
}.

Record clientResp := {
  cresp_ID : N;
  cresp_Version : string;
  cresp_Error : option clientError;
  cresp_Result : RawMessage;
}.

Definition zero_clientReq : clientReq :=
  {| creq_ID := 0; creq_Version := ""; creq_Method := ""; creq_Params := AnyNil |}.
Definition zero_clientError : clientError :=
  {| cerr_Code := 0; cerr_Message := ""; cerr_Data := JNull |}.
Definition zero_clientResp : clientResp :=
  {| cresp_ID := 0; cresp_Version := ""; cresp_Error := None; cresp_Result := None |}.

Record BatchResult := {
  results : list any;
}.

(** func (r *BatchResult) At(i int) any; [None] is the panic of an index
    out of range. *)
Definition At (r : BatchResult) (i : nat) : option any := results r !! i.

(** func (r *BatchResult) Error(i int) (err error) *)
Definition BatchResult_Error (r : BatchResult) (i : nat) : option (option Error) :=
  match results r !! i with
  | Some (AnyError e) => Some (Some e)
  | Some _ => Some None
  | None => None
  end.

(** func (r *BatchResult) Len() int *)
Definition Len (r : BatchResult) : nat := length (results r).

Record Client := {
  target : string;
  incrementID : N;
  opts : clientOptions;
}.

Definition set_incrementID (c : Client) (v : N) : Client :=
  {| target := target c; incrementID := v; opts := opts c |}.

(** func (c *Client) autoIncrementID() uint64: atomic.AddUint64 adds one,
    modulo 2^64, and returns the new value. *)
Definition autoIncrementID (c : Client) : N * Client :=
  let v := ((incrementID c + 1) mod 2 ^ 64)%N in
  (v, set_incrementID c v).

(** One member of a JSON object stored into a clientError. *)
Definition clientError_field (k : string) (v : JSON) (e : clientError)
  : clientError * json.saved :=
  if json.is_field "code" k then
    let '(n, err) := json.store_int v (cerr_Code e) in
    ({| cerr_Code := n; cerr_Message := cerr_Message e; cerr_Data := cerr_Data e |}, err)
  else if json.is_field "message" k then
    let '(s, err) := json.store_string v (cerr_Message e) in
    ({| cerr_Code := cerr_Code e; cerr_Message := s; cerr_Data := cerr_Data e |}, err)
  else if json.is_field "data" k then
    let '(d, err) := json.store_any v in
    ({| cerr_Code := cerr_Code e; cerr_Message := cerr_Message e;
        cerr_Data := d |}, err)
  else (e, None).

(** A JSON value stored into a field of type *clientError: [null] gives
    the nil pointer; for any other value the pointer is made to point to a
    clientError (a new one if it was nil), into which the value is decoded. *)
Definition store_clientError (v : JSON) (cur : option clientError)
  : option clientError * json.saved :=
  let e := default zero_clientError cur in
  match v with
  | JNull => (None, None)
  | JObj members =>
      let '(e', err) := json.object clientError_field members e None in
      (Some e', err)
  | _ => (Some e, Some (json.UnmarshalTypeError v "jsonrpc.clientError"))
  end.

(** One member of a JSON object stored into a clientResp. *)
Definition clientResp_field (k : string) (v : JSON) (r : clientResp)
  : clientResp * json.saved :=
  if json.is_field "id" k then
    let '(n, err) := json.store_uint64 v (cresp_ID r) in
    ({| cresp_ID := n; cresp_Version := cresp_Version r;
        cresp_Error := cresp_Error r; cresp_Result := cresp_Result r |}, err)
  else if json.is_field "jsonrpc" k then
    let '(s, err) := json.store_string v (cresp_Version r) in
    ({| cresp_ID := cresp_ID r; cresp_Version := s;
        cresp_Error := cresp_Error r; cresp_Result := cresp_Result r |}, err)
  else if json.is_field "error" k then
    let '(e, err) := store_clientError v (cresp_Error r) in
    ({| cresp_ID := cresp_ID r; cresp_Version := cresp_Version r;
        cresp_Error := e; cresp_Result := cresp_Result r |}, err)
  else if json.is_field "result" k then
    ({| cresp_ID := cresp_ID r; cresp_Version := cresp_Version r;
        cresp_Error := cresp_Error r; cresp_Result := json.store_raw v |}, None)
  else (r, None).

Definition unmarshal_clientResp (b : JSON) (r : clientResp)
  : clientResp * json.saved :=
  match b with
  | JObj members => json.object clientResp_field members r None
  | JNull => (r, None)
  | _ => (r, Some (json.UnmarshalTypeError b "jsonrpc.clientResp"))
  end.

(** json.Unmarshal(data, &responses) for a []clientResp. The whole of
    [data] has to be one JSON value; an array replaces the content of the
    slice, whatever its length was. *)
Definition unmarshal_responses (data : Payload) (responses : list clientResp)
  : list clientResp * option goerror :=
  match data with
  | Malformed why => (responses, Some (ErrText why))
  | Value (JArr elems) => json.array unmarshal_clientResp zero_clientResp elems None
  | Value JNull => ([], None)
  | Value b => (responses, Some (json.UnmarshalTypeError b "[]jsonrpc.clientResp"))
  end.

(** json.NewEncoder(reqBuf).Encode(rpcRequests) *)
Definition encode_clientReq (r : clientReq) : result JSON :=
  match json.Marshal (creq_Params r) with
  | Fail err => Fail err
  | Ok params =>
      Ok (JObj [("id", JNum (Z.of_N (creq_ID r))); ("jsonrpc", JStr (creq_Version r));
                ("method", JStr (creq_Method r)); ("params", params)])
  end.

Fixpoint encode_elements (rs : list clientReq) : result (list JSON) :=
  match rs with
  | [] => Ok []
  | r :: rest =>
      match encode_clientReq r with
      | Fail err => Fail err
      | Ok j =>
          match encode_elements rest with
          | Fail err => Fail err
          | Ok js => Ok (j :: js)
          end
      end
  end.

Definition encode_requests (rs : list clientReq) : result JSON :=
  match encode_elements rs with
  | Fail err => Fail err
  | Ok js => Ok (JArr js)
  end.

(** rpcRequests[i] = r, results[i] = v: [None] is the panic of an index
    out of range. *)
Definition set_index {A} (l : list A) (i : nat) (x : A) : option (list A) :=
  if decide (i < length l) then Some (<[i := x]> l) else None.

Local Open Scope go_scope.

(** for _, beforeFunc := range ... { req = req.WithContext(beforeFunc(req.Context(), req)) } *)
Fixpoint run_before (bs : list ClientBeforeFunc) (req : http.Request)
  : M http.Request :=
  match bs with
  | [] => ret req
  | beforeFunc :: rest =>
      c <- beforeFunc (http.Ctx req) req ;;
      run_before rest (http.WithContext req c)
  end.

(** for _, afterFunc := range ... { afterFunc(resp.Request.Context(), resp, response.Result) } *)
Fixpoint run_after (fs : list ClientAfterFunc) (resp : http.Response)
    (raw : RawMessage) : M unit :=
  match fs with
  | [] => ret tt
  | afterFunc :: rest =>
      _ <- afterFunc (http.Ctx (http.Req resp)) resp raw ;;
      run_after rest resp raw
  end.

(** The variables the first loop of doRequests works on. *)
Record building := {
  b_client : Client;
  b_req : http.Request;
  b_idsIndex : gmap N nat;
  b_rpcRequests : list clientReq;
}.

(** The body of  for i, request := range requests { ... }  in doRequests. *)
Definition build_request (i : nat) (request : Requester) (b : building)
  : M (outcome building) :=
  let req := match Context_ request with
             | Some c => http.WithContext (b_req b) c
             | None => b_req b
             end in
  req <- run_before (Before request) req ;;
  let '(methodName, params) := MakeRequest request in
  let '(id, c) := autoIncrementID (b_client b) in
  let r := {| creq_ID := id; creq_Version := "2.0"; creq_Method := methodName;
              creq_Params := params |} in
  match set_index (b_rpcRequests b) i r with
  | None => ret (Panic "index out of range")
  | Some rpcRequests =>
      ret (Return {| b_client := c; b_req := req;
                     b_idsIndex := <[creq_ID r := i]> (b_idsIndex b);
                     b_rpcRequests := rpcRequests |})
  end.

Fixpoint build_requests (i : nat) (requests : list Requester) (b : building)
  : M (outcome building) :=
  match requests with
  | [] => ret (Return b)
  | request :: rest =>
      ob <- build_request i request b ;;
      match ob with
      | Return b' => build_requests (S i) rest b'
      | Raise err => ret (Raise err)
      | Panic msg => ret (Panic msg)
      end
  end.

Section Engine.

(** url.Parse, through which http.NewRequest can fail, and
    http.DefaultClient. *)
Variable url_Parse : string -> option goerror.
Variable DefaultClient : HTTPClient.

(** http.NewRequest(method, url, nil): background context, no body. *)
Definition NewRequest (method url : string) : result http.Request :=
  match url_Parse url with
  | Some err => Fail err
  | None => Ok {| http.Method := method; http.URL := url; http.Ctx := [];
                  http.Body := Malformed "EOF" |}
  end.

(** c.opts.httpClient.Do *)
Definition Do (c : Client) : HTTPClient :=
  default DefaultClient (httpClient (opts c)).

(** The first part of doRequests, up to the encoding of the batch: the
    client afterwards, the request, the correlation table and the wire
    requests. *)
Definition prepare (c : Client) (ctx : Context) (requests : list Requester)
  : M (outcome building) :=
  let c := set_incrementID c 0 in
  match NewRequest "POST" (target c) with
  | Fail err => ret (Raise err)
  | Ok req =>
      let req := http.WithContext req ctx in
      let idsIndex : gmap N nat := ∅ in
      let rpcRequests := replicate (length requests) zero_clientReq in
      req <- run_before (before (opts c)) req ;;
      build_requests 0 requests
        {| b_client := c; b_req := req; b_idsIndex := idsIndex;
           b_rpcRequests := rpcRequests |}
  end.

(** var wb = make([]byte, 0, 10485760) *)
Definition working_buffer : Z := 10485760.

(** The second part of doRequests: encoding, the POST, the status, the
    body. *)
Definition exchange (b : building)
  : M (outcome (Payload * gmap N nat * http.Response)) :=
  match encode_requests (b_rpcRequests b) with
  | Fail err => ret (Raise err)
  | Ok body =>
      let req := {| http.Method := http.Method (b_req b); http.URL := http.URL (b_req b);
                    http.Ctx := http.Ctx (b_req b); http.Body := Value body |} in
      rr <- Do (b_client b) req ;;
      match rr with
      | Fail err => ret (Raise err)
      | Ok resp =>
          if negb (http.StatusCode resp =? 200)%Z then
            ret (Raise (ErrText (http.Status resp)))
          else
            match http.RespBody resp with
            | Fail err => ret (Raise err)
            | Ok copied =>
                if (working_buffer <? http.written copied)%Z then
                  ret (Panic "slice bounds out of range")
                else ret (Return (http.in_buffer copied, b_idsIndex b, resp))
            end
      end
  end.

(** func (c *Client) doRequests(ctx, requests []Requester)
      (data []byte, idsIndex map[uint64]int, resp *http.Response, err error).
    The client is returned as the call leaves it. *)
Definition doRequests (c : Client) (ctx : Context) (requests : list Requester)
  : M (Client * outcome (Payload * gmap N nat * http.Response)) :=
  ob <- prepare c ctx requests ;;
  match ob with
  | Raise err => ret (set_incrementID c 0, Raise err)
  | Panic msg => ret (set_incrementID c 0, Panic msg)
  | Return b =>
      r <- exchange b ;;
      ret (b_client b, r)
  end.

(** func (c *Client) RawExecuteWithContext(ctx, requests ...Requester) *)
Definition RawExecuteWithContext (c : Client) (ctx : Context)
    (requests : list Requester) :=
  doRequests c ctx requests.

(** func (c *Client) RawExecute(requests ...Requester) *)
Definition RawExecute (c : Client) (requests : list Requester) :=
  RawExecuteWithContext c [] requests.

(** The body of  for _, response := range responses { ... }  in
    ExecuteWithContext: the results afterwards, or the error returned. *)
Definition correlate_one (c : Client) (requests : list Requester)
    (idsIndex : gmap N nat) (resp : http.Response) (response : clientResp)
    (results : list any) : M (outcome (list any)) :=
  let i := default 0 (idsIndex !! cresp_ID response) in
  match cresp_Error response with
  | Some e =>
      match set_index results i
              (AnyError {| code := cerr_Code e; message := cerr_Message e;
                           data := cerr_Data e |}) with
      | Some results' => ret (Return results')
      | None => ret (Panic "index out of range")
      end
  | None =>
      _ <- run_after (after (opts c)) resp (cresp_Result response) ;;
      match requests !! i with
      | None => ret (Panic "index out of range")
      | Some request =>
          _ <- run_after (After request) resp (cresp_Result response) ;;
          match MakeResult request (cresp_Result response) with
          | Fail err => ret (Raise err)
          | Ok result =>
              match set_index results i result with
              | Some results' => ret (Return results')
              | None => ret (Panic "index out of range")
              end
          end
      end
  end.

Fixpoint correlate (c : Client) (requests : list Requester)
    (idsIndex : gmap N nat) (resp : http.Response) (responses : list clientResp)
    (results : list any) : M (outcome (list any)) :=
  match responses with
  | [] => ret (Return results)
  | response :: rest =>
      o <- correlate_one c requests idsIndex resp response results ;;
      match o with
      | Return results' => correlate c requests idsIndex resp rest results'
      | Raise err => ret (Raise err)
      | Panic msg => ret (Panic msg)
      end
  end.

(** What ExecuteWithContext does with the outcome of doRequests. *)
Definition decode_and_correlate (c : Client) (requests : list Requester)
    (data : Payload) (idsIndex : gmap N nat) (resp : http.Response)
  : M (outcome BatchResult) :=
  let responses := replicate (length requests) zero_clientResp in
  let '(responses, err) := unmarshal_responses data responses in
  match err with
  | Some err => ret (Raise err)
  | None =>
      o <- correlate c requests idsIndex resp responses
             (replicate (length requests) AnyNil) ;;
      match o with
      | Return results => ret (Return {| results := results |})
      | Raise err => ret (Raise err)
      | Panic msg => ret (Panic msg)
      end
  end.

(** func (c *Client) ExecuteWithContext(ctx, requests ...Requester): *BatchResult, error *)
Definition ExecuteWithContext (c : Client) (ctx : Context)
    (requests : list Requester) : M (Client * outcome BatchResult) :=
  dr <- doRequests c ctx requests ;;
  match snd dr with
  | Raise err => ret (fst dr, Raise err)
  | Panic msg => ret (fst dr, Panic msg)
  | Return (data, idsIndex, resp) =>
      br <- decode_and_correlate (fst dr) requests data idsIndex resp ;;
      ret (fst dr, br)
  end.

(** func (c *Client) Execute(requests ...Requester): *BatchResult, error *)
Definition Execute (c : Client) (requests : list Requester)
  : M (Client * outcome BatchResult) :=
  ExecuteWithContext c [] requests.

(** func NewClient(target string, opts ...ClientOption) *Client *)
Definition NewClient (target : string) (options : list ClientOption) : Client :=
  let o := fold_left (fun o opt => opt o) options
             {| ctx := None; before := []; after := []; httpClient := None |} in
  let o := match httpClient o with
           | Some _ => o
           | None => {| ctx := ctx o; before := before o; after := after o;
                        httpClient := Some DefaultClient |}
           end in
  {| target := target; incrementID := 0; opts := o |}.

End Engine.

End Client.

(* ================================================================== *)
(** * The client of the earlier version (src/error.go) *)
(* ================================================================== *)

(** The earlier version of the client has the same types, options and
    wire structures. Its doRequests takes no context, and its Execute has
    no branch for the error member of a response. *)
Module OldClient.

Local Open Scope go_scope.

Section Engine.

Variable url_Parse : string -> option goerror.
Variable DefaultClient : Client.HTTPClient.

(** The first part of doRequests(requests []requester): the request keeps
    the background context of http.NewRequest; the two loops are those of
    the later version. *)
Definition prepare (c : Client.Client) (requests : list Client.Requester)
  : M (outcome Client.building) :=
  let c := Client.set_incrementID c 0 in
  match Client.NewRequest url_Parse "POST" (Client.target c) with
  | Fail err => ret (Raise err)
  | Ok req =>
      let idsIndex : gmap N nat := ∅ in
      let rpcRequests := replicate (length requests) Client.zero_clientReq in
      req <- Client.run_before (Client.before (Client.opts c)) req ;;
      Client.build_requests 0 requests
        {| Client.b_client := c; Client.b_req := req; Client.b_idsIndex := idsIndex;
           Client.b_rpcRequests := rpcRequests |}
  end.

(** func (c *Client) doRequests(requests []requester)
      (data []byte, idsIndex map[uint64]int, resp *http.Response, err error) *)
Definition doRequests (c : Client.Client) (requests : list Client.Requester)
  : M (Client.Client * outcome (Payload * gmap N nat * http.Response)) :=
  ob <- prepare c requests ;;
  match ob with
  | Raise err => ret (Client.set_incrementID c 0, Raise err)
  | Panic msg => ret (Client.set_incrementID c 0, Panic msg)
  | Return b =>
      r <- Client.exchange DefaultClient b ;;
      ret (Client.b_client b, r)
  end.

(** func (c *Client) RawExecute(requests ...requester) *)
Definition RawExecute (c : Client.Client) (requests : list Client.Requester) :=
  doRequests c requests.

(** The body of  for _, response := range responses { ... }  in Execute. *)
Definition correlate_one (c : Client.Client) (requests : list Client.Requester)
    (idsIndex : gmap N nat) (resp : http.Response) (response : Client.clientResp)
    (results : list any) : M (outcome (list any)) :=
  _ <- Client.run_after (Client.after (Client.opts c)) resp (Client.cresp_Result response) ;;
  let i := default 0 (idsIndex !! Client.cresp_ID response) in
  match requests !! i with
  | None => ret (Panic "index out of range")
  | Some request =>
      _ <- Client.run_after (Client.After request) resp (Client.cresp_Result response) ;;
      match Client.MakeResult request (Client.cresp_Result response) with
      | Fail err => ret (Raise err)
      | Ok result =>
          match Client.set_index results i result with
          | Some results' => ret (Return results')
          | None => ret (Panic "index out of range")
          end
      end
  end.

Fixpoint correlate (c : Client.Client) (requests : list Client.Requester)
    (idsIndex : gmap N nat) (resp : http.Response) (responses : list Client.clientResp)
    (results : list any) : M (outcome (list any)) :=
  match responses with
  | [] => ret (Return results)
  | response :: rest =>
      o <- correlate_one c requests idsIndex resp response results ;;
      match o with
      | Return results' => correlate c requests idsIndex resp rest results'
      | Raise err => ret (Raise err)
      | Panic msg => ret (Panic msg)
      end
  end.

(** func (c *Client) Execute(requests ...requester): *BatchResult, error *)
Definition Execute (c : Client.Client) (requests : list Client.Requester)
  : M (Client.Client * outcome Client.BatchResult) :=
  dr <- doRequests c requests ;;
  match snd dr with
  | Raise err => ret (fst dr, Raise err)
  | Panic msg => ret (fst dr, Panic msg)
  | Return (data, idsIndex, resp) =>
      let responses := replicate (length requests) Client.zero_clientResp in
      let '(responses, err) := Client.unmarshal_responses data responses in
      match err with
      | Some err => ret (fst dr, Raise err)
      | None =>
          o <- correlate (fst dr) requests idsIndex resp responses
                 (replicate (length requests) AnyNil) ;;
          match o with
          | Return results => ret (fst dr, Return {| Client.results := results |})
          | Raise err => ret (fst dr, Raise err)
          | Panic msg => ret (fst dr, Panic msg)
          end
      end
  end.

End Engine.

End OldClient.

(* ================================================================== *)
(** * A client talking to a server, and sample handlers *)
(* ================================================================== *)

Module Loop.


(** A transport that answers every request with the same body. *)
Definition canned (body : JSON) : Client.HTTPClient :=
  fun req w =>
    (Ok {| http.StatusCode := 200; http.Status := "200 OK";
           http.RespBody := Ok {| http.written := 256; http.in_buffer := Value body |};
           http.Req := req |}, w).

(** A middleware that does something to the world before it calls the
    next endpoint and something after the call has returned, and passes
    the result on. *)
Definition around (enter leave : World -> World) : EndpointMiddlewareFunc :=
  fun next ctx request w =>
    let '(r, w') := next ctx request (enter w) in
    (r, leave w').

(** A middleware that writes to the log when the call enters and when it
    leaves. *)
Definition tracer (name : string) : EndpointMiddlewareFunc :=
  around (fun w => w ++ ["enter " +:+ name]) (fun w => w ++ ["exit " +:+ name]).

(** A middleware that refuses every call and never calls the next
    endpoint. *)
Definition deny (why : string) : EndpointMiddlewareFunc :=
  fun next ctx request w => (Fail (ErrText why), w ++ ["denied"]).

(** Endpoints: one that returns its request, one that adds two numbers,
    one that fails with an error that has a code and data of its own. *)
Definition echo : Endpoint :=
  fun ctx request w => (Ok request, w ++ ["echo"]).

Definition add : Endpoint :=
  fun ctx request w =>
    match request with
    | AnyJSON (JArr [JNum a; JNum b]) => (Ok (AnyJSON (JNum (a + b))), w)
    | _ => (Fail (ErrText "add: two numbers expected"), w)
    end.

Definition teapot : Error :=
  {| code := 418; message := "short and stout"; data := JStr "spout" |}.

Definition failing : Endpoint :=
  fun ctx request w => (Fail (ErrRPC teapot), w).

(** A request decoder that passes the parameters on as they are. *)
Definition params_as_value : Server.ReqDecode :=
  fun ctx r params w =>
    (Ok (match params with Some j => AnyJSON j | None => AnyNil end), w).

(** A typed request whose result is the JSON of the response. *)
Definition call (method : string) (params : JSON) : Client.Requester :=
  {| Client.MakeRequest := (method, AnyJSON params);
     Client.MakeResult := fun raw =>
       Ok (match raw with Some j => AnyJSON j | None => AnyNil end);
     Client.Before := []; Client.After := []; Client.Context_ := None |}.

(** A typed request that accepts only a string as its result. *)
Definition call_string (method : string) (params : JSON) : Client.Requester :=
  {| Client.MakeRequest := (method, AnyJSON params);
     Client.MakeResult := fun raw =>
       match raw with
       | Some (JStr s) => Ok (AnyJSON (JStr s))
       | _ => Fail (ErrText "a string was expected")
       end;
     Client.Before := []; Client.After := []; Client.Context_ := None |}.

Definition url_ok (url : string) : option goerror := None.

Definition no_transport : Client.HTTPClient :=
  fun req w => (Fail (ErrText "no transport"), w).

Definition client_of (t : Client.HTTPClient) : Client.Client :=
  Client.NewClient no_transport "http://localhost/rpc" [Client.WithHTTPClient t].

Definition post (body : Payload) : http.Request :=
  {| http.Method := "POST"; http.URL := "/rpc"; http.Ctx := []; http.Body := body |}.

(** A server with the method add only. *)
Definition calculator : Server.Server :=
  Server.Register (Server.NewServer []) "add" add params_as_value [].

(** A server whose method fail returns [teapot]. *)
Definition kitchen : Server.Server :=
  Server.Register (Server.NewServer []) "fail" failing params_as_value [].

(** A server built with three server-wide middleware, given one option at
    a time, and two methods that each add a middleware of their own. *)
Definition traced_base : Server.Server :=
  Server.NewServer [Server.EndpointMiddleware [tracer "a"];
                    Server.EndpointMiddleware [tracer "b"];
                    Server.EndpointMiddleware [tracer "c"]].

Definition traced_x : Server.Server :=
  Server.Register traced_base "x" echo params_as_value
    [Server.EndpointMiddleware [tracer "m1"]].

Definition traced_xy : Server.Server :=
  Server.Register traced_x "y" echo params_as_value
    [Server.EndpointMiddleware [tracer "m2"]].

(** A server built with the same three middleware given in one option, so
    that the array behind them is full, and the method x on it. *)
Definition full_base : Server.Server :=
  Server.NewServer [Server.EndpointMiddleware [tracer "a"; tracer "b"; tracer "c"]].

Definition full_x : Server.Server :=
  Server.Register full_base "x" echo params_as_value
    [Server.EndpointMiddleware [tracer "m1"]].

Definition request_object (id : Z) (method : string) (params : JSON) : JSON :=
  JObj [("jsonrpc", JStr "2.0"); ("id", JNum id); ("method", JStr method);
        ("params", params)].

(** Bodies: a batch of an addition and of a call to a method nobody
    registered; a single call; an array whose element is not a request;
    the empty body. *)
Definition add_and_bogus : list JSON :=
  [request_object 1 "add" (JArr [JNum 2; JNum 3]); request_object 2 "bogus" (JArr [])].

Definition single_add : JSON := request_object 1 "add" (JArr [JNum 20; JNum 22]).

Definition array_of_a_number : JSON := JArr [JNum 1].

Definition empty_body : Payload := Malformed "EOF".


(** A before hook that adds a value to the context and leaves a line in
    the log. *)
Definition stamp (key value : string) : Client.ClientBeforeFunc :=
  fun ctx req w => ((key, value) :: ctx, w ++ ["before " +:+ key]).

(** An after hook that leaves a line in the log. *)
Definition seen (name : string) : Client.ClientAfterFunc :=
  fun ctx resp raw w => (ctx, w ++ ["after " +:+ name]).

(** A request as [call], with hooks and possibly a context of its own. *)
Definition call_with (method : string) (bs : list Client.ClientBeforeFunc)
    (fs : list Client.ClientAfterFunc) (c : option Context) : Client.Requester :=
  {| Client.MakeRequest := (method, AnyJSON JNull);
     Client.MakeResult := fun raw =>
       Ok (match raw with Some j => AnyJSON j | None => AnyNil end);
     Client.Before := bs; Client.After := fs; Client.Context_ := c |}.

(** A client with the transport [t] and hooks of its own. *)
Definition client_with (t : Client.HTTPClient) (bs : list Client.ClientBeforeFunc)
    (fs : list Client.ClientAfterFunc) : Client.Client :=
  Client.NewClient no_transport "http://localhost/rpc"
    [Client.WithHTTPClient t; Client.BeforeRequest bs; Client.AfterRequest fs].

(** An envelope as a server writes it, with a result. *)
Definition result_envelope (id : Z) (result : JSON) : JSON :=
  JObj [("id", JNum id); ("jsonrpc", JStr "2.0"); ("result", result)].

End Loop.

(* ================================================================== *)
(** * The middleware chain *)
(* ================================================================== *)

Section Chain.

Implicit Types (ms others : list EndpointMiddlewareFunc) (next : Endpoint).

(** The loop that runs from the last of the others down to the first
    wraps [next] in the first [n] of them, the first one outermost. *)
Lemma wrap_others_take others : ∀ n next,
  n ≤ length others →
  wrap_others others n next = foldr (λ mw e, mw e) next (take n others).
Proof.
  induction n as [|i IH]; intros next Hn; cbn [wrap_others].
  - done.
  - destruct (others !! i) as [mw|] eqn:Hmw.
    + rewrite IH by lia.
      erewrite take_S_r by exact Hmw. by rewrite foldr_app.
    + apply lookup_ge_None in Hmw. lia.
Qed.

Lemma wrap_others_all others next :
  wrap_others others (length others) next = foldr (λ mw e, mw e) next others.
Proof. rewrite wrap_others_take by done. by rewrite firstn_all. Qed.

(** The chain is the right fold of application: the head of the list is
    applied last, and so wraps all the others. *)
Lemma middlewareChain_foldr ms next :
  middlewareChain ms next = foldr (λ mw e, mw e) next ms.
Proof.
  destruct ms as [|outer others]; simpl; [done|].
  by rewrite wrap_others_all.
Qed.

Lemma middlewareChain_app ms1 ms2 next :
  middlewareChain (ms1 ++ ms2) next = middlewareChain ms1 (middlewareChain ms2 next).
Proof. by rewrite !middlewareChain_foldr, foldr_app. Qed.

(** A call through a middleware that acts around the next endpoint. *)
Lemma around_run enter leave next ctx request w :
  Loop.around enter leave next ctx request w =
    (fst (next ctx request (enter w)), leave (snd (next ctx request (enter w)))).
Proof. unfold Loop.around. by destruct (next _ _ _). Qed.

(** A chain of any number of logging middleware: the log shows the call
    entering them in the order of the list, then the endpoint, then the
    call leaving them in the reverse order. *)
Lemma chain_of_tracers names : ∀ (E : Endpoint) ctx request w,
  middlewareChain (map Loop.tracer names) E ctx request w =
    (fst (E ctx request (w ++ map (λ n, "enter " +:+ n) names)),
     snd (E ctx request (w ++ map (λ n, "enter " +:+ n) names))
       ++ map (λ n, "exit " +:+ n) (rev names)).
Proof.
  induction names as [|name names IH]; intros E ctx request w.
  - cbn. rewrite !app_nil_r. by destruct (E ctx request w).
  - rewrite middlewareChain_foldr. cbn [map foldr].
    rewrite <- middlewareChain_foldr. unfold Loop.tracer at 1.
    rewrite around_run, IH. cbn [fst snd rev].
    rewrite map_app. cbn [map].
    by rewrite <- !(assoc_L (++)).
Qed.

(** C2. For every list of three middleware A, B, C and every endpoint E the
    composed endpoint is A (B (C E)): the first element of the list is the
    outermost wrapper. When each of the three acts on entry and on exit
    around the call of the next endpoint, a call runs the entry of A, of B
    and of C in this order, then E, then the exit of C, of B and of A in
    this order, and returns the result of E; in particular, with middleware
    that log, the log reads enter a, enter b, enter c, what E logs, exit c,
    exit b, exit a. For the empty list the composer returns the endpoint it
    was given. *)
Theorem C2_middleware_order :
  (∀ (A B C : EndpointMiddlewareFunc) (E : Endpoint),
     middlewareChain [A; B; C] E = A (B (C E))) ∧
  (∀ (enterA leaveA enterB leaveB enterC leaveC : World → World)
     (E : Endpoint) ctx request w,
     let inner := E ctx request (enterC (enterB (enterA w))) in
     middlewareChain [Loop.around enterA leaveA; Loop.around enterB leaveB;
                      Loop.around enterC leaveC] E ctx request w =
       (fst inner, leaveA (leaveB (leaveC (snd inner))))) ∧
  (∀ (a b c : string) (E : Endpoint) ctx request w,
     let inner := E ctx request (w ++ ["enter " +:+ a; "enter " +:+ b; "enter " +:+ c]) in
     middlewareChain [Loop.tracer a; Loop.tracer b; Loop.tracer c] E ctx request w =
       (fst inner, snd inner ++ ["exit " +:+ c; "exit " +:+ b; "exit " +:+ a])) ∧
  (∀ E : Endpoint, middlewareChain [] E = E).
Proof.
  split; [|split; [|split]].
  - intros A B C E. by rewrite middlewareChain_foldr.
  - intros enterA leaveA enterB leaveB enterC leaveC E ctx request w. cbv zeta.
    rewrite middlewareChain_foldr. cbn [foldr].
    by rewrite !around_run.
  - intros a b c E ctx request w. cbv zeta.
    exact (chain_of_tracers [a; b; c] E ctx request w).
  - done.
Qed.

(** The same call with an endpoint that logs too: the whole sequence. *)
Example chain_trace :
  snd (middlewareChain [Loop.tracer "A"; Loop.tracer "B"; Loop.tracer "C"]
         Loop.echo [] AnyNil []) =
    ["enter A"; "enter B"; "enter C"; "echo"; "exit C"; "exit B"; "exit A"].
Proof. reflexivity. Qed.

End Chain.

(* ================================================================== *)
(** * The server: dispatch and framing *)
(* ================================================================== *)

(** Unfolding the monad in a goal or in a hypothesis. *)
Ltac run_monad := unfold bind, ret in *; cbn [fst snd] in *.

Section Dispatch.

Variables (s : Server.Server) (ctx : Context) (w : http.ResponseWriter)
          (r : http.Request).

Implicit Types (req : Server.jsonRPCRequest) (reqs : list Server.jsonRPCRequest)
               (responses acc : list Server.jsonRPCResponse) (world : World).

(** Every response carries the id of the request it answers. *)
Lemma serve_request_ID req world :
  Server.resp_ID (fst (Server.serve_request s ctx w r req world)) = Server.req_ID req.
Proof.
  unfold Server.serve_request.
  destruct (Server.methods s !! Server.req_Method req) as [method|]; [|done].
  run_monad.
  destruct (Server.handleMethod s method ctx w r (Server.req_Params req) world)
    as [[resp|err] world']; [|done].
  by destruct (json.Marshal resp).
Qed.

(** A request for a method that is not registered is answered without
    anything being run. *)
Lemma serve_request_unknown req world :
  Server.methods s !! Server.req_Method req = None →
  Server.serve_request s ctx w r req world =
    (Server.makeErrorResponse (Server.req_ID req) (-32601)
       ("method " +:+ Server.req_Method req +:+ " not found"), world).
Proof. intros H. unfold Server.serve_request. by rewrite H. Qed.

(** The loop appends to the responses it starts with. *)
Lemma serve_requests_acc reqs : ∀ acc world,
  Server.serve_requests s ctx w r reqs acc world =
    (acc ++ fst (Server.serve_requests s ctx w r reqs [] world),
     snd (Server.serve_requests s ctx w r reqs [] world)).
Proof.
  induction reqs as [|req reqs IH]; intros acc world; cbn [Server.serve_requests].
  - run_monad. by rewrite app_nil_r.
  - run_monad.
    destruct (Server.serve_request s ctx w r req world) as [resp world1].
    rewrite (IH (acc ++ [resp])), (IH ([] ++ [resp])). cbn [fst snd].
    by rewrite <- (assoc_L (++)).
Qed.

Lemma serve_requests_cons req reqs world :
  Server.serve_requests s ctx w r (req :: reqs) [] world =
    let '(resp, world1) := Server.serve_request s ctx w r req world in
    (resp :: fst (Server.serve_requests s ctx w r reqs [] world1),
     snd (Server.serve_requests s ctx w r reqs [] world1)).
Proof.
  cbn [Server.serve_requests]. run_monad.
  destruct (Server.serve_request s ctx w r req world) as [resp world1].
  by rewrite serve_requests_acc.
Qed.

(** One response for each request. *)
Lemma serve_requests_length reqs : ∀ world,
  length (fst (Server.serve_requests s ctx w r reqs [] world)) = length reqs.
Proof.
  induction reqs as [|req reqs IH]; intros world; [done|].
  rewrite serve_requests_cons.
  destruct (Server.serve_request s ctx w r req world) as [resp world1].
  cbn [fst length]. by rewrite IH.
Qed.

(** The response at position [i] is the one made for the request at
    position [i], in the world that the requests before it have left. *)
Lemma serve_requests_lookup reqs : ∀ i req world,
  reqs !! i = Some req →
  fst (Server.serve_requests s ctx w r reqs [] world) !! i =
    Some (fst (Server.serve_request s ctx w r req
                 (snd (Server.serve_requests s ctx w r (take i reqs) [] world)))).
Proof.
  induction reqs as [|req0 reqs IH]; intros i req world Hi; [done|].
  rewrite serve_requests_cons.
  destruct i as [|i]; cbn in Hi.
  - injection Hi as ->. cbn [take Server.serve_requests]. run_monad.
    by destruct (Server.serve_request s ctx w r req world).
  - cbn [take]. rewrite serve_requests_cons.
    destruct (Server.serve_request s ctx w r req0 world) as [resp0 world1].
    cbn [fst snd]. rewrite lookup_cons. by apply IH.
Qed.

(** Leaving the requests for unknown methods out of a batch changes
    neither the responses to the other requests nor what the handlers do
    to the world. *)
Lemma unknown_methods_do_not_disturb reqs : ∀ world,
  let known := λ req, is_Some (Server.methods s !! Server.req_Method req) in
  Server.serve_requests s ctx w r (filter known reqs) [] world =
    (snd <$> filter (λ p, known (fst p))
               (zip reqs (fst (Server.serve_requests s ctx w r reqs [] world))),
     snd (Server.serve_requests s ctx w r reqs [] world)).
Proof.
  intros world known. revert world.
  induction reqs as [|req reqs IH]; intros world; [done|].
  rewrite (serve_requests_cons req reqs).
  destruct (decide (known req)) as [Hk|Hk].
  - rewrite filter_cons_True by done. rewrite serve_requests_cons.
    destruct (Server.serve_request s ctx w r req world) as [resp world1].
    cbn [fst snd zip zip_with]. rewrite filter_cons_True by done.
    rewrite IH. done.
  - rewrite filter_cons_False by done.
    assert (Server.methods s !! Server.req_Method req = None) as Hnone.
    { destruct (Server.methods s !! Server.req_Method req) eqn:E; [|done].
      exfalso. apply Hk. unfold known. by rewrite E. }
    rewrite (serve_request_unknown _ _ Hnone).
    cbn [fst snd zip zip_with]. rewrite filter_cons_False by done.
    apply IH.
Qed.

End Dispatch.

Section ServeHTTP.

Variables (s : Server.Server) (w : http.ResponseWriter) (r : http.Request).

(** ServeHTTP on a body that is a JSON array. *)
Lemma ServeHTTP_array elems world :
  http.Body r = Value (JArr elems) →
  ∃ responses world',
    Server.ServeHTTP s w r world = (Return (Server.Batch responses), world') ∧
    match Server.unmarshal_requests (JArr elems) [] with
    | (reqs, None) =>
        (responses, world') = Server.serve_requests s (http.Ctx r) w r reqs [] world
    | (_, Some e) =>
        responses = [Server.makeErrorResponse JNull (-32700) (error_text e)] ∧
        world' = world
    end.
Proof.
  intros Hbody. unfold Server.ServeHTTP, Server.dispatch, Server.Decode.
  rewrite Hbody. unfold Server.UnmarshalJSON. cbn [Server.HasPrefix_bracket].
  cbn [Server.zero_requestData Server.requests].
  destruct (Server.unmarshal_requests (JArr elems) []) as [reqs [e|]]; run_monad.
  - eexists _, _. split; [reflexivity|]. done.
  - cbn [Server.requests].
    destruct (Server.serve_requests s (http.Ctx r) w r reqs [] world) as [responses world'].
    eexists _, _. split; [reflexivity|]. done.
Qed.

(** ServeHTTP on a body that is a JSON value other than an array. *)
Lemma ServeHTTP_single b world :
  http.Body r = Value b →
  Server.HasPrefix_bracket b = false →
  ∃ response world',
    Server.ServeHTTP s w r world = (Return (Server.Single response), world') ∧
    match Server.unmarshal_request b Server.zero_request with
    | (req, None) =>
        (response, world') = Server.serve_request s (http.Ctx r) w r req world
    | (_, Some e) =>
        response = Server.makeErrorResponse JNull (-32700) (error_text e) ∧
        world' = world
    end.
Proof.
  intros Hbody Hb. unfold Server.ServeHTTP, Server.dispatch, Server.Decode.
  rewrite Hbody. unfold Server.UnmarshalJSON. rewrite Hb.
  destruct (Server.unmarshal_request b Server.zero_request) as [req [e|]]; run_monad.
  - eexists _, _. split; [reflexivity|]. done.
  - cbn [Server.zero_requestData Server.requests Server.isBatch app].
    cbn [Server.serve_requests]. run_monad.
    destruct (Server.serve_request s (http.Ctx r) w r req world) as [response world'].
    eexists _, _. split; [reflexivity|]. done.
Qed.

(** ServeHTTP on a body that is not JSON. *)
Lemma ServeHTTP_malformed why world :
  http.Body r = Malformed why →
  Server.ServeHTTP s w r world =
    (Return (Server.Single (Server.makeErrorResponse JNull (-32700) why)), world).
Proof.
  intros Hbody. unfold Server.ServeHTTP, Server.dispatch, Server.Decode.
  by rewrite Hbody.
Qed.

End ServeHTTP.

Section Framing.

Variables (s : Server.Server) (w : http.ResponseWriter) (r : http.Request).

(** The framing of the answer follows the framing of the body. When the
    body is a JSON array, ServeHTTP hands the slice of responses to the
    encoder, which writes an array unless the slice is nil; when the
    elements decode, there is one envelope for each request, at the
    position of the request, carrying the id of the request, and made in
    the order of the array. When the body is a JSON value that is not an
    array, ServeHTTP emits one envelope, as an object and not as an array
    of one element; when the value decodes, it is the envelope made for
    this request. *)
Lemma framing_follows_request (world : World) :
  (∀ elems, http.Body r = Value (JArr elems) →
     ∃ responses world',
       Server.ServeHTTP s w r world = (Return (Server.Batch responses), world') ∧
       (responses ≠ [] →
        Server.encode_emitted (Server.Batch responses) =
          JArr (map Server.encode_response responses)) ∧
       ∀ reqs, Server.unmarshal_requests (JArr elems) [] = (reqs, None) →
         length responses = length reqs ∧
         ∀ i req, reqs !! i = Some req →
           ∃ resp, responses !! i = Some resp ∧
             Server.resp_ID resp = Server.req_ID req ∧
             resp = fst (Server.serve_request s (http.Ctx r) w r req
                      (snd (Server.serve_requests s (http.Ctx r) w r
                              (take i reqs) [] world)))) ∧
  (∀ b, http.Body r = Value b → Server.HasPrefix_bracket b = false →
     ∃ response world' members,
       Server.ServeHTTP s w r world = (Return (Server.Single response), world') ∧
       Server.encode_emitted (Server.Single response) = JObj members ∧
       ∀ req, Server.unmarshal_request b Server.zero_request = (req, None) →
         (response, world') = Server.serve_request s (http.Ctx r) w r req world ∧
         Server.resp_ID response = Server.req_ID req).
Proof.
  split.
  - intros elems Hbody.
    destruct (ServeHTTP_array s w r elems world Hbody) as (responses & world' & Hrun & Hdec).
    exists responses, world'. split; [done|]. split; [by destruct responses|].
    intros reqs Hreqs. rewrite Hreqs in Hdec.
    assert (responses = fst (Server.serve_requests s (http.Ctx r) w r reqs [] world))
      as -> by (by rewrite <- Hdec).
    split; [apply serve_requests_length|].
    intros i req Hi. eexists. split; [by apply serve_requests_lookup|].
    split; [apply serve_request_ID|done].
  - intros b Hbody Hb.
    destruct (ServeHTTP_single s w r b world Hbody Hb) as (response & world' & Hrun & Hdec).
    exists response, world'. eexists. split; [done|]. split; [reflexivity|].
    intros req Hreq. rewrite Hreq in Hdec. split; [done|].
    replace response with (fst (Server.serve_request s (http.Ctx r) w r req world))
      by (by rewrite <- Hdec).
    apply serve_request_ID.
Qed.

(** C4 on the body that is the empty array. The body is a batch and it
    decodes, to no request; no response is appended, and the slice of
    responses that ServeHTTP hands to the encoder is still nil: what is
    written is null, not an array. *)
Theorem C4_empty_batch_answered_with_null (world : World) :
  let empty_batch := Loop.post (Value (JArr [])) in
  Server.Decode (http.Body empty_batch) Server.zero_requestData =
    ({| Server.requests := []; Server.isBatch := true |}, None) ∧
  Server.ServeHTTP s w empty_batch world = (Return (Server.Batch []), world) ∧
  Server.encode_emitted (Server.Batch []) = JNull.
Proof. done. Qed.

(** The id of a decoded request comes from the last member of the object
    whose key is id, through the [any] that holds it. *)
Lemma object_app {A} (field : string → JSON → A → A * json.saved) l1 l2 : ∀ a e,
  json.object field (l1 ++ l2) a e =
    let '(a1, e1) := json.object field l1 a e in
    json.object field l2 a1 e1.
Proof.
  induction l1 as [|[k v] l1 IH]; intros a e; [done|].
  cbn [app json.object]. destruct (field k v a) as [a' e']. apply IH.
Qed.

Lemma request_id_kept members : ∀ req e,
  Forall (λ kv, json.is_field "id" (fst kv) = false) members →
  Server.req_ID (fst (json.object Server.request_field members req e)) =
    Server.req_ID req.
Proof.
  induction members as [|[k v] members IH]; intros req e Hall; [done|].
  apply Forall_cons in Hall as [Hid Hall]. cbn [fst] in Hid.
  cbn [json.object]. unfold Server.request_field at 1. rewrite Hid.
  destruct (json.is_field "jsonrpc" k).
  { destruct (json.store_string v _) as [str e']. by rewrite IH. }
  destruct (json.is_field "method" k).
  { destruct (json.store_string v _) as [str e']. by rewrite IH. }
  destruct (json.is_field "params" k); by rewrite IH.
Qed.

Lemma request_id_of_member before k v later req e :
  json.is_field "id" k = true →
  Forall (λ kv, json.is_field "id" (fst kv) = false) later →
  Server.req_ID (fst (json.object Server.request_field (before ++ (k, v) :: later) req e)) =
    fst (json.store_any v).
Proof.
  intros Hid Hlater. rewrite object_app.
  destruct (json.object Server.request_field before req e) as [req1 e1].
  cbn [json.object]. unfold Server.request_field at 1. rewrite Hid.
  destruct (json.store_any v) as [id e2]. by rewrite request_id_kept.
Qed.

(** Decoding an array gives one element of the slice for each element of
    the array, whether the elements decode or not. *)
Lemma array_length {A} (elem : JSON → A → A * json.saved) (zero : A) elems : ∀ e,
  length (fst (json.array elem zero elems e)) = length elems.
Proof.
  induction elems as [|v elems IH]; intros e; [done|].
  cbn [json.array]. destruct (elem v zero) as [a e'].
  specialize (IH (json.saveError e e')).
  destruct (json.array elem zero elems (json.saveError e e')) as [l e''].
  cbn [fst length] in *. by rewrite IH.
Qed.

Lemma array_lookup {A} (elem : JSON → A → A * json.saved) (zero : A) elems : ∀ e i v,
  elems !! i = Some v →
  fst (json.array elem zero elems e) !! i = Some (fst (elem v zero)).
Proof.
  induction elems as [|v0 elems IH]; intros e i v Hi; [done|].
  cbn [json.array]. destruct (elem v0 zero) as [a e'] eqn:Ha.
  specialize (IH (json.saveError e e')).
  destruct (json.array elem zero elems (json.saveError e e')) as [l e''].
  destruct i as [|i]; cbn in Hi |- *.
  - injection Hi as <-. by rewrite Ha.
  - by apply IH.
Qed.

(** An integer below 2^53, a string, a truth value and null are held in
    an [any] as they are. *)
Lemma store_any_exact v :
  match v with
  | JNull | JBool _ | JStr _ => True
  | JNum n => (Z.abs n < 2 ^ 53)%Z
  | _ => False
  end →
  json.store_any v = (v, None).
Proof.
  destruct v as [|b|n|lit|str|elems|members]; try done.
  intros Hn. cbn [json.store_any]. unfold json.store_number.
  by rewrite (proj2 (Z.ltb_lt _ _) Hn).
Qed.

(** Other numbers are rounded to a float64 and written as the float64
    is: the digits that tell it from its neighbours, then zeros; an
    exponent from 1e21 on and below 1e-6. A number beyond the range is an
    error, and leaves nil. The members of an object come out in the order
    of their keys, the last one of a key only. *)
Example numbers_in_an_any :
  fst <$> [json.store_any (JNum 9007199254740993);
           json.store_any (JNum 9223372036854775807);
           json.store_any (JNum (10 ^ 21));
           json.store_any (JFrac "1.50");
           json.store_any (JFrac "1E2");
           json.store_any (JFrac "0.0000001");
           json.store_any (JFrac "-0");
           json.store_any (JFrac "1e400")] =
  [JNum 9007199254740992; JNum 9223372036854776000; JFrac "1e+21"; JFrac "1.5";
   JNum 100; JFrac "1e-7"; JFrac "-0"; JNull] ∧
  snd (json.store_any (JFrac "1e400")) =
    Some (ErrText "json: cannot unmarshal number 1e400 into Go value of type float64") ∧
  json.store_any (JObj [("b", JNum 1); ("a", JArr [JFrac "2.0"]); ("b", JNull)]) =
    (JObj [("a", JArr [JNum 2]); ("b", JNull)], None).
Proof. vm_compute. done. Qed.

(** C7, as the code has it. In a batch, an element whose method is not in
    the registry is answered with an error envelope with the code -32601
    and no result, and nothing is run for it; an element whose method is
    registered is answered with what its handler returns: when its before
    hooks, its decoder and its chain succeed, the result that the chain
    has returned, and otherwise an envelope with the code -32603. This
    holds at every position, whatever the other elements of the batch
    are. The envelope carries the id of the element as the [any] of the
    request holds it: null, a string, a truth value and an integer below
    2^53 as they are, and any other number as the float64 it is read
    into. *)
Theorem C7_unknown_method_is_isolated (world : World) elems reqs :
  http.Body r = Value (JArr elems) →
  Server.unmarshal_requests (JArr elems) [] = (reqs, None) →
  ∃ responses world',
    Server.ServeHTTP s w r world = (Return (Server.Batch responses), world') ∧
    length responses = length elems ∧
    (∀ i req, reqs !! i = Some req →
      let reached :=
        snd (Server.serve_requests s (http.Ctx r) w r (take i reqs) [] world) in
      let failure code message :=
        {| Server.resp_ID := Server.req_ID req; Server.resp_Version := "2.0";
           Server.resp_Error :=
             Some {| Server.err_Code := code; Server.err_Message := message;
                     Server.err_Data := JNull |};
           Server.resp_Result := None |} in
      match Server.methods s !! Server.req_Method req with
      | None =>
          responses !! i =
            Some (failure (-32601)%Z
                    ("method " +:+ Server.req_Method req +:+ " not found")) ∧
          snd (Server.serve_request s (http.Ctx r) w r req reached) = reached
      | Some method =>
          (∀ err world1,
             Server.handleMethod s method (http.Ctx r) w r (Server.req_Params req)
               reached = (Fail err, world1) →
             responses !! i = Some (failure (-32603)%Z (error_text err))) ∧
          (∀ ctx1 world1 request world2 response world3,
             Server.run_before (Server.method_before s method) (http.Ctx r) r reached =
               (Ok ctx1, world1) →
             Server.reqDecode method ctx1 r (Server.req_Params req) world1 =
               (Ok request, world2) →
             middlewareChain (Server.method_middleware s method)
               (Server.endpoint method) ctx1 request world2 = (Ok response, world3) →
             responses !! i =
               Some match json.Marshal response with
                    | Ok result =>
                        {| Server.resp_ID := Server.req_ID req;
                           Server.resp_Version := "2.0";
                           Server.resp_Error := None;
                           Server.resp_Result := Some result |}
                    | Fail err => failure (-32603)%Z (error_text err)
                    end)
      end) ∧
    (∀ i before k v later,
       elems !! i = Some (JObj (before ++ (k, v) :: later)) →
       json.is_field "id" k = true →
       Forall (λ kv, json.is_field "id" (fst kv) = false) later →
       ∃ response,
         responses !! i = Some response ∧
         Server.resp_ID response = fst (json.store_any v) ∧
         (match v with
          | JNull | JBool _ | JStr _ => True
          | JNum n => (Z.abs n < 2 ^ 53)%Z
          | _ => False
          end → Server.resp_ID response = v)).
Proof.
  intros Hbody Hreqs.
  destruct (ServeHTTP_array s w r elems world Hbody) as (responses & world' & Hrun & Hdec).
  rewrite Hreqs in Hdec.
  assert (responses = fst (Server.serve_requests s (http.Ctx r) w r reqs [] world))
    as -> by (by rewrite <- Hdec).
  assert (length reqs = length elems) as Hlen.
  { cbn [Server.unmarshal_requests] in Hreqs.
    rewrite <- (array_length Server.unmarshal_request Server.zero_request elems None).
    by rewrite Hreqs. }
  eexists _, world'. split; [done|].
  split; [by rewrite serve_requests_length|]. split.
  - intros i req Hi reached failure.
    rewrite (serve_requests_lookup s (http.Ctx r) w r reqs i req world Hi).
    fold reached.
    destruct (Server.methods s !! Server.req_Method req) as [method|] eqn:Hm.
    + split.
      * intros err world1 Hfail. unfold Server.serve_request. rewrite Hm. run_monad.
        by rewrite Hfail.
      * intros ctx1 world1 request world2 response world3 Hbefore Hdecode Hchain.
        unfold Server.serve_request. rewrite Hm. run_monad.
        unfold Server.handleMethod. run_monad.
        rewrite Hbefore, Hdecode, Hchain.
        destruct (Server.run_after _ ctx1 w world3) as [ctx2 world4]. cbn [fst].
        by destruct (json.Marshal response).
    + by rewrite serve_request_unknown.
  - intros i before k v later Hi Hid Hlater.
    cbn [Server.unmarshal_requests] in Hreqs.
    pose proof (array_lookup Server.unmarshal_request Server.zero_request elems None
                  i _ Hi) as Hreq.
    rewrite Hreqs in Hreq. cbn [fst Server.unmarshal_request] in Hreq.
    eexists. split; [by apply serve_requests_lookup|].
    rewrite serve_request_ID, request_id_of_member by done.
    split; [done|]. intros Hv. by rewrite (store_any_exact v Hv).
Qed.

(** C8, as the code has it. A body that fails to decode is answered with
    one error envelope with the code -32700 and the id null, and nothing is
    run for any element. The envelope is emitted as an object, except when
    the body is a well-formed JSON array (one of whose elements did not
    decode): then it is emitted as an array of one element. *)
Theorem C8_decode_failure (world : World) rd e :
  Server.Decode (http.Body r) Server.zero_requestData = (rd, Some e) →
  let envelope :=
    {| Server.resp_ID := JNull; Server.resp_Version := "2.0";
       Server.resp_Error :=
         Some {| Server.err_Code := -32700; Server.err_Message := error_text e;
                 Server.err_Data := JNull |};
       Server.resp_Result := None |} in
  Server.dispatch s w r world = ((rd, [envelope]), world) ∧
  Server.ServeHTTP s w r world =
    (Return match http.Body r with
            | Value (JArr _) => Server.Batch [envelope]
            | _ => Server.Single envelope
            end, world).
Proof.
  intros Hdec envelope.
  assert (Server.dispatch s w r world = ((rd, [envelope]), world)) as Hd.
  { unfold Server.dispatch. by rewrite Hdec. }
  split; [done|].
  unfold Server.ServeHTTP. run_monad. rewrite Hd. cbn [fst snd].
  unfold Server.respond.
  unfold Server.Decode in Hdec.
  destruct (http.Body r) as [why|b]; [by injection Hdec as <- _|].
  unfold Server.UnmarshalJSON in Hdec.
  destruct (Server.HasPrefix_bracket b) eqn:Hb.
  - destruct (Server.unmarshal_requests b _) as [reqs err].
    injection Hdec as <- _. by destruct b.
  - destruct (Server.unmarshal_request b _) as [req [e'|]]; [|done].
    injection Hdec as <- _. by destruct b.
Qed.

(** C10. ServeHTTP never reads an element that the list of responses does
    not have: whenever the request data is not a batch, also for a body
    that does not decode, the list holds a response when its first element
    is read, and ServeHTTP runs to its end for every body. *)
Theorem C10_first_response_exists (world : World) :
  (∀ rd responses world',
     Server.dispatch s w r world = ((rd, responses), world') →
     Server.isBatch rd = false → length responses = 1) ∧
  (∃ data world', Server.ServeHTTP s w r world = (Return data, world')).
Proof.
  assert (∀ rd responses world',
     Server.dispatch s w r world = ((rd, responses), world') →
     Server.isBatch rd = false → length responses = 1) as Hone.
  { intros rd responses world'. unfold Server.dispatch, Server.Decode.
    destruct (http.Body r) as [why|b].
    - by intros [= <- <- <-].
    - unfold Server.UnmarshalJSON. destruct (Server.HasPrefix_bracket b).
      + destruct (Server.unmarshal_requests b _) as [reqs [e|]]; run_monad.
        * by intros [= <- <- <-].
        * destruct (Server.serve_requests _ _ _ _ _ _ _). by intros [= <- <- <-].
      + destruct (Server.unmarshal_request b _) as [req [e|]]; run_monad.
        * by intros [= <- <- <-].
        * cbn [Server.requests Server.zero_requestData Server.isBatch app].
          pose proof (serve_requests_length s (http.Ctx r) w r [req] world) as Hlen.
          destruct (Server.serve_requests _ _ _ _ _ _ _) as [l world1].
          by intros [= <- <- <-]. }
  split; [exact Hone|].
  unfold Server.ServeHTTP. run_monad.
  destruct (Server.dispatch s w r world) as [[rd responses] world'] eqn:Hd.
  cbn [fst snd]. unfold Server.respond.
  destruct (Server.isBatch rd) eqn:Hb; [by eexists _, _|].
  specialize (Hone _ _ _ eq_refl Hb).
  destruct responses as [|response ?]; [done|]. by eexists _, _.
Qed.

End Framing.

(** A batch of two calls, the second of which names an unknown method, is
    answered with an array of two envelopes. *)
Example batch_of_two_framing :
  ∃ responses world',
    Server.ServeHTTP Loop.calculator http.Writer
      (Loop.post (Value (JArr Loop.add_and_bogus))) [] =
      (Return (Server.Batch responses), world') ∧
    length responses = 2.
Proof.
  destruct (proj1 (framing_follows_request Loop.calculator http.Writer
                     (Loop.post (Value (JArr Loop.add_and_bogus))) [])
              Loop.add_and_bogus eq_refl)
    as (responses & world' & Hrun & _ & Hreqs).
  exists responses, world'. split; [exact Hrun|].
  exact (proj1 (Hreqs _ eq_refl)).
Qed.

(** The example of the specification: a body that is one object is
    answered with one object. *)
Example single_request_single_response :
  Server.encode_emitted <$>
    (match fst (Server.ServeHTTP Loop.calculator http.Writer
                  (Loop.post (Value Loop.single_add)) []) with
     | Return data => Some data
     | _ => None
     end) =
  Some (JObj [("id", JNum 1); ("jsonrpc", JStr "2.0"); ("result", JNum 42)]).
Proof. vm_compute. reflexivity. Qed.

(** The batch of the specification on the calculator: the addition is
    answered with its sum, the unknown method with the code -32601, each
    under its id. *)
Lemma C7_isolation_witness :
  ∃ responses world',
    Server.ServeHTTP Loop.calculator http.Writer
      (Loop.post (Value (JArr Loop.add_and_bogus))) [] =
      (Return (Server.Batch responses), world') ∧
    responses !! 0 =
      Some {| Server.resp_ID := JNum 1; Server.resp_Version := "2.0";
              Server.resp_Error := None; Server.resp_Result := Some (JNum 5) |} ∧
    responses !! 1 =
      Some {| Server.resp_ID := JNum 2; Server.resp_Version := "2.0";
              Server.resp_Error :=
                Some {| Server.err_Code := -32601;
                        Server.err_Message := "method bogus not found";
                        Server.err_Data := JNull |};
              Server.resp_Result := None |}.
Proof.
  destruct (C7_unknown_method_is_isolated Loop.calculator http.Writer
              (Loop.post (Value (JArr Loop.add_and_bogus))) []
              Loop.add_and_bogus _ eq_refl eq_refl)
    as (responses & world' & Hrun & _ & Hat & _).
  exists responses, world'. split; [exact Hrun|]. split.
  - exact (proj2 (Hat 0 _ eq_refl) _ _ _ _ _ _ eq_refl eq_refl eq_refl).
  - exact (proj1 (Hat 1 _ eq_refl)).
Defined.

(** C7 as the specification has it fails on an element whose id is the
    number 2^53 + 1: the id is read into an [any], where it is the float64
    2^53, and the envelope carries 9007199254740992, which is not the id
    of the element. *)
Lemma C7_large_id_is_not_echoed :
  fst (Server.ServeHTTP Loop.calculator http.Writer
         (Loop.post (Value (JArr [Loop.request_object 9007199254740993 "bogus" (JArr [])])))
         []) =
  Return (Server.Batch
    [{| Server.resp_ID := JNum 9007199254740992; Server.resp_Version := "2.0";
        Server.resp_Error :=
          Some {| Server.err_Code := -32601;
                  Server.err_Message := "method bogus not found";
                  Server.err_Data := JNull |};
        Server.resp_Result := None |}]) ∧
  JNum 9007199254740992 ≠ JNum 9007199254740993.
Proof. split; [vm_compute; reflexivity|discriminate]. Qed.

(** The batch of the specification: the addition succeeds, the unknown
    method gets the code -32601. *)
Example add_and_bogus_responses :
  fst (Server.ServeHTTP Loop.calculator http.Writer
         (Loop.post (Value (JArr Loop.add_and_bogus))) []) =
  Return (Server.Batch
    [{| Server.resp_ID := JNum 1; Server.resp_Version := "2.0";
        Server.resp_Error := None; Server.resp_Result := Some (JNum 5) |};
     Server.makeErrorResponse (JNum 2) (-32601) "method bogus not found"]).
Proof. vm_compute. reflexivity. Qed.

Lemma C8_decode_failure_witness :
  Server.ServeHTTP Loop.calculator http.Writer (Loop.post Loop.empty_body) [] =
    (Return (Server.Single
               {| Server.resp_ID := JNull; Server.resp_Version := "2.0";
                  Server.resp_Error :=
                    Some {| Server.err_Code := -32700; Server.err_Message := "EOF";
                            Server.err_Data := JNull |};
                  Server.resp_Result := None |}), []).
Proof.
  exact (proj2 (C8_decode_failure Loop.calculator http.Writer
                  (Loop.post Loop.empty_body) [] _ _ eq_refl)).
Defined.

(** C8 as the specification has it fails on a body that is an array of a
    number: the body does not decode, and the one error envelope, with the
    code -32700 and the id null, is emitted inside an array, not as an
    object. *)
Lemma C8_array_body_answered_with_array :
  ∃ rd e,
    Server.Decode (Value Loop.array_of_a_number) Server.zero_requestData = (rd, Some e) ∧
    fst (Server.ServeHTTP Loop.calculator http.Writer
           (Loop.post (Value Loop.array_of_a_number)) []) =
      Return (Server.Batch
        [{| Server.resp_ID := JNull; Server.resp_Version := "2.0";
            Server.resp_Error :=
              Some {| Server.err_Code := -32700; Server.err_Message := error_text e;
                      Server.err_Data := JNull |};
            Server.resp_Result := None |}]) ∧
    ¬ ∃ response,
        fst (Server.ServeHTTP Loop.calculator http.Writer
               (Loop.post (Value Loop.array_of_a_number)) []) =
        Return (Server.Single response).
Proof.
  eexists _, _. split; [vm_compute; reflexivity|]. split.
  - vm_compute. reflexivity.
  - intros [response H]. vm_compute in H. discriminate H.
Qed.

Lemma C10_empty_body_witness :
  length [Server.makeErrorResponse JNull Server.jsonRPCParseError "EOF"] = 1.
Proof.
  exact (proj1 (C10_first_response_exists Loop.calculator http.Writer
                  (Loop.post Loop.empty_body) [])
           _ _ _ eq_refl eq_refl).
Defined.

(* ================================================================== *)
(** * Registration and the arrays behind the options *)
(* ================================================================== *)

Section Append.

Context {A : Type}.
Implicit Types (st : Slices.store A) (s : Slices.slice) (xs : list A).

(** The slice that append returns holds the elements of the old slice
    followed by the new ones. *)
Lemma read_append st s xs :
  Slices.read (fst (Slices.append st s xs)) (snd (Slices.append st s xs)) =
    Slices.read st s ++ xs.
Proof.
  unfold Slices.append.
  assert (∀ b, Slices.read
            {| Slices.arrays := <[b := Slices.read st s ++ xs]> (Slices.arrays st);
               Slices.next := S b |}
            {| Slices.base := Some b; Slices.len := Slices.len s + length xs;
               Slices.cap := Slices.growslice_cap (Slices.len s + length xs) (Slices.cap s) |}
          = Slices.read st s ++ xs) as Hgrown.
  { intros b. unfold Slices.read at 1, Slices.array_of. cbn.
    rewrite lookup_insert_eq. cbn. apply take_ge.
    rewrite length_app. unfold Slices.read.
    destruct (Slices.base s); cbn; [rewrite length_take|]; lia. }
  destruct (Slices.base s) as [b|] eqn:Hb.
  - destruct (_ <=? _)%nat; [|apply Hgrown].
    cbn [fst snd]. unfold Slices.read. cbn [Slices.base Slices.len]. rewrite Hb.
    unfold Slices.array_of at 1. cbn [Slices.arrays]. rewrite lookup_insert_eq. cbn [from_option]. unfold id.
    set (old := Slices.array_of st b).
    destruct (decide (Slices.len s ≤ length old)) as [Hle|Hgt].
    + rewrite take_app_add' by (rewrite length_take; lia).
      f_equal. rewrite take_app_length. done.
    + rewrite (drop_ge old) by lia. rewrite app_nil_r.
      apply take_ge. rewrite length_app, length_take. lia.
  - destruct xs as [|x xs]; [|apply Hgrown].
    cbn [fst snd]. by rewrite app_nil_r.
Qed.

End Append.

Section Registration.

Variables (s : Server.Server) (method : string) (ep : Endpoint)
          (dec : Server.ReqDecode).

(** When a method has just been registered with middleware of its own, its
    list of middleware is the one of the server followed by its own, and
    its chain is the chain of the server around the chain of its own. *)
Lemma Register_middleware ms :
  let s' := Server.Register s method ep dec [Server.EndpointMiddleware ms] in
  ∃ sm, Server.methods s' !! method = Some sm ∧
        Server.endpoint sm = ep ∧
        Server.method_middleware s' sm = Server.server_middleware s ++ ms ∧
        ∀ next, middlewareChain (Server.method_middleware s' sm) next =
                middlewareChain (Server.server_middleware s) (middlewareChain ms next).
Proof.
  cbv zeta. unfold Server.Register, Server.apply_options. cbn [fold_left fst snd].
  unfold Server.EndpointMiddleware. cbn [Server.middleware Server.before Server.after].
  pose proof (read_append (Server.middleware_arrays (Server.heap s))
                (Server.middleware (Server.server_opts s)) ms) as Hread.
  destruct (Slices.append _ _ ms) as [st sl]. cbn [fst snd] in Hread.
  eexists. cbn [Server.methods]. split; [apply lookup_insert_eq|].
  split; [done|].
  split; [exact Hread|].
  intros next. unfold Server.method_middleware.
  cbn [Server.heap Server.opts Server.middleware Server.middleware_arrays].
  rewrite Hread. apply middlewareChain_app.
Qed.

End Registration.

(** C9 on a server that was given its three server-wide middleware one
    option at a time, so that the array behind them has room for a fourth
    element. The method x is registered with the middleware m1 and is
    dispatched through a, b, c, m1. Once the method y has been registered
    with the middleware m2, the same call of x runs through a, b, c, m2:
    the registration of y has written m2 into the array that the options of
    x share with the options of the server. *)
Theorem C9_later_registration_rewrites_chain :
  let call_x := Loop.post (Value (Loop.request_object 1 "x" (JStr "hi"))) in
  snd (Server.ServeHTTP Loop.traced_x http.Writer call_x []) =
    ["enter a"; "enter b"; "enter c"; "enter m1"; "echo";
     "exit m1"; "exit c"; "exit b"; "exit a"] ∧
  snd (Server.ServeHTTP Loop.traced_xy http.Writer call_x []) =
    ["enter a"; "enter b"; "enter c"; "enter m2"; "echo";
     "exit m2"; "exit c"; "exit b"; "exit a"].
Proof. split; vm_compute; reflexivity. Qed.

(** The slices behind this: the options of the server have length 3 and
    capacity 4, and both methods got the slice of length 4 on that array. *)
Example traced_slices :
  Server.middleware (Server.server_opts Loop.traced_base) =
    {| Slices.base := Some 2; Slices.len := 3; Slices.cap := 4 |} ∧
  (Server.middleware ∘ Server.opts) <$> (Server.methods Loop.traced_xy !! "x") =
    Some {| Slices.base := Some 2; Slices.len := 4; Slices.cap := 4 |} ∧
  (Server.middleware ∘ Server.opts) <$> (Server.methods Loop.traced_xy !! "y") =
    Some {| Slices.base := Some 2; Slices.len := 4; Slices.cap := 4 |}.
Proof. split; [|split]; vm_compute; reflexivity. Qed.

(* ================================================================== *)
(** * The client: ids and the correlation table *)
(* ================================================================== *)

Section Ids.

Variable url_Parse : string -> option goerror.

Implicit Types (c : Client.Client) (b : Client.building)
               (requests : list Client.Requester) (world : World).

(** The wire request that the loop of doRequests makes for the request at
    position [i]. *)
Let wire (i : nat) (request : Client.Requester) : Client.clientReq :=
  {| Client.creq_ID := N.of_nat (S i); Client.creq_Version := "2.0";
     Client.creq_Method := fst (Client.MakeRequest request);
     Client.creq_Params := snd (Client.MakeRequest request) |}.

Lemma autoIncrementID_next c i :
  Client.incrementID c = N.of_nat i →
  (N.of_nat (S i) < 2 ^ 64)%N →
  Client.autoIncrementID c =
    (N.of_nat (S i), Client.set_incrementID c (N.of_nat (S i))).
Proof.
  intros Hc Hlt. unfold Client.autoIncrementID. rewrite Hc.
  replace (N.of_nat i + 1)%N with (N.of_nat (S i)) by lia.
  by rewrite N.mod_small.
Qed.

Lemma set_incrementID_twice c v v' :
  Client.set_incrementID (Client.set_incrementID c v) v' = Client.set_incrementID c v'.
Proof. done. Qed.

(** One pass of the loop: the counter goes from [i] to [i + 1], the new
    value is the id of the wire request, which is stored at position [i],
    and the table sends the id to [i]. *)
Lemma build_request_step i request b world :
  Client.incrementID (Client.b_client b) = N.of_nat i →
  i < length (Client.b_rpcRequests b) →
  (N.of_nat (S i) < 2 ^ 64)%N →
  ∃ req world',
    Client.build_request i request b world =
      (Return {| Client.b_client :=
                   Client.set_incrementID (Client.b_client b) (N.of_nat (S i));
                 Client.b_req := req;
                 Client.b_idsIndex := <[N.of_nat (S i) := i]> (Client.b_idsIndex b);
                 Client.b_rpcRequests := <[i := wire i request]> (Client.b_rpcRequests b) |},
       world').
Proof.
  intros Hc Hi Hlt. unfold Client.build_request. run_monad.
  destruct (Client.run_before _ _ world) as [req world'].
  unfold wire. destruct (Client.MakeRequest request) as [methodName params].
  rewrite (autoIncrementID_next _ i Hc Hlt).
  unfold Client.set_index. rewrite decide_True by done.
  by eexists _, _.
Qed.

(** The loop over the requests that follow position [i]. *)
Lemma build_requests_spec requests : ∀ i b world,
  Client.incrementID (Client.b_client b) = N.of_nat i →
  i + length requests ≤ length (Client.b_rpcRequests b) →
  (N.of_nat (i + length requests) < 2 ^ 64)%N →
  ∃ b' world',
    Client.build_requests i requests b world = (Return b', world') ∧
    Client.b_client b' =
      Client.set_incrementID (Client.b_client b) (N.of_nat (i + length requests)) ∧
    length (Client.b_rpcRequests b') = length (Client.b_rpcRequests b) ∧
    (∀ j request, requests !! j = Some request →
       Client.b_rpcRequests b' !! (i + j) = Some (wire (i + j) request)) ∧
    (∀ j, j < i → Client.b_rpcRequests b' !! j = Client.b_rpcRequests b !! j) ∧
    (∀ j, j < length requests →
       Client.b_idsIndex b' !! N.of_nat (S (i + j)) = Some (i + j)) ∧
    (∀ k, (k ≤ N.of_nat i)%N → Client.b_idsIndex b' !! k = Client.b_idsIndex b !! k).
Proof.
  induction requests as [|request requests IH]; intros i b world Hc Hlen Hlt.
  - exists b, world. cbn [Client.build_requests length]. run_monad.
    rewrite Nat.add_0_r, <- Hc.
    split; [done|]. split; [by destruct b as [[] ? ? ?]|].
    split; [done|]. split; [intros j request; by rewrite lookup_nil|].
    split; [done|]. split; [intros j Hj; cbn in Hj; lia|done].
  - cbn [length] in Hlen, Hlt.
    destruct (build_request_step i request b world Hc) as (req & world1 & Hstep);
      [lia|lia|].
    cbn [Client.build_requests]. run_monad. rewrite Hstep.
    match goal with |- context [Client.build_requests (S i) requests ?b1 world1] =>
      destruct (IH (S i) b1 world1) as (b' & world' & Hrun & Hcl & Hl & Hwire & Hold & Htab & Hrest)
    end.
    { done. }
    { cbn [Client.b_rpcRequests]. rewrite length_insert. lia. }
    { lia. }
    cbn [Client.b_client Client.b_rpcRequests Client.b_idsIndex] in *.
    exists b', world'. rewrite Hrun.
    split; [done|].
    split; [rewrite Hcl, set_incrementID_twice; cbn [length]; do 2 f_equal; lia|].
    split; [by rewrite Hl, length_insert|].
    split.
    { intros [|j] rq Hj; cbn in Hj.
      - injection Hj as ->. rewrite Nat.add_0_r, Hold by lia.
        apply list_lookup_insert_eq. lia.
      - replace (i + S j) with (S i + j) by lia. by apply Hwire. }
    split.
    { intros j Hj. rewrite Hold by lia. apply list_lookup_insert_ne. lia. }
    split.
    { intros [|j] Hj; cbn [length] in Hj.
      - rewrite Nat.add_0_r, Hrest by lia. apply lookup_insert_eq.
      - replace (i + S j) with (S i + j) by lia. apply Htab. lia. }
    intros k Hk. rewrite Hrest by lia. apply lookup_insert_ne. lia.
Qed.

(** The first part of doRequests on a client whose target is a URL. *)
Lemma prepare_spec c ctx requests world :
  url_Parse (Client.target c) = None →
  (N.of_nat (length requests) < 2 ^ 64)%N →
  ∃ b world',
    Client.prepare url_Parse c ctx requests world = (Return b, world') ∧
    Client.b_client b = Client.set_incrementID c (N.of_nat (length requests)) ∧
    length (Client.b_rpcRequests b) = length requests ∧
    (∀ i request, requests !! i = Some request →
       Client.b_rpcRequests b !! i = Some (wire i request)) ∧
    (∀ i, i < length requests → Client.b_idsIndex b !! N.of_nat (S i) = Some i).
Proof.
  intros Hurl Hlt. unfold Client.prepare, Client.NewRequest.
  cbn [Client.target Client.set_incrementID]. rewrite Hurl. run_monad.
  destruct (Client.run_before _ _ world) as [req world0].
  match goal with |- context [Client.build_requests 0 requests ?b0 world0] =>
    destruct (build_requests_spec requests 0 b0 world0)
      as (b & world' & Hrun & Hcl & Hl & Hwire & _ & Htab & _)
  end.
  { done. }
  { cbn [Client.b_rpcRequests]. by rewrite length_replicate. }
  { done. }
  cbn [Client.b_client Client.b_rpcRequests] in *.
  rewrite length_replicate in Hl.
  exists b, world'. split; [done|]. split; [done|]. split; [done|].
  split; [exact Hwire|exact Htab].
Qed.

(** The ids of the wire requests, in the order of the requests. *)
Lemma prepare_ids b requests :
  length (Client.b_rpcRequests b) = length requests →
  (∀ i request, requests !! i = Some request →
     Client.b_rpcRequests b !! i = Some (wire i request)) →
  map Client.creq_ID (Client.b_rpcRequests b) =
    map (λ i, N.of_nat (S i)) (seq 0 (length requests)).
Proof.
  intros Hl Hwire. apply list_eq. intros i.
  rewrite !list_lookup_fmap.
  destruct (requests !! i) as [request|] eqn:Hi.
  - rewrite (Hwire _ _ Hi). apply lookup_lt_Some in Hi.
    by rewrite lookup_seq_lt.
  - apply lookup_ge_None in Hi.
    rewrite (lookup_ge_None_2 (Client.b_rpcRequests b)) by lia.
    by rewrite lookup_seq_ge.
Qed.

Lemma NoDup_ids n : NoDup (map (λ i, N.of_nat (S i)) (seq 0 n)).
Proof.
  apply NoDup_fmap_2; [|apply NoDup_seq].
  intros i j Hij. lia.
Qed.

(** C5, as the code has it. A batch submission sets the counter of the
    client to zero before anything else, so that what it does is the same
    whatever the counter was; the ids of the wire requests are then
    1, 2, ..., N in the order in which the requests were given: unique,
    sequential, and starting at one, the value the counter has after its
    first increment. The correlation table sends the id of each request to
    its position, and the counter is left at N. *)
Theorem C5_ids_count_from_one c ctx requests world :
  url_Parse (Client.target c) = None →
  (N.of_nat (length requests) < 2 ^ 64)%N →
  (∀ k, Client.prepare url_Parse (Client.set_incrementID c k) ctx requests world =
        Client.prepare url_Parse c ctx requests world) ∧
  ∃ b world',
    Client.prepare url_Parse c ctx requests world = (Return b, world') ∧
    map Client.creq_ID (Client.b_rpcRequests b) =
      map (λ i, N.of_nat (S i)) (seq 0 (length requests)) ∧
    NoDup (map Client.creq_ID (Client.b_rpcRequests b)) ∧
    (∀ i, i < length requests → Client.b_idsIndex b !! N.of_nat (S i) = Some i) ∧
    Client.incrementID (Client.b_client b) = N.of_nat (length requests).
Proof.
  intros Hurl Hlt. split; [done|].
  destruct (prepare_spec c ctx requests world Hurl Hlt)
    as (b & world' & Hrun & Hcl & Hl & Hwire & Htab).
  exists b, world'. split; [done|].
  pose proof (prepare_ids b requests Hl Hwire) as Hids.
  split; [done|]. split; [rewrite Hids; apply NoDup_ids|].
  split; [done|]. by rewrite Hcl.
Qed.

End Ids.

Lemma C5_two_requests_witness :
  ∃ b world',
    Client.prepare Loop.url_ok (Loop.client_of Loop.no_transport) []
      [Loop.call "a" JNull; Loop.call "b" JNull] [] = (Return b, world') ∧
    map Client.creq_ID (Client.b_rpcRequests b) = [1%N; 2%N].
Proof.
  destruct (proj2 (C5_ids_count_from_one Loop.url_ok
                     (Loop.client_of Loop.no_transport) []
                     [Loop.call "a" JNull; Loop.call "b" JNull] []
                     eq_refl eq_refl))
    as (b & world' & Hrun & Hids & _).
  exists b, world'. split; [exact Hrun|exact Hids].
Defined.

(** C5 as the specification has it fails on any batch: the ids of a batch
    of two requests are 1 and 2, not 0 and 1. *)
Lemma C5_ids_are_not_zero_based :
  let ids :=
    match fst (Client.prepare Loop.url_ok (Loop.client_of Loop.no_transport) []
                 [Loop.call "a" JNull; Loop.call "b" JNull] []) with
    | Return b => map Client.creq_ID (Client.b_rpcRequests b)
    | _ => []
    end in
  ids = [1%N; 2%N] ∧ ids ≠ [0%N; 1%N].
Proof. cbv zeta. split; [vm_compute; reflexivity|]. vm_compute. discriminate. Qed.

(* ================================================================== *)
(** * The client: decoding and correlation *)
(* ================================================================== *)

Section Correlate.

Variable url_Parse : string -> option goerror.
Variable DefaultClient : Client.HTTPClient.

Variables (c : Client.Client) (requests : list Client.Requester)
          (idsIndex : gmap N nat) (resp : http.Response).

Implicit Types (response : Client.clientResp) (responses : list Client.clientResp)
               (results : list any) (world : World).

(** i := idsIndex[response.ID]: the position in the table, and 0 for an
    id that the table does not have. *)
Let slot response : nat := default 0 (idsIndex !! Client.cresp_ID response).

(** The value that a pass of the loop stores for a response: the error of
    the envelope, or what the request at the slot makes of the result. *)
Let stored response (v : any) : Prop :=
  match Client.cresp_Error response with
  | Some e =>
      v = AnyError {| code := Client.cerr_Code e; message := Client.cerr_Message e;
                      data := Client.cerr_Data e |}
  | None =>
      ∃ request, requests !! slot response = Some request ∧
                 Client.MakeResult request (Client.cresp_Result response) = Ok v
  end.

(** A pass of the loop that goes through writes one slot. *)
Lemma correlate_one_return response results world results' world' :
  Client.correlate_one c requests idsIndex resp response results world =
    (Return results', world') →
  ∃ v, slot response < length results ∧ stored response v ∧
       results' = <[slot response := v]> results.
Proof.
  unfold Client.correlate_one, stored. fold (slot response).
  destruct (Client.cresp_Error response) as [e|].
  - unfold Client.set_index. case_decide; run_monad; [|done].
    intros [= <- <-]. by eexists.
  - run_monad. destruct (Client.run_after _ resp _ world) as [[] world1].
    destruct (requests !! slot response) as [request|]; [|done].
    destruct (Client.run_after _ resp _ world1) as [[] world2].
    destruct (Client.MakeResult request _) as [result|err] eqn:Hres; [|done].
    unfold Client.set_index. case_decide; [|done].
    intros [= <- <-]. exists result. eauto.
Qed.

(** The loop over responses that go to different slots: each of them is
    found in its slot at the end, and the other slots are as they were. *)
Lemma correlate_spec responses : ∀ results world results' world',
  NoDup (map slot responses) →
  Client.correlate c requests idsIndex resp responses results world =
    (Return results', world') →
  length results' = length results ∧
  (∀ response, response ∈ responses →
     ∃ v, stored response v ∧ results' !! slot response = Some v) ∧
  (∀ j, j ∉ map slot responses → results' !! j = results !! j).
Proof.
  induction responses as [|response responses IH];
    intros results world results' world' Hnd; cbn [Client.correlate]; run_monad.
  - intros [= <- <-]. split; [done|]. split; [|done].
    intros response Hin. by apply elem_of_nil in Hin.
  - destruct (Client.correlate_one c requests idsIndex resp response results world)
      as [[results1|err|msg] world1] eqn:Hone; [|done|done].
    intros Hrest.
    apply correlate_one_return in Hone as (v & Hlt & Hv & ->).
    cbn [map] in Hnd. apply NoDup_cons in Hnd as [Hfresh Hnd].
    destruct (IH _ _ _ _ Hnd Hrest) as (Hlen & Hin & Hout).
    split; [by rewrite Hlen, length_insert|]. split.
    + intros response' [->|Hin']%elem_of_cons.
      * exists v. split; [done|].
        rewrite Hout by done. by apply list_lookup_insert_eq.
      * by apply Hin.
    + intros j Hj. cbn [map] in Hj. apply not_elem_of_cons in Hj as [Hne Hj].
      rewrite Hout by done. by apply list_lookup_insert_ne.
Qed.

End Correlate.

Section Execute.

Variable url_Parse : string -> option goerror.
Variable DefaultClient : Client.HTTPClient.

Implicit Types (c : Client.Client) (b : Client.building)
               (requests : list Client.Requester) (world : World).

(** The table that doRequests returns is the one its loop has built. *)
Lemma exchange_idsIndex b world data idsIndex resp world' :
  Client.exchange DefaultClient b world = (Return (data, idsIndex, resp), world') →
  idsIndex = Client.b_idsIndex b.
Proof.
  unfold Client.exchange.
  destruct (Client.encode_requests _) as [body|err]; [|done]. run_monad.
  destruct (Client.Do DefaultClient _ _ world) as [[resp0|err] world1]; [|done].
  destruct (negb _); [done|].
  destruct (http.RespBody resp0) as [copied|err]; [|done].
  destruct (_ <? _)%Z; [done|]. by intros [= _ <- _ _].
Qed.

Lemma doRequests_return c ctx requests world b world0 c1 data idsIndex resp world1 :
  Client.prepare url_Parse c ctx requests world = (Return b, world0) →
  Client.doRequests url_Parse DefaultClient c ctx requests world =
    ((c1, Return (data, idsIndex, resp)), world1) →
  c1 = Client.b_client b ∧ idsIndex = Client.b_idsIndex b.
Proof.
  intros Hprep. unfold Client.doRequests. run_monad. rewrite Hprep.
  destruct (Client.exchange DefaultClient b world0) as [o world2] eqn:Hex.
  intros [= <- -> <-]. split; [done|]. by eapply exchange_idsIndex.
Qed.

(** A call that prepared its batch had a target that is a URL. *)
Lemma prepare_return_url c ctx requests world b world0 :
  Client.prepare url_Parse c ctx requests world = (Return b, world0) →
  url_Parse (Client.target c) = None.
Proof.
  unfold Client.prepare, Client.NewRequest. cbn [Client.target Client.set_incrementID].
  by destruct (url_Parse (Client.target c)).
Qed.

(** C1. Take a batch of requests, the wire requests made for it, and a call
    of ExecuteWithContext that succeeds, in which the responses decoded
    from the body carry the ids of these wire requests, each once, in any
    order. Then the batch result has as many entries as there are requests,
    and the entry at position [i] is the one made from the response that
    carries the id of the [i]-th request: the error of that response, or
    what MakeResult of the [i]-th request returns on its result. *)
Theorem C1_results_in_submission_order c ctx requests world
    b world0 c1 data idsIndex resp world1 responses c' br world' :
  (N.of_nat (length requests) < 2 ^ 64)%N →
  Client.prepare url_Parse c ctx requests world = (Return b, world0) →
  Client.doRequests url_Parse DefaultClient c ctx requests world =
    ((c1, Return (data, idsIndex, resp)), world1) →
  Client.unmarshal_responses data (replicate (length requests) Client.zero_clientResp) =
    (responses, None) →
  map Client.cresp_ID responses ≡ₚ map Client.creq_ID (Client.b_rpcRequests b) →
  Client.ExecuteWithContext url_Parse DefaultClient c ctx requests world =
    ((c', Return br), world') →
  Client.Len br = length requests ∧
  ∀ i request rpcRequest response,
    requests !! i = Some request →
    Client.b_rpcRequests b !! i = Some rpcRequest →
    response ∈ responses →
    Client.cresp_ID response = Client.creq_ID rpcRequest →
    match Client.cresp_Error response with
    | Some e =>
        Client.At br i =
          Some (AnyError {| code := Client.cerr_Code e; message := Client.cerr_Message e;
                            data := Client.cerr_Data e |})
    | None =>
        ∃ result,
          Client.MakeResult request (Client.cresp_Result response) = Ok result ∧
          Client.At br i = Some result
    end.
Proof.
  intros Hlt Hprep Hdo Hdec Hperm Hexec.
  pose proof (prepare_return_url _ _ _ _ _ _ Hprep) as Hurl.
  destruct (prepare_spec url_Parse c ctx requests world Hurl Hlt)
    as (b0 & world0' & Hprep' & _ & Hl & Hwire & Htab).
  rewrite Hprep in Hprep'. injection Hprep' as <- <-.
  pose proof (prepare_ids b requests Hl Hwire) as Hids.
  destruct (doRequests_return _ _ _ _ _ _ _ _ _ _ _ Hprep Hdo) as [-> ->].
  (* the slots of the responses are all different *)
  set (slot := λ response : Client.clientResp,
         default 0 (Client.b_idsIndex b !! Client.cresp_ID response)).
  assert (map (λ id, default 0 (Client.b_idsIndex b !! id))
            (map (λ i, N.of_nat (S i)) (seq 0 (length requests)))
          = seq 0 (length requests)) as Hslots.
  { rewrite map_map. rewrite <- (map_id (seq 0 (length requests))) at 2.
    apply map_ext_in. intros i Hi%in_seq. by rewrite Htab by lia. }
  assert (NoDup (map slot responses)) as Hnd.
  { replace (map slot responses)
      with (map (λ id, default 0 (Client.b_idsIndex b !! id))
              (map Client.cresp_ID responses)) by (by rewrite map_map).
    rewrite Hperm, Hids, Hslots. apply NoDup_seq. }
  (* the call *)
  unfold Client.ExecuteWithContext in Hexec. run_monad. rewrite Hdo in Hexec.
  cbn [fst snd] in Hexec. unfold Client.decode_and_correlate in Hexec.
  rewrite Hdec in Hexec. run_monad.
  destruct (Client.correlate _ requests _ resp responses _ world1)
    as [[results|err|msg] world2] eqn:Hcor; [|done|done].
  injection Hexec as <- <- <-.
  destruct (correlate_spec _ _ _ _ _ _ _ _ _ Hnd Hcor) as (Hlen & Hin & _).
  rewrite length_replicate in Hlen.
  split; [done|].
  intros i request rpcRequest response Hi Hrpc Hresp Hid.
  destruct (Hin _ Hresp) as (v & Hv & Hslot).
  assert (default 0 (Client.b_idsIndex b !! Client.cresp_ID response) = i) as Hi'.
  { rewrite Hid. rewrite (Hwire _ _ Hi) in Hrpc. injection Hrpc as <-.
    cbn [Client.creq_ID]. apply lookup_lt_Some in Hi. by rewrite Htab. }
  rewrite Hi' in Hslot, Hv. unfold Client.At. cbn [Client.results].
  destruct (Client.cresp_Error response) as [e|].
  - by rewrite Hslot, Hv.
  - destruct Hv as (request' & Hreq' & Hres).
    rewrite Hi in Hreq'. injection Hreq' as <-. eauto.
Qed.

End Execute.

(** C1 on a batch of two requests whose responses come back in the other
    order. *)
Lemma C1_swapped_responses_witness :
  ∃ br,
    snd (fst (Client.ExecuteWithContext Loop.url_ok Loop.no_transport
                (Loop.client_of (Loop.canned (JArr [Loop.result_envelope 2 (JStr "B");
                                                    Loop.result_envelope 1 (JStr "A")])))
                [] [Loop.call "a" JNull; Loop.call "b" JNull] [])) = Return br ∧
    Client.Len br = 2.
Proof.
  eexists. split; [vm_compute; reflexivity|].
  refine (proj1 (C1_results_in_submission_order Loop.url_ok Loop.no_transport
            (Loop.client_of (Loop.canned (JArr [Loop.result_envelope 2 (JStr "B");
                                                Loop.result_envelope 1 (JStr "A")])))
            [] [Loop.call "a" JNull; Loop.call "b" JNull] []
            _ _ _ _ _ _ _ _ _ _ _
            eq_refl eq_refl eq_refl eq_refl _ eq_refl)).
  vm_compute. apply perm_swap.
Defined.

(** The same batch, read back: the entries are in the order of the
    requests. *)
Example swapped_responses_results :
  snd (fst (Client.Execute Loop.url_ok Loop.no_transport
              (Loop.client_of (Loop.canned (JArr [Loop.result_envelope 2 (JStr "B");
                                                  Loop.result_envelope 1 (JStr "A")])))
              [Loop.call "a" JNull; Loop.call "b" JNull] [])) =
  Return {| Client.results := [AnyJSON (JStr "A"); AnyJSON (JStr "B")] |}.
Proof. vm_compute. reflexivity. Qed.

Section UnknownId.

Variables (c : Client.Client) (requests : list Client.Requester)
          (idsIndex : gmap N nat) (resp : http.Response).

(** A response whose id the table does not have is handled exactly as if
    the table sent its id to position 0: the lookup in the Go map gives the
    zero value of int. *)
Lemma unknown_id_goes_to_first_slot response results :
  idsIndex !! Client.cresp_ID response = None →
  Client.correlate_one c requests idsIndex resp response results =
    Client.correlate_one c requests (<[Client.cresp_ID response := 0]> idsIndex)
      resp response results.
Proof.
  intros Hnone. unfold Client.correlate_one.
  by rewrite Hnone, lookup_insert_eq.
Qed.

End UnknownId.

(** C3 on a batch of two requests answered by three envelopes, the third
    with the id 99 that no request of the batch has. The third envelope is
    not ignored: its result replaces the one of the first request. And when
    the first request cannot convert that result, the whole call fails. *)
Theorem C3_unknown_id_overwrites_first_slot :
  let body := JArr [Loop.result_envelope 1 (JStr "A");
                    Loop.result_envelope 2 (JStr "B");
                    Loop.result_envelope 99 (JNum 7)] in
  snd (fst (Client.Execute Loop.url_ok Loop.no_transport
              (Loop.client_of (Loop.canned body))
              [Loop.call "a" JNull; Loop.call "b" JNull] [])) =
    Return {| Client.results := [AnyJSON (JNum 7); AnyJSON (JStr "B")] |} ∧
  snd (fst (Client.Execute Loop.url_ok Loop.no_transport
              (Loop.client_of (Loop.canned body))
              [Loop.call_string "a" JNull; Loop.call "b" JNull] [])) =
    Raise (ErrText "a string was expected").
Proof. split; vm_compute; reflexivity. Qed.

(* ================================================================== *)
(** * Errors from the server to the client *)
(* ================================================================== *)













(* ================================================================== *)
(** * More on the middleware chain *)
(* ================================================================== *)

(** X1. For lists of any length the chain is the right fold of application,
    and the chain of a concatenation is the chain of the first list around
    the chain of the second: composing chains is the same as chaining the
    concatenated list. *)
Theorem X1_chain_of_concatenation :
  ∀ (ms1 ms2 : list EndpointMiddlewareFunc) (next : Endpoint),
    middlewareChain (ms1 ++ ms2) next = middlewareChain ms1 (middlewareChain ms2 next) ∧
    middlewareChain ms1 next = foldr (λ mw e, mw e) next ms1.
Proof.
  intros ms1 ms2 next. split; [apply middlewareChain_app|apply middlewareChain_foldr].
Qed.

(** X2. A chain of any number of logging middleware around an endpoint: the
    log shows the call entering the middleware in the order of the list,
    then what the endpoint does, then the call leaving them in the reverse
    order; the result is the one of the endpoint. *)
Theorem X2_chain_logs_in_list_order :
  ∀ (names : list string) (E : Endpoint) ctx request w,
    middlewareChain (map Loop.tracer names) E ctx request w =
      (fst (E ctx request (w ++ map (λ n, "enter " +:+ n) names)),
       snd (E ctx request (w ++ map (λ n, "enter " +:+ n) names))
         ++ map (λ n, "exit " +:+ n) (rev names)).
Proof. intros names. apply chain_of_tracers. Qed.

(** X3. A middleware that answers without calling the next endpoint cuts
    the chain: whatever is listed after it, and the endpoint itself, have no
    part in the call, while the middleware listed before it still wrap it. *)
Theorem X3_chain_is_cut_by_a_middleware_that_does_not_call_next
    (block : EndpointMiddlewareFunc) (ms1 ms2 ms2' : list EndpointMiddlewareFunc)
    (E E' : Endpoint) :
  (∀ e e' : Endpoint, block e = block e') →
  middlewareChain (ms1 ++ block :: ms2) E = middlewareChain (ms1 ++ block :: ms2') E'.
Proof.
  intros Hblock. rewrite !middlewareChain_app, !middlewareChain_foldr.
  cbn [foldr]. f_equal. apply Hblock.
Qed.

Lemma X3_deny_witness :
  middlewareChain ([Loop.tracer "a"] ++ Loop.deny "no" :: [Loop.tracer "b"]) Loop.echo =
  middlewareChain ([Loop.tracer "a"] ++ Loop.deny "no" :: []) Loop.add.
Proof.
  apply (X3_chain_is_cut_by_a_middleware_that_does_not_call_next (Loop.deny "no")).
  intros e e'. reflexivity.
Defined.

(* ================================================================== *)
(** * More on the server: hooks, envelopes, bodies *)
(* ================================================================== *)

Section Hooks.

Variables (r : http.Request) (w : http.ResponseWriter).





End Hooks.

Section Method.

Variables (s : Server.Server) (method : Server.ServerMethod) (ctx : Context)
          (w : http.ResponseWriter) (r : http.Request).

(** X5. What handleMethod runs, and when it stops. A before hook that
    fails ends the call with its error: the decoder, the middleware, the
    endpoint and the after hooks are not called. When the hooks pass, a
    decoder that fails ends the call in the same way, and so does a chain
    that fails: the after hooks only run when the endpoint has succeeded.
    In that case the response is the one of the chain, called with the
    context that the before hooks have produced; what the after hooks
    return has no part in it. *)
Theorem X5_handleMethod_stops_at_first_failure (params : RawMessage) (world : World) :
  (∀ err world1,
     Server.run_before (Server.method_before s method) ctx r world = (Fail err, world1) →
     Server.handleMethod s method ctx w r params world = (Fail err, world1)) ∧
  (∀ ctx1 world1,
     Server.run_before (Server.method_before s method) ctx r world = (Ok ctx1, world1) →
     (∀ err world2,
        Server.reqDecode method ctx1 r params world1 = (Fail err, world2) →
        Server.handleMethod s method ctx w r params world = (Fail err, world2)) ∧
     (∀ request world2,
        Server.reqDecode method ctx1 r params world1 = (Ok request, world2) →
        let chain := middlewareChain (Server.method_middleware s method)
                       (Server.endpoint method) in
        (∀ err world3,
           chain ctx1 request world2 = (Fail err, world3) →
           Server.handleMethod s method ctx w r params world = (Fail err, world3)) ∧
        (∀ response world3,
           chain ctx1 request world2 = (Ok response, world3) →
           Server.handleMethod s method ctx w r params world =
             (Ok response,
              snd (Server.run_after (Server.method_after s method) ctx1 w world3))))).
Proof.
  unfold Server.handleMethod. run_monad. split.
  - intros err world1 ->. done.
  - intros ctx1 world1 ->. split.
    + intros err world2 ->. done.
    + intros request world2 Hd. rewrite Hd. cbv zeta. split.
      * intros err world3 Hc. by rewrite Hc.
      * intros response world3 Hc. rewrite Hc.
        by destruct (Server.run_after _ ctx1 w world3).
Qed.

End Method.


Lemma X5_failing_endpoint_witness :
  Server.handleMethod Loop.kitchen
    {| Server.endpoint := Loop.failing; Server.reqDecode := Loop.params_as_value;
       Server.opts := Server.zero_Options |}
    [] http.Writer (Loop.post Loop.empty_body) None [] =
  (Fail (ErrRPC Loop.teapot), []).
Proof.
  exact (proj1 (proj2 (proj2 (X5_handleMethod_stops_at_first_failure Loop.kitchen
            {| Server.endpoint := Loop.failing; Server.reqDecode := Loop.params_as_value;
               Server.opts := Server.zero_Options |}
            [] http.Writer (Loop.post Loop.empty_body) None []) [] [] eq_refl)
            AnyNil [] eq_refl) _ _ eq_refl).
Defined.

Section Envelopes.

Variables (s : Server.Server) (w : http.ResponseWriter) (r : http.Request).

(** An envelope as the server makes them: version 2.0, and either an
    error with one of the three codes the server uses and no data, or a
    result, never both and never neither; the code of a parse error only
    comes with the id null. *)
Let well_formed (response : Server.jsonRPCResponse) : Prop :=
  Server.resp_Version response = "2.0" ∧
  match Server.resp_Error response, Server.resp_Result response with
  | Some e, None =>
      (Server.err_Code e = (-32601)%Z ∨ Server.err_Code e = (-32603)%Z ∨
       (Server.err_Code e = (-32700)%Z ∧ Server.resp_ID response = JNull)) ∧
      Server.err_Data e = JNull
  | None, Some _ => True
  | _, _ => False
  end.

Lemma serve_request_well_formed ctx req world :
  well_formed (fst (Server.serve_request s ctx w r req world)).
Proof.
  unfold Server.serve_request, well_formed.
  destruct (Server.methods s !! Server.req_Method req) as [method|]; [|cbn; auto].
  run_monad.
  destruct (Server.handleMethod s method ctx w r (Server.req_Params req) world)
    as [[resp|err] world']; [|cbn; auto].
  destruct (json.Marshal resp); cbn; auto.
Qed.

Lemma serve_requests_well_formed ctx reqs : ∀ world,
  Forall well_formed (fst (Server.serve_requests s ctx w r reqs [] world)).
Proof.
  induction reqs as [|req reqs IH]; intros world; [by constructor|].
  rewrite serve_requests_cons.
  pose proof (serve_request_well_formed ctx req world) as H1.
  destruct (Server.serve_request s ctx w r req world) as [resp world1].
  cbn [fst] in *. constructor; [done|apply IH].
Qed.

(** When the request data is not a batch there is exactly one response. *)
Lemma dispatch_single_response world rd responses world' :
  Server.dispatch s w r world = ((rd, responses), world') →
  Server.isBatch rd = false → length responses = 1.
Proof.
  unfold Server.dispatch, Server.Decode.
  destruct (http.Body r) as [why|b].
  - by intros [= <- <- <-].
  - unfold Server.UnmarshalJSON. destruct (Server.HasPrefix_bracket b).
    + destruct (Server.unmarshal_requests b _) as [reqs [e|]]; run_monad.
      * by intros [= <- <- <-].
      * destruct (Server.serve_requests _ _ _ _ _ _ _). by intros [= <- <- <-].
    + destruct (Server.unmarshal_request b _) as [req [e|]]; run_monad.
      * by intros [= <- <- <-].
      * cbn [Server.requests Server.zero_requestData Server.isBatch app].
        pose proof (serve_requests_length s (http.Ctx r) w r [req] world) as Hlen.
        destruct (Server.serve_requests _ _ _ _ _ _ _) as [l world1].
        by intros [= <- <- <-].
Qed.

(** X6. Every envelope that ServeHTTP emits, for every body, has the
    version 2.0 and exactly one of an error and a result. The error has no
    data and one of the codes -32700, -32601 and -32603 (the codes -32600
    and -32602 are never used), and the code -32700 only comes with the id
    null. *)
Theorem X6_emitted_envelopes_are_well_formed (world : World) :
  match fst (Server.ServeHTTP s w r world) with
  | Return (Server.Batch responses) => Forall well_formed responses
  | Return (Server.Single response) => well_formed response
  | _ => False
  end.
Proof.
  assert (Forall well_formed (snd (fst (Server.dispatch s w r world)))) as Hall.
  { unfold Server.dispatch.
    destruct (Server.Decode (http.Body r) Server.zero_requestData) as [rd [err|]].
    - run_monad. constructor; [|constructor]. unfold well_formed. cbn.
      split; [done|]. split; [|done]. by right; right.
    - run_monad.
      pose proof (serve_requests_well_formed (http.Ctx r) (Server.requests rd) world).
      by destruct (Server.serve_requests _ _ _ _ _ _ _). }
  unfold Server.ServeHTTP. run_monad.
  destruct (Server.dispatch s w r world) as [[rd responses] world'] eqn:Hd.
  cbn [fst snd] in *. unfold Server.respond.
  destruct (Server.isBatch rd) eqn:Hb; [done|].
  pose proof (dispatch_single_response _ _ _ _ Hd Hb) as Hone.
  destruct responses as [|response ?]; [done|]. by inversion Hall.
Qed.

End Envelopes.

Section Written.

Variables (s : Server.Server) (w : http.ResponseWriter) (r : http.Request).

(** X7. The kind of JSON value that ServeHTTP writes, for every body. A
    body that is a JSON array with at least one element is answered with
    an array: of one envelope for each element when the elements decode,
    of the one parse error when they do not. The empty array is answered
    with null. Every other body, a JSON value that is not an array or a
    text that is not JSON, is answered with one object. *)
Theorem X7_kind_of_the_written_value (world : World) :
  ∃ data world',
    Server.ServeHTTP s w r world = (Return data, world') ∧
    match http.Body r with
    | Value (JArr []) => Server.encode_emitted data = JNull
    | Value (JArr (elem :: elems)) =>
        ∃ envelopes,
          Server.encode_emitted data = JArr envelopes ∧
          length envelopes =
            match snd (Server.unmarshal_requests (JArr (elem :: elems)) []) with
            | None => S (length elems)
            | Some _ => 1
            end
    | _ => ∃ members, Server.encode_emitted data = JObj members
    end.
Proof.
  destruct (http.Body r) as [why|b] eqn:Hbody.
  - eexists _, _. split; [by apply ServeHTTP_malformed|]. by eexists.
  - destruct (Server.HasPrefix_bracket b) eqn:Hb.
    + destruct b as [| | | | |elems|]; try discriminate Hb.
      destruct (ServeHTTP_array s w r elems world Hbody)
        as (responses & world' & Hrun & Hdec).
      exists (Server.Batch responses), world'. split; [done|].
      destruct elems as [|elem elems].
      * cbn in Hdec. cbn [Server.serve_requests] in Hdec. run_monad.
        by injection Hdec as -> _.
      * pose proof (array_length Server.unmarshal_request Server.zero_request
                      (elem :: elems) None) as Hlen.
        unfold Server.unmarshal_requests in *.
        destruct (json.array _ _ (elem :: elems) None) as [reqs [e|]];
          cbn [fst snd] in *.
        -- destruct Hdec as [-> _]. by eexists.
        -- pose proof (serve_requests_length s (http.Ctx r) w r reqs world) as Hl.
           rewrite <- Hdec in Hl. cbn [fst] in Hl.
           destruct responses as [|response responses]; [cbn in *; lia|].
           eexists. split; [reflexivity|].
           rewrite length_map. cbn [length] in *. lia.
    + destruct (ServeHTTP_single s w r b world Hbody Hb)
        as (response & world' & Hrun & _).
      exists (Server.Single response), world'. split; [done|].
      destruct b; try discriminate Hb; by eexists.
Qed.

(** X8. Taking the elements that name unknown methods out of a batch
    changes nothing for the others: the remaining requests get the
    responses they got in the full batch, and the handlers leave the world
    as they did. *)
Theorem X8_unknown_methods_can_be_left_out (ctx : Context)
    (reqs : list Server.jsonRPCRequest) (world : World) :
  let known := λ req, is_Some (Server.methods s !! Server.req_Method req) in
  Server.serve_requests s ctx w r (filter known reqs) [] world =
    (snd <$> filter (λ p, known (fst p))
               (zip reqs (fst (Server.serve_requests s ctx w r reqs [] world))),
     snd (Server.serve_requests s ctx w r reqs [] world)).
Proof. apply unknown_methods_do_not_disturb. Qed.

(** Members whose key is none of id, jsonrpc, method and params leave a
    request as it is. *)
Lemma unknown_members_are_skipped members : ∀ req e,
  Forall (λ kv, json.is_field "id" (fst kv) = false ∧
                json.is_field "jsonrpc" (fst kv) = false ∧
                json.is_field "method" (fst kv) = false ∧
                json.is_field "params" (fst kv) = false) members →
  json.object Server.request_field members req e = (req, e).
Proof.
  induction members as [|[k v] members IH]; intros req e Hall; [done|].
  apply Forall_cons in Hall as [(Hid & Hver & Hm & Hp) Hall]. cbn [fst] in *.
  cbn [json.object]. unfold Server.request_field at 1.
  rewrite Hid, Hver, Hm, Hp. rewrite IH by done.
  by destruct e.
Qed.

(** X9. A body that is null, or an object none of whose members is named
    id, jsonrpc, method or params (the empty object for one), is not
    rejected: it is served as a single request with the empty method name
    and the id null. On a server that has no method of the empty name the
    answer is one envelope with the id null and the code -32601. *)
Theorem X9_body_without_method_is_a_call_of_the_empty_name (world : World) b :
  http.Body r = Value b →
  match b with
  | JNull => True
  | JObj members =>
      Forall (λ kv, json.is_field "id" (fst kv) = false ∧
                    json.is_field "jsonrpc" (fst kv) = false ∧
                    json.is_field "method" (fst kv) = false ∧
                    json.is_field "params" (fst kv) = false) members
  | _ => False
  end →
  Server.Decode (http.Body r) Server.zero_requestData =
    ({| Server.requests :=
          [{| Server.req_ID := JNull; Server.req_Version := "";
              Server.req_Method := ""; Server.req_Params := None |}];
        Server.isBatch := false |}, None) ∧
  (Server.methods s !! "" = None →
   Server.ServeHTTP s w r world =
     (Return (Server.Single
                {| Server.resp_ID := JNull; Server.resp_Version := "2.0";
                   Server.resp_Error :=
                     Some {| Server.err_Code := -32601;
                             Server.err_Message := "method  not found";
                             Server.err_Data := JNull |};
                   Server.resp_Result := None |}), world)).
Proof.
  intros Hbody Hb.
  assert (Server.Decode (http.Body r) Server.zero_requestData =
    ({| Server.requests := [Server.zero_request]; Server.isBatch := false |}, None)) as Hdec.
  { rewrite Hbody. unfold Server.Decode, Server.UnmarshalJSON.
    destruct b as [| | | | | |members]; try done.
    cbn [Server.HasPrefix_bracket Server.unmarshal_request].
    by rewrite unknown_members_are_skipped. }
  split; [done|]. intros Hnone.
  unfold Server.ServeHTTP, Server.dispatch. rewrite Hdec. run_monad.
  cbn [Server.requests Server.serve_requests]. run_monad.
  rewrite serve_request_unknown by done. done.
Qed.

End Written.

(** An object whose one member is none of the four. *)
Lemma X9_empty_object_witness :
  Server.ServeHTTP Loop.calculator http.Writer
    (Loop.post (Value (JObj [("verbose", JBool true)]))) [] =
    (Return (Server.Single
               {| Server.resp_ID := JNull; Server.resp_Version := "2.0";
                  Server.resp_Error :=
                    Some {| Server.err_Code := -32601;
                            Server.err_Message := "method  not found";
                            Server.err_Data := JNull |};
                  Server.resp_Result := None |}), []).
Proof.
  apply (X9_body_without_method_is_a_call_of_the_empty_name Loop.calculator http.Writer
           (Loop.post (Value (JObj [("verbose", JBool true)]))) []
           (JObj [("verbose", JBool true)]) eq_refl);
    [by repeat constructor|reflexivity].
Defined.

(** A key written with the long s is the key jsonrpc. *)
Example long_s_is_folded :
  json.is_field "jsonrpc" (String (ascii_of_N 106)
                             (String (ascii_of_N 197) (String (ascii_of_N 191) "onrpc")))
    = true.
Proof. reflexivity. Qed.

(* ================================================================== *)
(** * More on registration: what append leaves alone *)
(* ================================================================== *)

Section Frame.

Context {A : Type}.
Implicit Types (st : Slices.store A) (s t u : Slices.slice) (xs : list A).

Lemma array_of_insert_eq st b l n :
  Slices.array_of {| Slices.arrays := <[b := l]> (Slices.arrays st); Slices.next := n |} b = l.
Proof. unfold Slices.array_of. cbn. by rewrite lookup_insert_eq. Qed.

Lemma array_of_insert_ne st b b' l n :
  b ≠ b' →
  Slices.array_of {| Slices.arrays := <[b := l]> (Slices.arrays st); Slices.next := n |} b' =
    Slices.array_of st b'.
Proof. intros Hne. unfold Slices.array_of. cbn. by rewrite lookup_insert_ne. Qed.

(** A new array for the elements of [s] followed by [xs]. *)
Lemma grown_frame st s xs :
  Slices.wf st → Slices.valid st s →
  let st' := {| Slices.arrays := <[Slices.next st := Slices.read st s ++ xs]> (Slices.arrays st);
                Slices.next := S (Slices.next st) |} in
  let s' := {| Slices.base := Some (Slices.next st); Slices.len := Slices.len s + length xs;
               Slices.cap := Slices.growslice_cap (Slices.len s + length xs) (Slices.cap s) |} in
  Slices.wf st' ∧ Slices.valid st' s' ∧
  (∀ u, Slices.valid st u → Slices.valid st' u) ∧
  (∀ t, Slices.valid st t → Slices.read st' t = Slices.read st t ∧ Slices.protected s' t).
Proof.
  intros Hwf Hs st' s'.
  assert (length (Slices.read st s) = Slices.len s) as Hlen.
  { unfold Slices.read, Slices.valid in *. destruct (Slices.base s) as [b|].
    - rewrite length_take. lia.
    - by rewrite Hs. }
  split; [|split; [|split]].
  - intros b [l Hb]. cbn in *. destruct (decide (Slices.next st = b)) as [<-|Hne]; [lia|].
    rewrite lookup_insert_ne in Hb by done.
    assert (b < Slices.next st) by (apply Hwf; eauto). lia.
  - unfold Slices.valid. cbn [Slices.base Slices.len Slices.next s' st'].
    split; [lia|]. subst st'. rewrite array_of_insert_eq, length_app. lia.
  - intros u Hu. unfold Slices.valid in *. destruct (Slices.base u) as [b|]; [|done].
    destruct Hu as [Hb Hl]. cbn [Slices.next st']. split; [lia|].
    subst st'. rewrite array_of_insert_ne by lia. done.
  - intros t Ht. split.
    + unfold Slices.read. unfold Slices.valid in Ht.
      destruct (Slices.base t) as [b|]; [|done].
      subst st'. rewrite array_of_insert_ne by lia. done.
    + unfold Slices.protected. right. left. cbn [Slices.base s'].
      unfold Slices.valid in Ht. destruct (Slices.base t) as [b|]; [|done].
      intros [= ->]. lia.
Qed.

(** What append keeps: the store stays well formed, the slice it returns
    and the slices that were valid are valid, and a slice that was
    protected from the appended one reads as before and stays protected
    from the slice returned. *)
Lemma append_frame st s xs :
  Slices.wf st → Slices.valid st s →
  let st' := fst (Slices.append st s xs) in
  let s' := snd (Slices.append st s xs) in
  Slices.wf st' ∧ Slices.valid st' s' ∧
  (∀ u, Slices.valid st u → Slices.valid st' u) ∧
  (∀ t, Slices.valid st t → Slices.protected s t →
        Slices.read st' t = Slices.read st t ∧ Slices.protected s' t).
Proof.
  intros Hwf Hs. unfold Slices.append.
  pose proof (grown_frame st s xs Hwf Hs) as Hgrown. cbv zeta in Hgrown.
  assert (let st1 := {| Slices.arrays := <[Slices.next st := Slices.read st s ++ xs]> (Slices.arrays st);
                        Slices.next := S (Slices.next st) |} in
          let s1 := {| Slices.base := Some (Slices.next st);
                       Slices.len := Slices.len s + length xs;
                       Slices.cap := Slices.growslice_cap (Slices.len s + length xs) (Slices.cap s) |} in
          Slices.wf st1 ∧ Slices.valid st1 s1 ∧
          (∀ u, Slices.valid st u → Slices.valid st1 u) ∧
          (∀ t, Slices.valid st t → Slices.protected s t →
                Slices.read st1 t = Slices.read st t ∧ Slices.protected s1 t)) as Hg.
  { cbv zeta. destruct Hgrown as (H1 & H2 & H3 & H4).
    split; [done|]. split; [done|]. split; [done|]. intros t Ht _. by apply H4. }
  cbv zeta in Hg.
  destruct (Slices.base s) as [b|] eqn:Hb.
  - destruct (Slices.len s + length xs <=? Slices.cap s)%nat eqn:Hfit; [|exact Hg].
    apply Nat.leb_le in Hfit. cbv zeta. cbn [fst snd].
    unfold Slices.valid in Hs. rewrite Hb in Hs. destruct Hs as [Hbn Hls].
    set (old := Slices.array_of st b) in *.
    set (new := take (Slices.len s) old ++ xs ++ drop (Slices.len s + length xs) old).
    assert (length old ≤ length new ∧ Slices.len s + length xs ≤ length new) as [Hgrow Hn].
    { unfold new. rewrite !length_app, length_take, length_drop. lia. }
    split; [|split; [|split]].
    + intros b' [l Hb']. cbn in *. destruct (decide (b = b')) as [<-|Hne]; [done|].
      rewrite lookup_insert_ne in Hb' by done. apply Hwf. eauto.
    + unfold Slices.valid. cbn [Slices.base Slices.len Slices.next].
      split; [done|]. by rewrite array_of_insert_eq.
    + intros u Hu. unfold Slices.valid in *. destruct (Slices.base u) as [b'|]; [|done].
      destruct Hu as [Hb' Hl]. cbn [Slices.next]. split; [done|].
      destruct (decide (b = b')) as [<-|Hne].
      * rewrite array_of_insert_eq. fold old in Hl. lia.
      * by rewrite array_of_insert_ne.
    + intros t Ht Hprot. split.
      * unfold Slices.read. destruct (Slices.base t) as [b'|] eqn:Hbt; [|done].
        destruct (decide (b = b')) as [<-|Hne]; [|by rewrite array_of_insert_ne].
        rewrite array_of_insert_eq. fold old.
        destruct Hprot as [Hfull|[Hne|Hle]].
        -- assert (xs = []) as -> by (apply length_zero_iff_nil; lia).
           unfold new. cbn [app length]. rewrite Nat.add_0_r. by rewrite take_drop.
        -- by rewrite Hbt, Hb in Hne.
        -- unfold new. rewrite take_app_le by (rewrite length_take; lia).
           rewrite take_take. f_equal. lia.
      * unfold Slices.protected in *. cbn [Slices.base Slices.len Slices.cap].
        destruct Hprot as [Hfull|[Hne|Hle]].
        -- left. lia.
        -- right. left. by rewrite <- Hb.
        -- right. right. lia.
  - destruct xs as [|x xs]; [|exact Hg].
    cbv zeta. cbn [fst snd]. split; [done|]. split; [done|]. split; [done|]. done.
Qed.

End Frame.

Section Options.

Implicit Types (o : Server.Options) (h : Server.Arrays) (opt : Server.Option)
               (opts : list Server.Option).

Lemma apply_options_snoc opts opt o h :
  Server.apply_options (opts ++ [opt]) o h =
    opt (fst (Server.apply_options opts o h)) (snd (Server.apply_options opts o h)).
Proof. unfold Server.apply_options. by rewrite fold_left_app. Qed.

(** The lists that the slices of some options hold. *)
Let befores o h := Slices.read (Server.before_arrays h) (Server.before o).
Let afters o h := Slices.read (Server.after_arrays h) (Server.after o).
Let middlewares o h := Slices.read (Server.middleware_arrays h) (Server.middleware o).

(** Each of the three options appends its arguments to one list and
    leaves the other two as they are. *)
Lemma Before_reads bs o h :
  befores (fst (Server.Before bs o h)) (snd (Server.Before bs o h)) = befores o h ++ bs ∧
  afters (fst (Server.Before bs o h)) (snd (Server.Before bs o h)) = afters o h ∧
  middlewares (fst (Server.Before bs o h)) (snd (Server.Before bs o h)) = middlewares o h.
Proof.
  unfold Server.Before, befores, afters, middlewares.
  pose proof (read_append (Server.before_arrays h) (Server.before o) bs) as Hr.
  by destruct (Slices.append _ _ bs).
Qed.

Lemma After_reads fs o h :
  befores (fst (Server.After fs o h)) (snd (Server.After fs o h)) = befores o h ∧
  afters (fst (Server.After fs o h)) (snd (Server.After fs o h)) = afters o h ++ fs ∧
  middlewares (fst (Server.After fs o h)) (snd (Server.After fs o h)) = middlewares o h.
Proof.
  unfold Server.After, befores, afters, middlewares.
  pose proof (read_append (Server.after_arrays h) (Server.after o) fs) as Hr.
  by destruct (Slices.append _ _ fs).
Qed.

Lemma EndpointMiddleware_reads ms o h :
  befores (fst (Server.EndpointMiddleware ms o h)) (snd (Server.EndpointMiddleware ms o h))
    = befores o h ∧
  afters (fst (Server.EndpointMiddleware ms o h)) (snd (Server.EndpointMiddleware ms o h))
    = afters o h ∧
  middlewares (fst (Server.EndpointMiddleware ms o h))
    (snd (Server.EndpointMiddleware ms o h)) = middlewares o h ++ ms.
Proof.
  unfold Server.EndpointMiddleware, befores, afters, middlewares.
  pose proof (read_append (Server.middleware_arrays h) (Server.middleware o) ms) as Hr.
  by destruct (Slices.append _ _ ms).
Qed.

(** The lists of a new server are those of the options state at the end. *)
Lemma NewServer_reads opts :
  Server.server_before (Server.NewServer opts) =
    befores (fst (Server.apply_options opts Server.zero_Options Server.no_arrays))
            (snd (Server.apply_options opts Server.zero_Options Server.no_arrays)) ∧
  Server.server_after (Server.NewServer opts) =
    afters (fst (Server.apply_options opts Server.zero_Options Server.no_arrays))
           (snd (Server.apply_options opts Server.zero_Options Server.no_arrays)) ∧
  Server.server_middleware (Server.NewServer opts) =
    middlewares (fst (Server.apply_options opts Server.zero_Options Server.no_arrays))
                (snd (Server.apply_options opts Server.zero_Options Server.no_arrays)).
Proof.
  unfold Server.NewServer, Server.server_before, Server.server_after,
    Server.server_middleware.
  by destruct (Server.apply_options opts _ _).
Qed.

(** X10. The options of NewServer accumulate in the order in which they
    are given: one more option Before, After or EndpointMiddleware at the
    end of the list of options adds its arguments at the end of the
    server's list of before hooks, of after hooks or of middleware, and
    leaves the other two lists as they are. A server made without options
    has three empty lists. *)
Theorem X10_NewServer_options_accumulate opts :
  (Server.server_before (Server.NewServer []) = [] ∧
   Server.server_after (Server.NewServer []) = [] ∧
   Server.server_middleware (Server.NewServer []) = []) ∧
  (∀ bs,
     let s := Server.NewServer opts in
     let s' := Server.NewServer (opts ++ [Server.Before bs]) in
     Server.server_before s' = Server.server_before s ++ bs ∧
     Server.server_after s' = Server.server_after s ∧
     Server.server_middleware s' = Server.server_middleware s) ∧
  (∀ fs,
     let s := Server.NewServer opts in
     let s' := Server.NewServer (opts ++ [Server.After fs]) in
     Server.server_before s' = Server.server_before s ∧
     Server.server_after s' = Server.server_after s ++ fs ∧
     Server.server_middleware s' = Server.server_middleware s) ∧
  (∀ ms,
     let s := Server.NewServer opts in
     let s' := Server.NewServer (opts ++ [Server.EndpointMiddleware ms]) in
     Server.server_before s' = Server.server_before s ∧
     Server.server_after s' = Server.server_after s ∧
     Server.server_middleware s' = Server.server_middleware s ++ ms).
Proof.
  split; [done|].
  destruct (NewServer_reads opts) as (Hb & Ha & Hm).
  split; [|split].
  - intros bs s s'. subst s s'.
    destruct (NewServer_reads (opts ++ [Server.Before bs])) as (Hb' & Ha' & Hm').
    rewrite Hb, Ha, Hm, Hb', Ha', Hm', apply_options_snoc. apply Before_reads.
  - intros fs s s'. subst s s'.
    destruct (NewServer_reads (opts ++ [Server.After fs])) as (Hb' & Ha' & Hm').
    rewrite Hb, Ha, Hm, Hb', Ha', Hm', apply_options_snoc. apply After_reads.
  - intros ms s s'. subst s s'.
    destruct (NewServer_reads (opts ++ [Server.EndpointMiddleware ms])) as (Hb' & Ha' & Hm').
    rewrite Hb, Ha, Hm, Hb', Ha', Hm', apply_options_snoc. apply EndpointMiddleware_reads.
Qed.

(** The lists of a method that has just been registered are those of the
    options state at the end of its registration. *)
Lemma Register_reads (s : Server.Server) method ep dec opts :
  let o0 := {| Server.before := Server.before (Server.server_opts s);
               Server.after := Server.after (Server.server_opts s);
               Server.middleware := Server.middleware (Server.server_opts s) |} in
  let oh := Server.apply_options opts o0 (Server.heap s) in
  let s' := Server.Register s method ep dec opts in
  ∃ sm, Server.methods s' !! method = Some sm ∧
        Server.endpoint sm = ep ∧ Server.reqDecode sm = dec ∧
        Server.method_before s' sm = befores (fst oh) (snd oh) ∧
        Server.method_after s' sm = afters (fst oh) (snd oh) ∧
        Server.method_middleware s' sm = middlewares (fst oh) (snd oh).
Proof.
  cbv zeta. unfold Server.Register.
  destruct (Server.apply_options opts _ (Server.heap s)) as [o h].
  eexists. cbn [Server.methods]. split; [apply lookup_insert_eq|]. done.
Qed.

(** X11. The lists a method has when its registration returns. Registered
    without options, a method has the before hooks, the after hooks and
    the middleware of the server. One more option at the end of the
    options of the registration adds its arguments at the end of the
    corresponding list and leaves the other two as they are: the lists of
    the server come first, the method's own after them, so that the
    middleware of the server wrap the method's own. *)
Theorem X11_Register_puts_server_lists_first (s : Server.Server) method ep dec opts :
  (∃ sm, Server.methods (Server.Register s method ep dec []) !! method = Some sm ∧
         Server.method_before (Server.Register s method ep dec []) sm =
           Server.server_before s ∧
         Server.method_after (Server.Register s method ep dec []) sm =
           Server.server_after s ∧
         Server.method_middleware (Server.Register s method ep dec []) sm =
           Server.server_middleware s) ∧
  ∃ sm, Server.methods (Server.Register s method ep dec opts) !! method = Some sm ∧
    let s1 := Server.Register s method ep dec opts in
    (∀ bs, ∃ sm',
       let s2 := Server.Register s method ep dec (opts ++ [Server.Before bs]) in
       Server.methods s2 !! method = Some sm' ∧
       Server.method_before s2 sm' = Server.method_before s1 sm ++ bs ∧
       Server.method_after s2 sm' = Server.method_after s1 sm ∧
       Server.method_middleware s2 sm' = Server.method_middleware s1 sm) ∧
    (∀ fs, ∃ sm',
       let s2 := Server.Register s method ep dec (opts ++ [Server.After fs]) in
       Server.methods s2 !! method = Some sm' ∧
       Server.method_before s2 sm' = Server.method_before s1 sm ∧
       Server.method_after s2 sm' = Server.method_after s1 sm ++ fs ∧
       Server.method_middleware s2 sm' = Server.method_middleware s1 sm) ∧
    (∀ ms, ∃ sm',
       let s2 := Server.Register s method ep dec (opts ++ [Server.EndpointMiddleware ms]) in
       Server.methods s2 !! method = Some sm' ∧
       Server.method_before s2 sm' = Server.method_before s1 sm ∧
       Server.method_after s2 sm' = Server.method_after s1 sm ∧
       Server.method_middleware s2 sm' = Server.method_middleware s1 sm ++ ms ∧
       ∀ next, middlewareChain (Server.method_middleware s2 sm') next =
               middlewareChain (Server.method_middleware s1 sm) (middlewareChain ms next)).
Proof.
  split.
  - destruct (Register_reads s method ep dec []) as (sm & Hsm & _ & _ & Hb & Ha & Hm).
    exists sm. split; [done|]. rewrite Hb, Ha, Hm. done.
  - destruct (Register_reads s method ep dec opts) as (sm & Hsm & _ & _ & Hb & Ha & Hm).
    exists sm. split; [done|]. cbv zeta. split; [|split].
    + intros bs.
      destruct (Register_reads s method ep dec (opts ++ [Server.Before bs]))
        as (sm' & Hsm' & _ & _ & Hb' & Ha' & Hm').
      exists sm'. split; [done|].
      rewrite Hb, Ha, Hm, Hb', Ha', Hm', apply_options_snoc. apply Before_reads.
    + intros fs.
      destruct (Register_reads s method ep dec (opts ++ [Server.After fs]))
        as (sm' & Hsm' & _ & _ & Hb' & Ha' & Hm').
      exists sm'. split; [done|].
      rewrite Hb, Ha, Hm, Hb', Ha', Hm', apply_options_snoc. apply After_reads.
    + intros ms.
      destruct (Register_reads s method ep dec (opts ++ [Server.EndpointMiddleware ms]))
        as (sm' & Hsm' & _ & _ & Hb' & Ha' & Hm').
      exists sm'. split; [done|].
      rewrite Hb, Ha, Hm, Hb', Ha', Hm', apply_options_snoc.
      destruct (EndpointMiddleware_reads ms
                  (fst (Server.apply_options opts
                          {| Server.before := Server.before (Server.server_opts s);
                             Server.after := Server.after (Server.server_opts s);
                             Server.middleware := Server.middleware (Server.server_opts s) |}
                          (Server.heap s)))
                  (snd (Server.apply_options opts
                          {| Server.before := Server.before (Server.server_opts s);
                             Server.after := Server.after (Server.server_opts s);
                             Server.middleware := Server.middleware (Server.server_opts s) |}
                          (Server.heap s)))) as (E1 & E2 & E3).
      split; [done|]. split; [done|]. split; [done|].
      intros next. rewrite E3. apply middlewareChain_app.
Qed.

End Options.

Section OptionsFrame.

Implicit Types (o : Server.Options) (h : Server.Arrays) (opt : Server.Option)
               (opts : list Server.Option) (tb ta tm : Slices.slice).

(** The arrays are well formed, the slices of the options are valid, and
    three slices, one for each list, are valid and protected from them. *)
Let inv h o tb ta tm : Prop :=
  (Slices.wf (Server.before_arrays h) ∧ Slices.wf (Server.after_arrays h) ∧
   Slices.wf (Server.middleware_arrays h)) ∧
  (Slices.valid (Server.before_arrays h) (Server.before o) ∧
   Slices.valid (Server.after_arrays h) (Server.after o) ∧
   Slices.valid (Server.middleware_arrays h) (Server.middleware o)) ∧
  (Slices.valid (Server.before_arrays h) tb ∧ Slices.valid (Server.after_arrays h) ta ∧
   Slices.valid (Server.middleware_arrays h) tm) ∧
  (Slices.protected (Server.before o) tb ∧ Slices.protected (Server.after o) ta ∧
   Slices.protected (Server.middleware o) tm).

Let same_reads h h' tb ta tm : Prop :=
  Slices.read (Server.before_arrays h') tb = Slices.read (Server.before_arrays h) tb ∧
  Slices.read (Server.after_arrays h') ta = Slices.read (Server.after_arrays h) ta ∧
  Slices.read (Server.middleware_arrays h') tm = Slices.read (Server.middleware_arrays h) tm.

Lemma offered_frame opt o h tb ta tm :
  Server.offered opt → inv h o tb ta tm →
  inv (snd (opt o h)) (fst (opt o h)) tb ta tm ∧ same_reads h (snd (opt o h)) tb ta tm.
Proof.
  intros Hopt ((Hwb & Hwa & Hwm) & (Hvb & Hva & Hvm) & (Htb & Hta & Htm) & (Hpb & Hpa & Hpm)).
  unfold inv, same_reads.
  destruct Hopt as [[bs ->]|[[fs ->]|[ms ->]]].
  - unfold Server.Before.
    destruct (append_frame (Server.before_arrays h) (Server.before o) bs Hwb Hvb)
      as (Hw' & Hv' & _ & Ht').
    destruct (Ht' tb Htb Hpb) as [Hr Hp'].
    destruct (append_frame (Server.before_arrays h) (Server.before o) bs Hwb Hvb)
      as (_ & _ & Hu & _). specialize (Hu tb Htb).
    destruct (Slices.append _ _ bs) as [st sl]. cbn [fst snd] in *. done.
  - unfold Server.After.
    destruct (append_frame (Server.after_arrays h) (Server.after o) fs Hwa Hva)
      as (Hw' & Hv' & Hu & Ht').
    destruct (Ht' ta Hta Hpa) as [Hr Hp']. specialize (Hu ta Hta).
    destruct (Slices.append _ _ fs) as [st sl]. cbn [fst snd] in *. done.
  - unfold Server.EndpointMiddleware.
    destruct (append_frame (Server.middleware_arrays h) (Server.middleware o) ms Hwm Hvm)
      as (Hw' & Hv' & Hu & Ht').
    destruct (Ht' tm Htm Hpm) as [Hr Hp']. specialize (Hu tm Htm).
    destruct (Slices.append _ _ ms) as [st sl]. cbn [fst snd] in *. done.
Qed.

Lemma apply_options_frame opts : ∀ o h tb ta tm,
  Forall Server.offered opts → inv h o tb ta tm →
  inv (snd (Server.apply_options opts o h)) (fst (Server.apply_options opts o h)) tb ta tm ∧
  same_reads h (snd (Server.apply_options opts o h)) tb ta tm.
Proof.
  induction opts as [|opt opts IH]; intros o h tb ta tm Hall Hinv.
  - split; [done|]. by unfold same_reads.
  - apply Forall_cons in Hall as [Hopt Hall].
    destruct (offered_frame opt o h tb ta tm Hopt Hinv) as [Hinv1 (R1 & R2 & R3)].
    unfold Server.apply_options in *. cbn [fold_left fst snd].
    destruct (opt o h) as [o1 h1]. cbn [fst snd] in *.
    destruct (IH o1 h1 tb ta tm Hall Hinv1) as [Hinv2 (S1 & S2 & S3)].
    split; [exact Hinv2|]. unfold same_reads.
    rewrite S1, S2, S3. done.
Qed.

(** X12. A server that has just been made knows no method. Register binds
    the name to the endpoint and the decoder it is given, in place of what
    the name was bound to, and leaves the bindings of all other names as
    they are. *)
Theorem X12_Register_binds_one_name (s : Server.Server) method ep dec opts :
  (∀ options name, Server.methods (Server.NewServer options) !! name = None) ∧
  (∃ sm, Server.methods (Server.Register s method ep dec opts) !! method = Some sm ∧
         Server.endpoint sm = ep ∧ Server.reqDecode sm = dec) ∧
  (∀ name, name ≠ method →
     Server.methods (Server.Register s method ep dec opts) !! name =
       Server.methods s !! name).
Proof.
  split; [|split].
  - intros options name. unfold Server.NewServer.
    by destruct (Server.apply_options options _ _).
  - destruct (Register_reads s method ep dec opts) as (sm & Hsm & He & Hd & _).
    by exists sm.
  - intros name Hne. unfold Server.Register.
    destruct (Server.apply_options opts _ _) as [o h]. cbn [Server.methods].
    by apply lookup_insert_ne.
Qed.

Lemma NewServer_heap_ok opts :
  Forall Server.offered opts → Server.heap_ok (Server.NewServer opts).
Proof.
  revert opts.
  intros opts Hall.
  destruct (apply_options_frame opts Server.zero_Options Server.no_arrays
              Slices.nil Slices.nil Slices.nil Hall) as [Hinv _].
  { assert (∀ B, Slices.wf (@Slices.empty B)) as Hwf
      by (intros B b [l Hl]; cbn in Hl; by rewrite lookup_empty in Hl).
    assert (∀ t, Slices.protected Slices.nil t ∧ Slices.protected t t) as Hp
      by (by intros t; split; [left|right; right]).
    unfold inv. cbn.
    split; [by split; [|split]; apply Hwf|].
    split; [done|]. split; [done|]. by split; [|split]; apply Hp. }
  unfold Server.NewServer, Server.heap_ok.
  destruct (Server.apply_options opts _ _) as [o h]. cbn [fst snd] in *.
  destruct Hinv as ((? & ? & ?) & (? & ? & ?) & _). done.
Qed.

Lemma Register_keeps_server (s : Server.Server) method ep dec opts :
  Server.heap_ok s → Forall Server.offered opts →
  let s' := Server.Register s method ep dec opts in
  Server.heap_ok s' ∧
  Server.server_before s' = Server.server_before s ∧
  Server.server_after s' = Server.server_after s ∧
  Server.server_middleware s' = Server.server_middleware s.
Proof.
  revert s method ep dec opts.
  intros s method ep dec opts (Hwb & Hwa & Hwm & Hvb & Hva & Hvm) Hall s'.
  destruct (apply_options_frame opts
              {| Server.before := Server.before (Server.server_opts s);
                 Server.after := Server.after (Server.server_opts s);
                 Server.middleware := Server.middleware (Server.server_opts s) |}
              (Server.heap s)
              (Server.before (Server.server_opts s)) (Server.after (Server.server_opts s))
              (Server.middleware (Server.server_opts s)) Hall)
    as [Hinv (R1 & R2 & R3)].
  { unfold inv. cbn. split; [done|]. split; [done|]. split; [done|].
    by split; [|split]; right; right. }
  subst s'. unfold Server.Register, Server.heap_ok, Server.server_before,
    Server.server_after, Server.server_middleware.
  destruct (Server.apply_options opts _ _) as [o h]. cbn [fst snd] in *.
  cbn [Server.heap Server.server_opts].
  destruct Hinv as ((? & ? & ?) & _ & (? & ? & ?) & _). done.
Qed.

(** X13. For servers made by NewServer and extended by Register, with the
    options that the package offers: the arrays behind the options of the
    server stay well formed, and a registration, whatever it appends for
    its method, leaves the server's own lists of before hooks, after hooks
    and middleware as they were. *)
Theorem X13_registrations_keep_the_server_lists :
  (∀ opts, Forall Server.offered opts → Server.heap_ok (Server.NewServer opts)) ∧
  (∀ (s : Server.Server) method ep dec opts,
     Server.heap_ok s → Forall Server.offered opts →
     let s' := Server.Register s method ep dec opts in
     Server.heap_ok s' ∧
     Server.server_before s' = Server.server_before s ∧
     Server.server_after s' = Server.server_after s ∧
     Server.server_middleware s' = Server.server_middleware s).
Proof. split; [exact NewServer_heap_ok|exact Register_keeps_server]. Qed.

(** X14. A registration leaves the lists of a method that is already
    registered as they were, whenever the slices of that method are
    protected from the slices of the server's options: for each of the
    three lists, the slice of the server has no spare capacity, or the
    slice of the method lies in another array, or it is not longer than
    the slice of the server. *)
Theorem X14_protected_methods_keep_their_lists
    (s : Server.Server) (sm : Server.ServerMethod) method ep dec opts :
  Server.heap_ok s → Forall Server.offered opts →
  Slices.valid (Server.before_arrays (Server.heap s)) (Server.before (Server.opts sm)) →
  Slices.valid (Server.after_arrays (Server.heap s)) (Server.after (Server.opts sm)) →
  Slices.valid (Server.middleware_arrays (Server.heap s)) (Server.middleware (Server.opts sm)) →
  Slices.protected (Server.before (Server.server_opts s)) (Server.before (Server.opts sm)) →
  Slices.protected (Server.after (Server.server_opts s)) (Server.after (Server.opts sm)) →
  Slices.protected (Server.middleware (Server.server_opts s))
    (Server.middleware (Server.opts sm)) →
  let s' := Server.Register s method ep dec opts in
  Server.method_before s' sm = Server.method_before s sm ∧
  Server.method_after s' sm = Server.method_after s sm ∧
  Server.method_middleware s' sm = Server.method_middleware s sm.
Proof.
  intros (Hwb & Hwa & Hwm & Hvb & Hva & Hvm) Hall Htb Hta Htm Hpb Hpa Hpm s'.
  destruct (apply_options_frame opts
              {| Server.before := Server.before (Server.server_opts s);
                 Server.after := Server.after (Server.server_opts s);
                 Server.middleware := Server.middleware (Server.server_opts s) |}
              (Server.heap s)
              (Server.before (Server.opts sm)) (Server.after (Server.opts sm))
              (Server.middleware (Server.opts sm)) Hall)
    as [_ (R1 & R2 & R3)].
  { unfold inv. cbn. done. }
  subst s'. unfold Server.Register, Server.method_before, Server.method_after,
    Server.method_middleware.
  destruct (Server.apply_options opts _ _) as [o h]. cbn [fst snd] in *.
  cbn [Server.heap]. done.
Qed.

End OptionsFrame.

Lemma X14_full_server_witness :
  match Server.methods Loop.full_x !! "x" with
  | Some sm =>
      Server.method_middleware
        (Server.Register Loop.full_x "y" Loop.echo Loop.params_as_value
           [Server.EndpointMiddleware [Loop.tracer "m2"]]) sm =
      Server.method_middleware Loop.full_x sm
  | None => False
  end.
Proof.
  assert (Forall Server.offered
            [Server.EndpointMiddleware [Loop.tracer "a"; Loop.tracer "b"; Loop.tracer "c"]])
    as H0 by (constructor; [right; right; by eexists|constructor]).
  assert (Forall Server.offered [Server.EndpointMiddleware [Loop.tracer "m1"]])
    as H1 by (constructor; [right; right; by eexists|constructor]).
  assert (Forall Server.offered [Server.EndpointMiddleware [Loop.tracer "m2"]])
    as H2 by (constructor; [right; right; by eexists|constructor]).
  pose proof (proj1 (Register_keeps_server Loop.full_base "x" Loop.echo
                       Loop.params_as_value _ (NewServer_heap_ok _ H0) H1)) as Hok.
  let v := eval vm_compute in (Server.methods Loop.full_x !! "x") in
  lazymatch v with
  | Some ?sm =>
      change (Server.methods Loop.full_x !! "x") with (Some sm); cbv beta iota;
      apply (X14_protected_methods_keep_their_lists Loop.full_x sm "y" Loop.echo
               Loop.params_as_value _ Hok H2)
  end.
  all: vm_compute; first [lia | by left | by split; lia | by right; left | idtac].
Defined.

(* ================================================================== *)
(** * From the client to the server and back: the wire *)
(* ================================================================== *)

Section Wire.









End Wire.


(** The id 2^53 + 1 reaches the server as 2^53. *)
Example id_beyond_2_53_is_rounded :
  Server.req_ID
    (fst (Server.unmarshal_request (JObj [("id", JNum 9007199254740993)])
            Server.zero_request)) = JNum 9007199254740992.
Proof. vm_compute. reflexivity. Qed.

Section WireBack.







End WireBack.


(* ================================================================== *)
(** * More on the client: options *)
(* ================================================================== *)

Section ClientOptions.

Variable url_Parse : string -> option goerror.
Variable DefaultClient : Client.HTTPClient.

(** X17. The options of NewClient. A client made without options has no
    hooks, the transport http.DefaultClient and the counter 0. One more
    option at the end of the list: BeforeRequest and AfterRequest add their
    arguments at the end of the list of before hooks or of after hooks,
    WithHTTPClient replaces the transport, and each leaves the rest as it
    is; the target is the one given. *)
Theorem X17_NewClient_options_accumulate (target : string)
    (options : list Client.ClientOption) :
  let c := Client.NewClient DefaultClient target options in
  (Client.before (Client.opts (Client.NewClient DefaultClient target [])) = [] ∧
   Client.after (Client.opts (Client.NewClient DefaultClient target [])) = [] ∧
   Client.Do DefaultClient (Client.NewClient DefaultClient target []) = DefaultClient) ∧
  (Client.target c = target ∧ Client.incrementID c = 0%N) ∧
  (∀ bs, let c' := Client.NewClient DefaultClient target (options ++ [Client.BeforeRequest bs]) in
     Client.before (Client.opts c') = Client.before (Client.opts c) ++ bs ∧
     Client.after (Client.opts c') = Client.after (Client.opts c) ∧
     Client.Do DefaultClient c' = Client.Do DefaultClient c) ∧
  (∀ fs, let c' := Client.NewClient DefaultClient target (options ++ [Client.AfterRequest fs]) in
     Client.before (Client.opts c') = Client.before (Client.opts c) ∧
     Client.after (Client.opts c') = Client.after (Client.opts c) ++ fs ∧
     Client.Do DefaultClient c' = Client.Do DefaultClient c) ∧
  (∀ t, let c' := Client.NewClient DefaultClient target (options ++ [Client.WithHTTPClient t]) in
     Client.before (Client.opts c') = Client.before (Client.opts c) ∧
     Client.after (Client.opts c') = Client.after (Client.opts c) ∧
     Client.Do DefaultClient c' = t).
Proof.
  cbv zeta. unfold Client.NewClient, Client.Do. split; [done|]. split; [done|].
  split; [|split]; intros x; rewrite fold_left_app; cbn [fold_left];
    destruct (fold_left _ options _) as [cx bs0 fs0 [t0|]]; done.
Qed.

(** A client with another context in its options. *)
Let with_ctx (x : option Context) (c : Client.Client) : Client.Client :=
  {| Client.target := Client.target c; Client.incrementID := Client.incrementID c;
     Client.opts := {| Client.ctx := x; Client.before := Client.before (Client.opts c);
                       Client.after := Client.after (Client.opts c);
                       Client.httpClient := Client.httpClient (Client.opts c) |} |}.

Let with_ctx_b (x : option Context) (b : Client.building) : Client.building :=
  {| Client.b_client := with_ctx x (Client.b_client b); Client.b_req := Client.b_req b;
     Client.b_idsIndex := Client.b_idsIndex b;
     Client.b_rpcRequests := Client.b_rpcRequests b |}.

Let lift {A B} (f : A → B) (o : outcome A) : outcome B :=
  match o with
  | Return a => Return (f a)
  | Raise err => Raise err
  | Panic msg => Panic msg
  end.

Lemma build_requests_ctx x requests : ∀ i b world,
  Client.build_requests i requests (with_ctx_b x b) world =
    (lift (with_ctx_b x) (fst (Client.build_requests i requests b world)),
     snd (Client.build_requests i requests b world)).
Proof.
  induction requests as [|request requests IH]; intros i b world; [done|].
  cbn [Client.build_requests]. run_monad.
  assert (Client.build_request i request (with_ctx_b x b) world =
            (lift (with_ctx_b x) (fst (Client.build_request i request b world)),
             snd (Client.build_request i request b world))) as ->.
  { unfold Client.build_request. run_monad. cbn [with_ctx_b Client.b_req].
    destruct (Client.run_before _ _ world) as [req world1].
    destruct (Client.MakeRequest request) as [methodName params].
    cbn [Client.autoIncrementID Client.b_client Client.b_rpcRequests Client.b_idsIndex].
    unfold Client.autoIncrementID. cbn.
    by destruct (Client.set_index _ _ _). }
  destruct (Client.build_request i request b world) as [[b1|err|msg] world1];
    cbn [fst snd lift]; [apply IH|done|done].
Qed.

Lemma doRequests_ctx x c ctx requests world :
  Client.doRequests url_Parse DefaultClient (with_ctx x c) ctx requests world =
    ((with_ctx x (fst (fst (Client.doRequests url_Parse DefaultClient c ctx requests world))),
      snd (fst (Client.doRequests url_Parse DefaultClient c ctx requests world))),
     snd (Client.doRequests url_Parse DefaultClient c ctx requests world)).
Proof.
  unfold Client.doRequests, Client.prepare. run_monad.
  cbn [with_ctx Client.target Client.set_incrementID Client.opts Client.before].
  destruct (Client.NewRequest url_Parse "POST" (Client.target c)) as [req|err]; [|done].
  destruct (Client.run_before _ _ world) as [req1 world1].
  match goal with |- context [Client.build_requests 0 requests ?b0 world1] =>
    change b0 with (with_ctx_b x
      {| Client.b_client := Client.set_incrementID c 0; Client.b_req := req1;
         Client.b_idsIndex := ∅;
         Client.b_rpcRequests := replicate (length requests) Client.zero_clientReq |})
  end.
  rewrite build_requests_ctx.
  destruct (Client.build_requests 0 requests _ world1) as [[b|err|msg] world2];
    cbn [fst snd lift]; [|done|done].
  unfold Client.exchange. cbn [with_ctx_b Client.b_rpcRequests Client.b_req
    Client.b_client Client.b_idsIndex].
  destruct (Client.encode_requests _) as [body|err]; [|done]. run_monad.
  change (Client.Do DefaultClient (with_ctx x (Client.b_client b)))
    with (Client.Do DefaultClient (Client.b_client b)).
  destruct (Client.Do DefaultClient (Client.b_client b) _ world2) as [[resp|err] world3];
    [|done].
  destruct (negb _); [done|].
  destruct (http.RespBody resp) as [copied|err]; [|done].
  by destruct (_ <? _)%Z.
Qed.

(** X18. The context that WithContext puts into the options of a client
    is never read: with any other context there, or with none, every call
    of ExecuteWithContext gives the same outcome, leaves the world and the
    counter of the client as the same call does on the client as it is. *)
Theorem X18_option_context_is_never_read (x : option Context) (c : Client.Client)
    (ctx : Context) (requests : list Client.Requester) (world : World) :
  let c_x :=
    {| Client.target := Client.target c; Client.incrementID := Client.incrementID c;
       Client.opts := {| Client.ctx := x; Client.before := Client.before (Client.opts c);
                         Client.after := Client.after (Client.opts c);
                         Client.httpClient := Client.httpClient (Client.opts c) |} |} in
  let run := Client.ExecuteWithContext url_Parse DefaultClient c ctx requests world in
  let run_x := Client.ExecuteWithContext url_Parse DefaultClient c_x ctx requests world in
  snd (fst run_x) = snd (fst run) ∧
  snd run_x = snd run ∧
  Client.incrementID (fst (fst run_x)) = Client.incrementID (fst (fst run)).
Proof.
  cbv zeta. unfold Client.ExecuteWithContext. run_monad.
  pose proof (doRequests_ctx x c ctx requests world) as Hd.
  unfold with_ctx in Hd at 1. rewrite Hd. clear Hd.
  destruct (Client.doRequests url_Parse DefaultClient c ctx requests world)
    as [[c1 [[[data idsIndex] resp]|err|msg]] world1]; cbn [fst snd]; [|done|done].
  assert (∀ w, Client.decode_and_correlate (with_ctx x c1) requests data idsIndex resp w =
               Client.decode_and_correlate c1 requests data idsIndex resp w) as ->.
  { intros w. unfold Client.decode_and_correlate.
    destruct (Client.unmarshal_responses data _) as [responses [err|]]; [done|].
    run_monad.
    assert (∀ results w0,
              Client.correlate (with_ctx x c1) requests idsIndex resp responses results w0 =
              Client.correlate c1 requests idsIndex resp responses results w0) as ->; [|done].
    induction responses as [|response responses IH]; intros results w0; [done|].
    cbn [Client.correlate]. run_monad.
    change (Client.correlate_one (with_ctx x c1) requests idsIndex resp response results w0)
      with (Client.correlate_one c1 requests idsIndex resp response results w0).
    destruct (Client.correlate_one c1 requests idsIndex resp response results w0)
      as [[results1|err|msg] w1]; [apply IH|done|done]. }
  by destruct (Client.decode_and_correlate c1 requests data idsIndex resp world1).
Qed.

End ClientOptions.

(* ================================================================== *)
(** * More on the client: calls that fail *)
(* ================================================================== *)

Section Failures.

Variable url_Parse : string -> option goerror.
Variable DefaultClient : Client.HTTPClient.

Implicit Types (c : Client.Client) (requests : list Client.Requester) (world : World).

Lemma encode_elements_ok (rs : list Client.clientReq) :
  (∀ i r, rs !! i = Some r → ∃ j, json.Marshal (Client.creq_Params r) = Ok j) →
  ∃ js, Client.encode_elements rs = Ok js ∧ length js = length rs.
Proof.
  induction rs as [|r rs IH]; intros Hall; [by exists []|].
  destruct (Hall 0 r eq_refl) as [j Hj].
  destruct IH as (js & Hjs & Hlen); [intros i r' Hi; by apply (Hall (S i))|].
  cbn [Client.encode_elements]. unfold Client.encode_clientReq. rewrite Hj, Hjs.
  eexists. split; [done|]. cbn. by rewrite Hlen.
Qed.

Lemma encode_elements_fail (rs : list Client.clientReq) i r e :
  rs !! i = Some r → json.Marshal (Client.creq_Params r) = Fail e →
  ∃ err, Client.encode_elements rs = Fail err.
Proof.
  revert i. induction rs as [|r0 rs IH]; intros i Hi He; [done|].
  cbn [Client.encode_elements].
  destruct (Client.encode_clientReq r0) as [j|err] eqn:Hj; [|by eexists].
  destruct i as [|i]; cbn in Hi.
  - injection Hi as ->. unfold Client.encode_clientReq in Hj. by rewrite He in Hj.
  - destruct (IH i Hi He) as [err ->]. by eexists.
Qed.

(** X19. Calls that fail before anything is sent. When the target of the
    client is not a URL, ExecuteWithContext returns the error of
    http.NewRequest at once: no hook runs, nothing is sent, and the counter
    of the client is left at 0. When the parameters of one of the requests
    cannot be encoded, the call returns an error after the hooks have run
    and the ids have been assigned, and nothing is sent: the world is the
    one that the preparation of the batch has left. In neither case is
    there a batch result. *)
Theorem X19_failures_before_the_exchange c ctx requests world :
  (∀ err, url_Parse (Client.target c) = Some err →
     Client.ExecuteWithContext url_Parse DefaultClient c ctx requests world =
       ((Client.set_incrementID c 0, Raise err), world)) ∧
  (url_Parse (Client.target c) = None →
   (N.of_nat (length requests) < 2 ^ 64)%N →
   ∀ i request e,
     requests !! i = Some request →
     json.Marshal (snd (Client.MakeRequest request)) = Fail e →
     ∃ b world0 err,
       Client.prepare url_Parse c ctx requests world = (Return b, world0) ∧
       Client.ExecuteWithContext url_Parse DefaultClient c ctx requests world =
         ((Client.b_client b, Raise err), world0)).
Proof.
  split.
  - intros err Hurl. unfold Client.ExecuteWithContext, Client.doRequests, Client.prepare,
      Client.NewRequest. cbn [Client.target Client.set_incrementID]. by rewrite Hurl.
  - intros Hurl Hlt i request e Hi He.
    destruct (prepare_spec url_Parse c ctx requests world Hurl Hlt)
      as (b & world0 & Hprep & _ & _ & Hwire & _).
    destruct (encode_elements_fail (Client.b_rpcRequests b) i _ e (Hwire _ _ Hi) He)
      as [err Herr].
    exists b, world0, err. split; [done|].
    unfold Client.ExecuteWithContext, Client.doRequests. run_monad. rewrite Hprep.
    unfold Client.exchange, Client.encode_requests. by rewrite Herr.
Qed.

(** The loop over the requests leaves the options of the client alone. *)
Lemma build_requests_opts requests : ∀ i b world b' world',
  Client.build_requests i requests b world = (Return b', world') →
  Client.opts (Client.b_client b') = Client.opts (Client.b_client b).
Proof.
  induction requests as [|request requests IH]; intros i b world b' world';
    cbn [Client.build_requests]; run_monad.
  - by intros [= <- <-].
  - unfold Client.build_request. run_monad.
    destruct (Client.run_before (Client.Before request) _ world) as [req1 world1].
    destruct (Client.MakeRequest request) as [methodName params].
    unfold Client.autoIncrementID.
    destruct (Client.set_index _ _ _) as [rpcRequests|]; [|done].
    intros Hrest. by rewrite (IH _ _ _ _ _ Hrest).
Qed.

Lemma prepare_opts c ctx requests world b world0 :
  Client.prepare url_Parse c ctx requests world = (Return b, world0) →
  Client.opts (Client.b_client b) = Client.opts c.
Proof.
  unfold Client.prepare.
  destruct (Client.NewRequest _ _ _) as [req|err]; [|done]. run_monad.
  destruct (Client.run_before _ _ world) as [req1 world1].
  intros Hrun. by rewrite (build_requests_opts _ _ _ _ _ _ Hrun).
Qed.

(** X20. Calls that fail in the exchange. The call hands one request to
    the transport: the request that the before hooks have left, with the
    encoded batch as its body, in the world that the hooks have left. The
    call returns an error, and no batch result, when the transport fails
    on this request (the error of the transport), when the status of the
    response is not 200 (an error made of the status line), and when the
    body cannot be read to its end (the error of the read). When the body
    is longer than the working buffer of 10485760 bytes, the call panics
    on the slice of that buffer. *)
Theorem X20_failures_of_the_exchange c ctx requests world b world0 body :
  Client.prepare url_Parse c ctx requests world = (Return b, world0) →
  Client.encode_requests (Client.b_rpcRequests b) = Ok body →
  let sent := {| http.Method := http.Method (Client.b_req b);
                 http.URL := http.URL (Client.b_req b);
                 http.Ctx := http.Ctx (Client.b_req b);
                 http.Body := Value body |} in
  let answer := fst (Client.Do DefaultClient c sent world0) in
  let outcome_of :=
    snd (fst (Client.ExecuteWithContext url_Parse DefaultClient c ctx requests world)) in
  (∀ err, answer = Fail err → outcome_of = Raise err) ∧
  (∀ resp, answer = Ok resp → http.StatusCode resp ≠ 200%Z →
           outcome_of = Raise (ErrText (http.Status resp))) ∧
  (∀ resp err, answer = Ok resp → http.StatusCode resp = 200%Z →
               http.RespBody resp = Fail err → outcome_of = Raise err) ∧
  (∀ resp copied, answer = Ok resp → http.StatusCode resp = 200%Z →
                  http.RespBody resp = Ok copied →
                  (10485760 < http.written copied)%Z →
                  outcome_of = Panic "slice bounds out of range").
Proof.
  intros Hprep Hbody sent answer outcome_of.
  assert (Client.Do DefaultClient (Client.b_client b) = Client.Do DefaultClient c) as HDo.
  { unfold Client.Do. by rewrite (prepare_opts _ _ _ _ _ _ Hprep). }
  subst outcome_of answer.
  unfold Client.ExecuteWithContext, Client.doRequests. run_monad.
  rewrite Hprep. unfold Client.exchange. rewrite Hbody. run_monad.
  rewrite HDo. fold sent.
  destruct (Client.Do DefaultClient c sent world0) as [rr world1]. cbn [fst].
  split; [|split; [|split]].
  - by intros err ->.
  - intros resp -> Hcode. apply Z.eqb_neq in Hcode. by rewrite Hcode.
  - intros resp err -> Hcode Hread. by rewrite Hcode, Hread.
  - intros resp copied -> Hcode Hread Hw. rewrite Hcode, Hread. cbn [negb].
    unfold Client.working_buffer. apply Z.ltb_lt in Hw. by rewrite Hw.
Qed.

End Failures.

(** A transport that fails on every request fails on the one it is
    given. *)
Lemma X20_no_transport_witness :
  snd (fst (Client.ExecuteWithContext Loop.url_ok Loop.no_transport
              (Loop.client_of Loop.no_transport) []
              [Loop.call "a" JNull; Loop.call "b" JNull] [])) =
    Raise (ErrText "no transport").
Proof.
  exact (proj1 (X20_failures_of_the_exchange Loop.url_ok Loop.no_transport
                  (Loop.client_of Loop.no_transport) []
                  [Loop.call "a" JNull; Loop.call "b" JNull] [] _ _ _
                  eq_refl eq_refl) _ eq_refl).
Defined.

(* ================================================================== *)
(** * More on the client: the correlation table and the results *)
(* ================================================================== *)

Section Table.

Variable url_Parse : string -> option goerror.
Variable DefaultClient : Client.HTTPClient.

Implicit Types (c : Client.Client) (b : Client.building)
               (requests : list Client.Requester) (world : World).

(** The loop of doRequests adds to the table the ids of its own requests
    and nothing else. *)
Lemma build_requests_table requests : ∀ i b world b' world',
  Client.incrementID (Client.b_client b) = N.of_nat i →
  i + length requests ≤ length (Client.b_rpcRequests b) →
  (N.of_nat (i + length requests) < 2 ^ 64)%N →
  Client.build_requests i requests b world = (Return b', world') →
  ∀ k j, Client.b_idsIndex b' !! k = Some j →
         Client.b_idsIndex b !! k = Some j ∨
         (i ≤ j < i + length requests ∧ k = N.of_nat (S j)).
Proof.
  induction requests as [|request requests IH]; intros i b world b' world' Hc Hlen Hlt.
  - cbn [Client.build_requests]. run_monad. intros [= <- <-] k j Hk. by left.
  - cbn [length] in Hlen, Hlt.
    destruct (build_request_step i request b world Hc) as (req & world1 & Hstep);
      [lia|lia|].
    cbn [Client.build_requests]. run_monad. rewrite Hstep. intros Hrun k j Hk.
    match type of Hrun with
    | Client.build_requests (S i) requests ?b1 world1 = _ =>
        assert (Client.incrementID (Client.b_client b1) = N.of_nat (S i)) as H1 by done;
        assert (S i + length requests ≤ length (Client.b_rpcRequests b1)) as H2
          by (cbn [Client.b_rpcRequests]; rewrite length_insert; lia);
        assert (N.of_nat (S i + length requests) < 2 ^ 64)%N as H3 by lia;
        pose proof (IH (S i) b1 world1 b' world' H1 H2 H3 Hrun k j Hk) as Hcase
    end.
    destruct Hcase as [Hold|[Hj ->]].
    + cbn [Client.b_idsIndex] in Hold.
      destruct (decide (N.of_nat (S i) = k)) as [<-|Hne].
      * rewrite lookup_insert_eq in Hold. injection Hold as <-.
        right. cbn [length]. split; [lia|done].
      * rewrite lookup_insert_ne in Hold by done. by left.
    + right. cbn [length]. split; [lia|done].
Qed.

Lemma prepare_table c ctx requests world b world0 :
  (N.of_nat (length requests) < 2 ^ 64)%N →
  Client.prepare url_Parse c ctx requests world = (Return b, world0) →
  (∀ k j, Client.b_idsIndex b !! k = Some j ↔
          j < length requests ∧ k = N.of_nat (S j)) ∧
  Client.incrementID (Client.b_client b) = N.of_nat (length requests).
Proof.
  intros Hlt Hprep.
  pose proof (prepare_return_url url_Parse _ _ _ _ _ _ Hprep) as Hurl.
  destruct (prepare_spec url_Parse c ctx requests world Hurl Hlt)
    as (b0 & world0' & Hprep' & Hcl & _ & _ & Htab).
  rewrite Hprep in Hprep'. injection Hprep' as <- <-.
  split; [|by rewrite Hcl].
  intros k j. split; [|intros [Hj ->]; by apply Htab].
  revert Hprep. unfold Client.prepare, Client.NewRequest.
  cbn [Client.target Client.set_incrementID]. rewrite Hurl. run_monad.
  destruct (Client.run_before _ _ world) as [req world1].
  intros Hrun Hk.
  match type of Hrun with
  | Client.build_requests 0 requests ?b1 world1 = _ =>
      assert (0 + length requests ≤ length (Client.b_rpcRequests b1)) as H2
        by (cbn [Client.b_rpcRequests]; by rewrite length_replicate);
      pose proof (build_requests_table requests 0 b1 world1 b world0 eq_refl H2 Hlt
                    Hrun k j Hk) as Hcase
  end.
  destruct Hcase as [Hold|[Hj ->]]; [|split; [lia|done]].
  cbn [Client.b_idsIndex] in Hold. by rewrite lookup_empty in Hold.
Qed.

Lemma doRequests_prepared c ctx requests world c1 data idsIndex resp world1 :
  Client.doRequests url_Parse DefaultClient c ctx requests world =
    ((c1, Return (data, idsIndex, resp)), world1) →
  ∃ b world0,
    Client.prepare url_Parse c ctx requests world = (Return b, world0) ∧
    c1 = Client.b_client b ∧ idsIndex = Client.b_idsIndex b.
Proof.
  intros Hdo.
  destruct (Client.prepare url_Parse c ctx requests world) as [[b|err|msg] world0] eqn:Hprep.
  - exists b, world0. split; [done|]. by eapply doRequests_return.
  - unfold Client.doRequests in Hdo. run_monad. by rewrite Hprep in Hdo.
  - unfold Client.doRequests in Hdo. run_monad. by rewrite Hprep in Hdo.
Qed.

(** X21. The correlation table that RawExecuteWithContext returns with
    the body. For a batch of N requests it has exactly N entries: it sends
    the id i + 1 to the position i, for every position i below N, and knows
    no other id. The data returned is what the copy of the body left in
    the working buffer, and the counter of the client is left at N. *)
Theorem X21_raw_call_returns_the_table c ctx requests world
    c1 data idsIndex resp world1 :
  (N.of_nat (length requests) < 2 ^ 64)%N →
  Client.RawExecuteWithContext url_Parse DefaultClient c ctx requests world =
    ((c1, Return (data, idsIndex, resp)), world1) →
  (∀ k j, idsIndex !! k = Some j ↔ j < length requests ∧ k = N.of_nat (S j)) ∧
  (∃ copied, http.RespBody resp = Ok copied ∧ data = http.in_buffer copied ∧
             http.StatusCode resp = 200%Z) ∧
  Client.incrementID c1 = N.of_nat (length requests).
Proof.
  intros Hlt Hraw. unfold Client.RawExecuteWithContext in Hraw.
  destruct (doRequests_prepared _ _ _ _ _ _ _ _ _ Hraw) as (b & world0 & Hprep & -> & ->).
  destruct (prepare_table _ _ _ _ _ _ Hlt Hprep) as [Htab Hcount].
  split; [done|]. split; [|done].
  unfold Client.doRequests in Hraw. run_monad. rewrite Hprep in Hraw.
  unfold Client.exchange in Hraw.
  destruct (Client.encode_requests _) as [body|err]; [|done]. run_monad.
  destruct (Client.Do DefaultClient _ _ world0) as [[resp0|err] world2]; [|done].
  destruct (http.StatusCode resp0 =? 200)%Z eqn:Hcode; [|done]. cbn [negb] in Hraw.
  destruct (http.RespBody resp0) as [copied|err] eqn:Hbody; [|done].
  destruct (_ <? _)%Z; [done|]. injection Hraw as <- <- <-.
  exists copied. split; [done|]. split; [done|]. by apply Z.eqb_eq.
Qed.

End Table.

Lemma X21_canned_witness :
  (let '(_, o, _) := Client.RawExecuteWithContext Loop.url_ok Loop.no_transport
                       (Loop.client_of (Loop.canned JNull)) []
                       [Loop.call "a" JNull; Loop.call "b" JNull] [] in
   match o with Return (_, idsIndex, _) => idsIndex | _ => ∅ end) !! 2%N = Some 1.
Proof.
  refine (proj2 (proj1 (X21_raw_call_returns_the_table Loop.url_ok Loop.no_transport
                   (Loop.client_of (Loop.canned JNull)) []
                   [Loop.call "a" JNull; Loop.call "b" JNull] [] _ _ _ _ _
                   eq_refl eq_refl) 2%N 1) _).
  split; [cbn; lia|reflexivity].
Defined.

Section Results.

Variables (c : Client.Client) (requests : list Client.Requester)
          (idsIndex : gmap N nat) (resp : http.Response).

Implicit Types (response : Client.clientResp) (responses : list Client.clientResp)
               (results : list any) (world : World).

Let slot response : nat := default 0 (idsIndex !! Client.cresp_ID response).

Let stored response (v : any) : Prop :=
  match Client.cresp_Error response with
  | Some e =>
      v = AnyError {| code := Client.cerr_Code e; message := Client.cerr_Message e;
                      data := Client.cerr_Data e |}
  | None =>
      ∃ request, requests !! slot response = Some request ∧
                 Client.MakeResult request (Client.cresp_Result response) = Ok v
  end.

Lemma correlate_app responses1 responses2 : ∀ results world,
  Client.correlate c requests idsIndex resp (responses1 ++ responses2) results world =
    match Client.correlate c requests idsIndex resp responses1 results world with
    | (Return results1, world1) =>
        Client.correlate c requests idsIndex resp responses2 results1 world1
    | other => other
    end.
Proof.
  induction responses1 as [|response responses1 IH]; intros results world; [done|].
  cbn [app Client.correlate]. run_monad.
  destruct (Client.correlate_one c requests idsIndex resp response results world)
    as [[results1|err|msg] world1]; [apply IH|done|done].
Qed.

(** The loop writes the slots of its responses only, and keeps the number
    of slots. *)
Lemma correlate_untouched responses : ∀ results world results' world',
  Client.correlate c requests idsIndex resp responses results world =
    (Return results', world') →
  length results' = length results ∧
  ∀ j, (∀ response, response ∈ responses → slot response ≠ j) →
       results' !! j = results !! j.
Proof.
  induction responses as [|response responses IH];
    intros results world results' world'; cbn [Client.correlate]; run_monad.
  - by intros [= <- <-].
  - destruct (Client.correlate_one c requests idsIndex resp response results world)
      as [[results1|err|msg] world1] eqn:Hone; [|done|done].
    intros Hrest.
    apply correlate_one_return in Hone as (v & Hlt & _ & ->).
    destruct (IH _ _ _ _ Hrest) as [Hlen Hout].
    split; [by rewrite Hlen, length_insert|].
    intros j Hj. rewrite Hout by (intros r Hr; apply Hj; by right).
    apply list_lookup_insert_ne. apply Hj. by left.
Qed.

(** The value in a slot is the one stored for the last response that goes
    to it. *)
Lemma correlate_last responses1 response responses2 results world results' world' :
  Client.correlate c requests idsIndex resp (responses1 ++ response :: responses2)
    results world = (Return results', world') →
  (∀ response', response' ∈ responses2 → slot response' ≠ slot response) →
  ∃ v, stored response v ∧ results' !! slot response = Some v.
Proof.
  rewrite correlate_app.
  destruct (Client.correlate c requests idsIndex resp responses1 results world)
    as [[results1|err|msg] world1]; [|done|done].
  cbn [Client.correlate]. run_monad.
  destruct (Client.correlate_one c requests idsIndex resp response results1 world1)
    as [[results2|err|msg] world2] eqn:Hone; [|done|done].
  intros Hrest Hlast.
  apply correlate_one_return in Hone as (v & Hlt & Hv & ->).
  destruct (correlate_untouched _ _ _ _ _ Hrest) as [_ Hout].
  exists v. split; [done|]. rewrite Hout by done. by apply list_lookup_insert_eq.
Qed.

(** An error of the loop is the error of a MakeResult. *)
Lemma correlate_raise responses : ∀ results world err world',
  Client.correlate c requests idsIndex resp responses results world = (Raise err, world') →
  ∃ response request,
    response ∈ responses ∧ Client.cresp_Error response = None ∧
    requests !! slot response = Some request ∧
    Client.MakeResult request (Client.cresp_Result response) = Fail err.
Proof.
  induction responses as [|response responses IH]; intros results world err world';
    cbn [Client.correlate]; run_monad; [done|].
  destruct (Client.correlate_one c requests idsIndex resp response results world)
    as [[results1|err1|msg] world1] eqn:Hone; [| |done].
  - intros Hrest. destruct (IH _ _ _ _ Hrest) as (r & request & Hin & H1 & H2 & H3).
    exists r, request. split; [by right|done].
  - intros [= -> <-]. exists response. revert Hone.
    unfold Client.correlate_one. fold (slot response).
    destruct (Client.cresp_Error response) as [e|].
    { unfold Client.set_index. by case_decide. }
    run_monad. destruct (Client.run_after _ resp _ world) as [[] w1].
    destruct (requests !! slot response) as [request|]; [|done].
    destruct (Client.run_after _ resp _ w1) as [[] w2].
    destruct (Client.MakeResult request _) as [result|err2] eqn:Hres.
    { unfold Client.set_index. by case_decide. }
    intros [= <- <-]. exists request. split; [by left|done].
Qed.

(** The loop panics only on a slot that the results or the requests do
    not have. *)
Lemma correlate_panic responses : ∀ results world msg world',
  length results = length requests →
  Client.correlate c requests idsIndex resp responses results world = (Panic msg, world') →
  ∃ response, response ∈ responses ∧ length requests ≤ slot response.
Proof.
  induction responses as [|response responses IH]; intros results world msg world' Hlen;
    cbn [Client.correlate]; run_monad; [done|].
  destruct (Client.correlate_one c requests idsIndex resp response results world)
    as [[results1|err1|msg1] world1] eqn:Hone; [|done|].
  - intros Hrest. apply correlate_one_return in Hone as (v & Hlt & _ & ->).
    destruct (IH _ _ _ _ (eq_trans (length_insert _ _ _) Hlen) Hrest) as (r & Hin & Hr).
    exists r. split; [by right|done].
  - intros _. exists response. split; [by left|]. revert Hone.
    unfold Client.correlate_one. fold (slot response).
    destruct (Client.cresp_Error response) as [e|].
    { unfold Client.set_index. case_decide; [done|]. intros _. lia. }
    run_monad. destruct (Client.run_after _ resp _ world) as [[] w1].
    destruct (requests !! slot response) as [request|] eqn:Hreq.
    + destruct (Client.run_after _ resp _ w1) as [[] w2].
      destruct (Client.MakeResult request _) as [result|err2]; [|done].
      unfold Client.set_index. case_decide; [done|]. intros _. lia.
    + intros _. by apply lookup_ge_None in Hreq.
Qed.

End Results.

Section Answers.

Variables (url_Parse : string → option goerror) (DefaultClient : Client.HTTPClient).

(** ExecuteWithContext after doRequests has returned and the body has been
    decoded: what is left is the loop over the responses. *)
Lemma Execute_decoded c ctx requests world c1 data idsIndex resp world1 responses :
  Client.doRequests url_Parse DefaultClient c ctx requests world =
    ((c1, Return (data, idsIndex, resp)), world1) →
  Client.unmarshal_responses data (replicate (length requests) Client.zero_clientResp) =
    (responses, None) →
  Client.ExecuteWithContext url_Parse DefaultClient c ctx requests world =
    let '(o, world') :=
      Client.correlate c1 requests idsIndex resp responses
        (replicate (length requests) AnyNil) world1 in
    ((c1, match o with
          | Return results => Return {| Client.results := results |}
          | Raise err => Raise err
          | Panic msg => Panic msg
          end), world').
Proof.
  intros Hdo Hdec. unfold Client.ExecuteWithContext, Client.decode_and_correlate.
  run_monad. rewrite Hdo. cbn [fst snd]. rewrite Hdec. run_monad.
  by destruct (Client.correlate c1 requests idsIndex resp responses _ world1)
    as [[results|err|msg] world2].
Qed.

(** X22. What a successful call leaves in the slots when the answer is not
    one response per request. A slot that no response goes to holds nil
    (the slot of a response being the position that the table gives for
    its id, and 0 for an id that the table does not have). A slot that
    several responses go to holds the value of the last of them in the
    order of the body: its error object, or what MakeResult of the request
    of that slot made of its result. *)
Theorem X22_slots_of_a_partial_or_repeated_answer c ctx requests world
    c1 data idsIndex resp world1 responses c' br world' :
  Client.doRequests url_Parse DefaultClient c ctx requests world =
    ((c1, Return (data, idsIndex, resp)), world1) →
  Client.unmarshal_responses data (replicate (length requests) Client.zero_clientResp) =
    (responses, None) →
  Client.ExecuteWithContext url_Parse DefaultClient c ctx requests world =
    ((c', Return br), world') →
  let slot response := default 0 (idsIndex !! Client.cresp_ID response) in
  Client.Len br = length requests ∧
  (∀ i, i < length requests →
        (∀ response, response ∈ responses → slot response ≠ i) →
        Client.At br i = Some AnyNil) ∧
  (∀ before response later,
     responses = before ++ response :: later →
     (∀ response', response' ∈ later → slot response' ≠ slot response) →
     match Client.cresp_Error response with
     | Some e =>
         Client.At br (slot response) =
           Some (AnyError {| code := Client.cerr_Code e; message := Client.cerr_Message e;
                             data := Client.cerr_Data e |})
     | None =>
         ∃ request result,
           requests !! slot response = Some request ∧
           Client.MakeResult request (Client.cresp_Result response) = Ok result ∧
           Client.At br (slot response) = Some result
     end).
Proof.
  intros Hdo Hdec Hex slot. rewrite (Execute_decoded _ _ _ _ _ _ _ _ _ _ Hdo Hdec) in Hex.
  destruct (Client.correlate c1 requests idsIndex resp responses _ world1)
    as [[results|err|msg] world2] eqn:Hcor; [|done|done].
  injection Hex as <- <- <-.
  destruct (correlate_untouched _ _ _ _ _ _ _ _ _ Hcor) as [Hlen Hout].
  rewrite length_replicate in Hlen.
  split; [done|]. split.
  - intros i Hi Hnone. unfold Client.At. cbn [Client.results].
    rewrite Hout by done. by apply lookup_replicate_2.
  - intros l1 response l2 -> Hlast.
    destruct (correlate_last _ _ _ _ _ _ _ _ _ _ _ Hcor Hlast) as (v & Hv & Hat).
    unfold Client.At. cbn [Client.results]. fold (slot response) in Hat.
    destruct (Client.cresp_Error response) as [e|]; [by rewrite Hat, Hv|].
    destruct Hv as (request & Hreq & Hres). by exists request, v.
Qed.

(** X23. Where the failures of a decoded answer come from. With at least
    one request (and fewer than 2^64), the loop over the responses does not
    panic, whatever ids the responses carry: every position of the table
    is one of the batch, and so is position 0. When the call returns an
    error, it is the error that MakeResult of some request returned for
    the result of a response without an error member that goes to the
    slot of that request: an error object in a response never fails the
    call. *)
Theorem X23_failures_of_a_decoded_answer c ctx requests world
    c1 data idsIndex resp world1 responses :
  (N.of_nat (length requests) < 2 ^ 64)%N →
  Client.doRequests url_Parse DefaultClient c ctx requests world =
    ((c1, Return (data, idsIndex, resp)), world1) →
  Client.unmarshal_responses data (replicate (length requests) Client.zero_clientResp) =
    (responses, None) →
  let out := snd (fst (Client.ExecuteWithContext url_Parse DefaultClient c ctx requests world)) in
  let slot response := default 0 (idsIndex !! Client.cresp_ID response) in
  (requests ≠ [] → ∀ msg, out ≠ Panic msg) ∧
  (∀ err, out = Raise err →
     ∃ response request,
       response ∈ responses ∧ Client.cresp_Error response = None ∧
       requests !! slot response = Some request ∧
       Client.MakeResult request (Client.cresp_Result response) = Fail err).
Proof.
  intros Hlt Hdo Hdec out slot. subst out.
  rewrite (Execute_decoded _ _ _ _ _ _ _ _ _ _ Hdo Hdec).
  destruct (Client.correlate c1 requests idsIndex resp responses _ world1)
    as [[results|err|msg] world2] eqn:Hcor; cbn [fst snd].
  - split; [by intros _ msg|by intros err].
  - split; [by intros _ msg|]. intros err' [= <-].
    by apply correlate_raise in Hcor.
  - split; [|by intros err]. intros Hne msg' _.
    apply correlate_panic in Hcor as (response & _ & Hge);
      [|by rewrite length_replicate].
    destruct (doRequests_prepared url_Parse DefaultClient _ _ _ _ _ _ _ _ _ Hdo)
      as (b & world0 & Hprep & _ & ->).
    destruct (prepare_table url_Parse _ _ _ _ _ _ Hlt Hprep) as [Htab _].
    destruct (Client.b_idsIndex b !! Client.cresp_ID response) as [j|] eqn:Hj;
      cbn in Hge.
    + apply Htab in Hj as [Hj _]. lia.
    + destruct requests; [done|]. cbn [length] in Hge. lia.
Qed.

(** X24. The two ways in which an answer stops the call before any result
    is made. A body that does not decode as an array of responses makes
    the call return the error of the decoder, with no after hook run and
    the world as doRequests left it. A call with no requests at all
    panics on the first response that the body has, because the results
    have no slot 0. *)
Theorem X24_undecodable_answer_and_empty_batch c ctx requests world
    c1 data idsIndex resp world1 responses err :
  Client.doRequests url_Parse DefaultClient c ctx requests world =
    ((c1, Return (data, idsIndex, resp)), world1) →
  Client.unmarshal_responses data (replicate (length requests) Client.zero_clientResp) =
    (responses, err) →
  let call := Client.ExecuteWithContext url_Parse DefaultClient c ctx requests world in
  (∀ e, err = Some e → call = ((c1, Raise e), world1)) ∧
  (err = None → requests = [] → responses ≠ [] →
   snd (fst call) = Panic "index out of range").
Proof.
  intros Hdo Hdec call. subst call. split.
  - intros e ->. unfold Client.ExecuteWithContext, Client.decode_and_correlate.
    run_monad. rewrite Hdo. cbn [fst snd]. by rewrite Hdec.
  - intros -> -> Hne. rewrite (Execute_decoded _ _ _ _ _ _ _ _ _ _ Hdo Hdec).
    destruct responses as [|response rest]; [done|].
    cbn [length replicate Client.correlate]. run_monad.
    unfold Client.correlate_one.
    destruct (Client.cresp_Error response) as [e|].
    { unfold Client.set_index. cbn [length]. case_decide; [lia|]. by run_monad. }
    run_monad. destruct (Client.run_after _ resp _ world1) as [[] w1].
    by rewrite lookup_nil.
Qed.

End Answers.
(** Two requests, and a body with two responses for the id 1: the first
    slot holds the result of the later one, the second slot holds nil. *)
Lemma X22_repeated_id_witness :
  (let '(_, o, _) := Client.ExecuteWithContext Loop.url_ok Loop.no_transport
                       (Loop.client_of (Loop.canned (JArr [Loop.result_envelope 1 (JStr "old");
                                                           Loop.result_envelope 1 (JStr "new")])))
                       [] [Loop.call "a" JNull; Loop.call "b" JNull] [] in
   match o with Return br => Client.At br 1 | _ => None end) = Some AnyNil.
Proof.
  refine (proj1 (proj2 (X22_slots_of_a_partial_or_repeated_answer Loop.url_ok Loop.no_transport
            (Loop.client_of (Loop.canned (JArr [Loop.result_envelope 1 (JStr "old");
                                                Loop.result_envelope 1 (JStr "new")])))
            [] [Loop.call "a" JNull; Loop.call "b" JNull] []
            _ _ _ _ _ _ _ _ _ eq_refl eq_refl eq_refl)) 1 _ _).
  - cbn; lia.
  - intros response Hin. vm_compute in Hin.
    apply elem_of_cons in Hin as [->|Hin]; [by vm_compute|].
    apply elem_of_cons in Hin as [->|Hin]; [by vm_compute|].
    by apply elem_of_nil in Hin.
Defined.

(** A request that takes only a string, answered with a number: the call
    returns the error of its MakeResult. *)
Lemma X23_refused_result_witness :
  ∃ response request,
    Client.cresp_Error response = None ∧
    request = Loop.call_string "a" JNull ∧
    Client.MakeResult request (Client.cresp_Result response) =
      Fail (ErrText "a string was expected").
Proof.
  destruct (proj2 (X23_failures_of_a_decoded_answer Loop.url_ok Loop.no_transport
              (Loop.client_of (Loop.canned (JArr [Loop.result_envelope 1 (JNum 5)])))
              [] [Loop.call_string "a" JNull] []
              _ _ _ _ _ _ ltac:(cbn; lia) eq_refl eq_refl)
              (ErrText "a string was expected") eq_refl)
    as (response & request & _ & Herr & Hreq & Hres).
  exists response, request.
  split; [exact Herr|]. split; [|exact Hres].
  apply list_elem_of_lookup_2, list_elem_of_singleton in Hreq. exact Hreq.
Defined.

(** A body that is a number, not an array: the call returns the type error
    of the decoder. *)
Lemma X24_number_body_witness :
  ∃ c1 world1,
    Client.ExecuteWithContext Loop.url_ok Loop.no_transport
      (Loop.client_of (Loop.canned (JNum 5))) [] [Loop.call "a" JNull] [] =
    ((c1, Raise (json.UnmarshalTypeError (JNum 5) "[]jsonrpc.clientResp")), world1).
Proof.
  eexists _, _.
  exact (proj1 (X24_undecodable_answer_and_empty_batch Loop.url_ok Loop.no_transport
                  (Loop.client_of (Loop.canned (JNum 5))) [] [Loop.call "a" JNull] []
                  _ _ _ _ _ _ _ eq_refl eq_refl) _ eq_refl).
Defined.

(* ================================================================== *)
(** * The hooks of the client *)
(* ================================================================== *)

Section ClientHooks.

Variables (url_Parse : string → option goerror) (DefaultClient : Client.HTTPClient).

Implicit Types (bs : list Client.ClientBeforeFunc) (fs : list Client.ClientAfterFunc)
               (requests : list Client.Requester) (world : World).

Lemma client_run_before_app bs1 bs2 : ∀ req world,
  Client.run_before (bs1 ++ bs2) req world =
    let '(req1, world1) := Client.run_before bs1 req world in
    Client.run_before bs2 req1 world1.
Proof.
  induction bs1 as [|beforeFunc bs1 IH]; intros req world; [done|].
  cbn [app Client.run_before]. run_monad.
  destruct (beforeFunc (http.Ctx req) req world) as [c0 world0]. apply IH.
Qed.

Lemma client_run_after_app fs1 fs2 resp raw : ∀ world,
  snd (Client.run_after (fs1 ++ fs2) resp raw world) =
    snd (Client.run_after fs2 resp raw (snd (Client.run_after fs1 resp raw world))).
Proof.
  induction fs1 as [|afterFunc fs1 IH]; intros world; [done|].
  cbn [app Client.run_after]. run_monad.
  destruct (afterFunc _ resp raw world) as [u world0]. apply IH.
Qed.

(** The before hooks change the context of the request and nothing else
    of it. *)
Lemma client_run_before_frame bs : ∀ req world,
  fst (Client.run_before bs req world) =
    http.WithContext req (http.Ctx (fst (Client.run_before bs req world))).
Proof.
  induction bs as [|beforeFunc bs IH]; intros req world.
  - cbn [Client.run_before]. run_monad. by destruct req.
  - cbn [Client.run_before]. run_monad.
    destruct (beforeFunc (http.Ctx req) req world) as [c0 world0].
    rewrite IH at 1. by destruct req.
Qed.

Lemma build_requests_app requests1 requests2 : ∀ i b world,
  Client.build_requests i (requests1 ++ requests2) b world =
    match Client.build_requests i requests1 b world with
    | (Return b1, world1) =>
        Client.build_requests (i + length requests1) requests2 b1 world1
    | other => other
    end.
Proof.
  induction requests1 as [|request requests1 IH]; intros i b world.
  - cbn [app Client.build_requests length]. run_monad. by rewrite Nat.add_0_r.
  - cbn [app Client.build_requests length]. run_monad.
    destruct (Client.build_request i request b world) as [[b1|err|msg] world1];
      [|done|done].
    rewrite IH. by replace (i + S (length requests1)) with (S i + length requests1) by lia.
Qed.

(** The loop over requests without a context of their own runs their
    before hooks one after the other on the request it was given. *)
Lemma build_requests_hooks requests : ∀ i b world b' world',
  Forall (λ request, Client.Context_ request = None) requests →
  Client.build_requests i requests b world = (Return b', world') →
  (Client.b_req b', world') =
    Client.run_before (concat (map Client.Before requests)) (Client.b_req b) world.
Proof.
  induction requests as [|request requests IH]; intros i b world b' world' Hno.
  - cbn [Client.build_requests]. run_monad. by intros [= <- <-].
  - apply Forall_cons in Hno as [Hnone Hno].
    cbn [Client.build_requests map concat]. run_monad.
    rewrite client_run_before_app.
    unfold Client.build_request. rewrite Hnone. run_monad.
    destruct (Client.run_before (Client.Before request) _ world) as [req1 world1].
    destruct (Client.MakeRequest request) as [methodName params].
    destruct (Client.autoIncrementID _) as [id c1].
    destruct (Client.set_index _ _ _) as [rpcRequests|]; [|done].
    intros Hrest. by rewrite (IH _ _ _ _ _ Hno Hrest).
Qed.

End ClientHooks.

(** X25. The before hooks of a call and the request they leave. The call
    starts from a POST request for the target with the context it was
    given. When no request of the batch has a context of its own, the
    hooks of the client and then the hooks of each request, in the order
    of the batch, run as one sequence, each on the request with the context
    that the one before returned. When a request has a context of its own,
    that context replaces whatever the call was given and the hooks before
    it have returned: the request that is sent is the one that the hooks of
    that request and of the later ones leave from the POST request with the
    context of that request. *)
Theorem X25_before_hooks_and_contexts (url_Parse : string → option goerror)
    (c : Client.Client) (ctx : Context) (requests : list Client.Requester)
    (world : World) (b : Client.building) (world0 : World) :
  Client.prepare url_Parse c ctx requests world = (Return b, world0) →
  let post := {| http.Method := "POST"; http.URL := Client.target c; http.Ctx := [];
                 http.Body := Malformed "EOF" |} in
  let no_context := Forall (λ request, Client.Context_ request = None) in
  (no_context requests →
   (Client.b_req b, world0) =
     Client.run_before (Client.before (Client.opts c) ++ concat (map Client.Before requests))
       (http.WithContext post ctx) world) ∧
  (∀ earlier request later c',
     requests = earlier ++ request :: later →
     Client.Context_ request = Some c' →
     no_context later →
     ∃ world1,
       (Client.b_req b, world0) =
         Client.run_before (Client.Before request ++ concat (map Client.Before later))
           (http.WithContext post c') world1 ∧
       (no_context earlier →
        world1 = snd (Client.run_before
                        (Client.before (Client.opts c) ++ concat (map Client.Before earlier))
                        (http.WithContext post ctx) world))).
Proof.
  intros Hprep post no_context. revert Hprep.
  unfold Client.prepare, Client.NewRequest. cbn [Client.target Client.set_incrementID].
  destruct (url_Parse (Client.target c)); [done|]. run_monad.
  fold post. change (Client.opts (Client.set_incrementID c 0)) with (Client.opts c).
  destruct (Client.run_before (Client.before (Client.opts c)) (http.WithContext post ctx) world)
    as [req1 world1] eqn:Hclient.
  intros Hrun. split.
  - intros Hno. rewrite client_run_before_app, Hclient.
    by rewrite (build_requests_hooks _ _ _ _ _ _ Hno Hrun).
  - intros earlier request later c' -> Hsome Hno. rewrite build_requests_app in Hrun.
    destruct (Client.build_requests 0 earlier _ world1) as [[b2|err|msg] world2] eqn:Hearlier;
      [|done|done].
    exists world2. split.
    + change (request :: later) with ([request] ++ later) in Hrun.
      rewrite build_requests_app in Hrun. revert Hrun.
      cbn [Client.build_requests]. run_monad. unfold Client.build_request at 1.
      rewrite Hsome. run_monad. rewrite client_run_before_app.
      pose proof (client_run_before_frame (Client.before (Client.opts c))
                    (http.WithContext post ctx) world) as Hreq1.
      rewrite Hclient in Hreq1. cbn [fst] in Hreq1.
      assert (Client.b_req b2 = http.WithContext post (http.Ctx (Client.b_req b2))) as ->.
      { clear -Hearlier Hreq1. revert Hearlier.
        generalize 0. generalize world1.
        match goal with |- ∀ w n, Client.build_requests n earlier ?b0 w = _ → _ =>
          assert (Client.b_req b0 = http.WithContext post (http.Ctx (Client.b_req b0)))
            as Hb0 by (cbn [Client.b_req]; by rewrite Hreq1 at 1);
          generalize dependent b0
        end.
        induction earlier as [|r earlier IH]; intros b0 Hb0 w n;
          cbn [Client.build_requests]; run_monad.
        - by intros [= <- <-].
        - unfold Client.build_request. run_monad.
          destruct (Client.run_before (Client.Before r) _ w) as [req3 w3] eqn:Hr.
          destruct (Client.MakeRequest r) as [methodName params].
          destruct (Client.autoIncrementID _) as [id c1].
          destruct (Client.set_index _ _ _) as [rpcRequests|]; [|done].
          apply IH. cbn [Client.b_req].
          pose proof (client_run_before_frame (Client.Before r)
                        (match Client.Context_ r with
                         | Some c0 => http.WithContext (Client.b_req b0) c0
                         | None => Client.b_req b0
                         end) w) as Hf.
          rewrite Hr in Hf. cbn [fst] in Hf. rewrite Hf at 1.
          rewrite Hb0. by destruct (Client.Context_ r). }
      change (http.WithContext (http.WithContext post (http.Ctx (Client.b_req b2))) c')
        with (http.WithContext post c').
      destruct (Client.run_before (Client.Before request) _ world2) as [req3 world3].
      destruct (Client.MakeRequest request) as [methodName params].
      destruct (Client.autoIncrementID _) as [id c1].
      destruct (Client.set_index _ _ _) as [rpcRequests|]; [|done].
      intros Hrest. by rewrite (build_requests_hooks _ _ _ _ _ _ Hno Hrest).
    + intros Hno'. rewrite client_run_before_app, Hclient.
      pose proof (build_requests_hooks _ _ _ _ _ _ Hno' Hearlier) as Hhooks.
      cbn [Client.b_req] in Hhooks. by rewrite <- Hhooks.
Qed.

(** A hook of the client and a hook of the one request of the batch. *)
Lemma X25_client_and_request_hooks_witness :
  ∃ b world0,
    Client.prepare Loop.url_ok
      (Loop.client_with Loop.no_transport [Loop.stamp "client" "1"] []) []
      [Loop.call_with "a" [Loop.stamp "request" "2"] [] None] [] = (Return b, world0) ∧
    http.Ctx (Client.b_req b) = [("request", "2"); ("client", "1")] ∧
    world0 = ["before client"; "before request"].
Proof.
  eexists _, _. split; [vm_compute; reflexivity|].
  pose proof (proj1 (X25_before_hooks_and_contexts Loop.url_ok
                (Loop.client_with Loop.no_transport [Loop.stamp "client" "1"] []) []
                [Loop.call_with "a" [Loop.stamp "request" "2"] [] None] [] _ _ eq_refl)
                ltac:(by repeat constructor)) as Hrun.
  split; [exact (f_equal (λ p, http.Ctx (fst p)) Hrun)|exact (f_equal snd Hrun)].
Defined.

Section AfterHooks.

Variables (url_Parse : string → option goerror) (DefaultClient : Client.HTTPClient).

Lemma doRequests_opts c ctx requests world c1 o world1 :
  Client.doRequests url_Parse DefaultClient c ctx requests world = ((c1, o), world1) →
  Client.opts c1 = Client.opts c.
Proof.
  unfold Client.doRequests. run_monad.
  destruct (Client.prepare url_Parse c ctx requests world) as [[b|err|msg] world0] eqn:Hprep.
  - destruct (Client.exchange DefaultClient b world0) as [r world2]. intros [= <- _ _].
    revert Hprep. unfold Client.prepare.
    destruct (Client.NewRequest _ _ _) as [req|err]; [|done]. run_monad.
    destruct (Client.run_before _ _ world) as [req1 world3].
    intros Hrun. by rewrite (build_requests_opts _ _ _ _ _ _ Hrun).
  - by intros [= <- _ _].
  - by intros [= <- _ _].
Qed.

(** What one response does to the world: nothing when it has an error
    member, and otherwise the after hooks of the client followed by those
    of the request of its slot. *)
Let after_of (c : Client.Client) (requests : list Client.Requester)
    (idsIndex : gmap N nat) (resp : http.Response)
    (world : World) (response : Client.clientResp) : World :=
  match Client.cresp_Error response with
  | Some _ => world
  | None =>
      snd (Client.run_after
             (Client.after (Client.opts c) ++
              default [] (Client.After <$>
                            requests !! default 0 (idsIndex !! Client.cresp_ID response)))
             resp (Client.cresp_Result response) world)
  end.

Lemma correlate_world c requests idsIndex resp responses : ∀ results world results' world',
  Client.correlate c requests idsIndex resp responses results world =
    (Return results', world') →
  world' = foldl (after_of c requests idsIndex resp) world responses.
Proof.
  induction responses as [|response responses IH]; intros results world results' world';
    cbn [Client.correlate foldl]; run_monad.
  - by intros [= <- <-].
  - destruct (Client.correlate_one c requests idsIndex resp response results world)
      as [[results1|err|msg] world1] eqn:Hone; [|done|done].
    intros Hrest. rewrite (IH _ _ _ _ Hrest). f_equal.
    revert Hone. unfold Client.correlate_one, after_of.
    destruct (Client.cresp_Error response) as [e|].
    { destruct (Client.set_index _ _ _); by intros [= <- <-]. }
    run_monad. rewrite client_run_after_app.
    destruct (Client.run_after (Client.after _) resp _ world) as [u w1].
    destruct (requests !! _) as [request|]; [|done].
    change (default [] (Client.After <$> Some request)) with (Client.After request).
    cbn [snd].
    destruct (Client.run_after (Client.After request) resp _ w1) as [u2 w2].
    destruct (Client.MakeResult request _) as [result|err]; [|done].
    destruct (Client.set_index _ _ _); by intros [= <- <-].
Qed.

(** X26. The after hooks of a successful call. They run response by
    response, in the order of the body and after the whole exchange: for a
    response without an error member, the after hooks of the client and
    then those of the request of its slot, with the result of that
    response; for a response with an error member, none at all. *)
Theorem X26_after_hooks_of_a_successful_call c ctx requests world
    c1 data idsIndex resp world1 responses c' br world' :
  Client.doRequests url_Parse DefaultClient c ctx requests world =
    ((c1, Return (data, idsIndex, resp)), world1) →
  Client.unmarshal_responses data (replicate (length requests) Client.zero_clientResp) =
    (responses, None) →
  Client.ExecuteWithContext url_Parse DefaultClient c ctx requests world =
    ((c', Return br), world') →
  world' =
    foldl (λ w response,
             match Client.cresp_Error response with
             | Some _ => w
             | None =>
                 snd (Client.run_after
                        (Client.after (Client.opts c) ++
                         default [] (Client.After <$>
                           requests !! default 0 (idsIndex !! Client.cresp_ID response)))
                        resp (Client.cresp_Result response) w)
             end) world1 responses.
Proof.
  intros Hdo Hdec Hex.
  rewrite (Execute_decoded _ _ _ _ _ _ _ _ _ _ _ _ Hdo Hdec) in Hex.
  destruct (Client.correlate c1 requests idsIndex resp responses _ world1)
    as [[results|err|msg] world2] eqn:Hcor; [|done|done].
  injection Hex as _ _ <-.
  rewrite (correlate_world _ _ _ _ _ _ _ _ _ Hcor). unfold after_of.
  by rewrite (doRequests_opts _ _ _ _ _ _ _ Hdo).
Qed.

End AfterHooks.

(** Two requests with an after hook each, and a body with the error of the
    second before the result of the first: only the hooks for the result
    run, the one of the client first. *)
Lemma X26_result_and_error_witness :
  snd (Client.ExecuteWithContext Loop.url_ok Loop.no_transport
         (Loop.client_with
            (Loop.canned (JArr [JObj [("id", JNum 2);
                                      ("error", JObj [("code", JNum 1);
                                                      ("message", JStr "no")])];
                                Loop.result_envelope 1 (JStr "A")]))
            [] [Loop.seen "client"])
         [] [Loop.call_with "a" [] [Loop.seen "a"] None;
             Loop.call_with "b" [] [Loop.seen "b"] None] []) =
  ["after client"; "after a"].
Proof.
  exact (X26_after_hooks_of_a_successful_call Loop.url_ok Loop.no_transport
           (Loop.client_with
              (Loop.canned (JArr [JObj [("id", JNum 2);
                                        ("error", JObj [("code", JNum 1);
                                                        ("message", JStr "no")])];
                                  Loop.result_envelope 1 (JStr "A")]))
              [] [Loop.seen "client"])
           [] [Loop.call_with "a" [] [Loop.seen "a"] None;
               Loop.call_with "b" [] [Loop.seen "b"] None] []
           _ _ _ _ _ _ _ _ _ eq_refl eq_refl eq_refl).
Defined.

(* ================================================================== *)
(** * The client against the server *)
(* ================================================================== *)

Section Loopback.

Variables (url_Parse : string → option goerror) (DefaultClient : Client.HTTPClient)
          (s : Server.Server) (size : JSON → Z).







End Loopback.


(* ================================================================== *)
(** * The two versions of the client *)
(* ================================================================== *)

Section Versions.

Variables (url_Parse : string → option goerror) (DefaultClient : Client.HTTPClient).

(** A response without its error member. *)
Let without_error (response : Client.clientResp) : Client.clientResp :=
  {| Client.cresp_ID := Client.cresp_ID response;
     Client.cresp_Version := Client.cresp_Version response;
     Client.cresp_Error := None;
     Client.cresp_Result := Client.cresp_Result response |}.

Lemma old_prepare c requests world :
  OldClient.prepare url_Parse c requests world =
    Client.prepare url_Parse c [] requests world.
Proof.
  unfold OldClient.prepare, Client.prepare, Client.NewRequest.
  by destruct (url_Parse _).
Qed.

Lemma old_doRequests c requests world :
  OldClient.doRequests url_Parse DefaultClient c requests world =
    Client.doRequests url_Parse DefaultClient c [] requests world.
Proof.
  unfold OldClient.doRequests, Client.doRequests. run_monad. by rewrite old_prepare.
Qed.

Lemma old_correlate c requests idsIndex resp responses : ∀ results world,
  OldClient.correlate c requests idsIndex resp responses results world =
    Client.correlate c requests idsIndex resp (map without_error responses) results world.
Proof.
  induction responses as [|response responses IH]; intros results world; [done|].
  cbn [map OldClient.correlate Client.correlate]. run_monad.
  change (Client.correlate_one c requests idsIndex resp (without_error response) results world)
    with (OldClient.correlate_one c requests idsIndex resp response results world).
  destruct (OldClient.correlate_one c requests idsIndex resp response results world)
    as [[results1|err|msg] world1]; [apply IH|done|done].
Qed.

(** X28. The earlier version of the client against the later one. Its
    RawExecute is the RawExecute of the later version. The loop of its
    Execute is the loop of the later version run on the same responses
    with their error members taken away: a response that reports an error
    is given to the after hooks and to MakeResult like any other, with the
    result it has, and the error object is never stored. *)
Theorem X28_earlier_client_ignores_error_members
    (c : Client.Client) (requests : list Client.Requester) (world : World) :
  OldClient.RawExecute url_Parse DefaultClient c requests world =
    Client.RawExecute url_Parse DefaultClient c requests world ∧
  ∀ idsIndex resp responses results,
    OldClient.correlate c requests idsIndex resp responses results world =
      Client.correlate c requests idsIndex resp
        (map (λ response,
                {| Client.cresp_ID := Client.cresp_ID response;
                   Client.cresp_Version := Client.cresp_Version response;
                   Client.cresp_Error := None;
                   Client.cresp_Result := Client.cresp_Result response |}) responses)
        results world.
Proof.
  split; [apply old_doRequests|].
  intros idsIndex resp responses results. apply old_correlate.
Qed.

(** X29. Execute of the earlier version and Execute of the later one do
    the same, and return the same, on every call whose answer has no
    response with an error member; this includes the calls that fail
    before the answer is decoded. *)
Theorem X29_versions_agree_without_error_members
    (c : Client.Client) (requests : list Client.Requester) (world : World) :
  (∀ c1 data idsIndex resp world1 responses,
     Client.RawExecute url_Parse DefaultClient c requests world =
       ((c1, Return (data, idsIndex, resp)), world1) →
     Client.unmarshal_responses data
       (replicate (length requests) Client.zero_clientResp) = (responses, None) →
     Forall (λ response, Client.cresp_Error response = None) responses) →
  OldClient.Execute url_Parse DefaultClient c requests world =
    Client.Execute url_Parse DefaultClient c requests world.
Proof.
  intros Hclean.
  unfold OldClient.Execute, Client.Execute, Client.ExecuteWithContext,
    Client.decode_and_correlate. run_monad. rewrite old_doRequests.
  unfold Client.RawExecute, Client.RawExecuteWithContext in Hclean.
  destruct (Client.doRequests url_Parse DefaultClient c [] requests world)
    as [[c1 [[[data idsIndex] resp]|err|msg]] world1]; cbn [fst snd]; [|done|done].
  specialize (Hclean c1 data idsIndex resp world1).
  destruct (Client.unmarshal_responses data _) as [responses [err|]]; [done|].
  specialize (Hclean responses eq_refl eq_refl). run_monad.
  rewrite old_correlate.
  assert (map without_error responses = responses) as ->;
    [|by destruct (Client.correlate c1 requests idsIndex resp responses _ world1)
        as [[results|err|msg] world2]].
  induction Hclean as [|response responses Hnone _ IH]; [done|].
  cbn [map]. rewrite IH. f_equal. destruct response as [id ver e res].
  cbn in Hnone. by subst e.
Qed.

End Versions.

(** Two requests and an answer with their two results. *)
Lemma X29_two_results_witness :
  OldClient.Execute Loop.url_ok Loop.no_transport
    (Loop.client_of (Loop.canned (JArr [Loop.result_envelope 2 (JStr "B");
                                        Loop.result_envelope 1 (JStr "A")])))
    [Loop.call "a" JNull; Loop.call "b" JNull] [] =
  Client.Execute Loop.url_ok Loop.no_transport
    (Loop.client_of (Loop.canned (JArr [Loop.result_envelope 2 (JStr "B");
                                        Loop.result_envelope 1 (JStr "A")])))
    [Loop.call "a" JNull; Loop.call "b" JNull] [].
Proof.
  apply X29_versions_agree_without_error_members.
  intros c1 data idsIndex resp world1 responses Hraw Hdec.
  vm_compute in Hraw. injection Hraw as _ <- _ _ _.
  vm_compute in Hdec. injection Hdec as <-.
  by repeat constructor.
Defined.

(* ================================================================== *)
(** * Reading a batch result *)
(* ================================================================== *)

(** X30. What Error(i) says about the slots of a successful call. It
    panics exactly for the indexes that At panics for, those not below
    Len. For a slot whose last response has an error member it returns an
    error with the code, the message and the data of that member. For a
    slot that no response went to it returns nil, and At returns nil as
    well. *)
Theorem X30_Error_of_a_slot (url_Parse : string → option goerror)
    (DefaultClient : Client.HTTPClient) c ctx requests world
    c1 data idsIndex resp world1 responses c' br world' :
  Client.doRequests url_Parse DefaultClient c ctx requests world =
    ((c1, Return (data, idsIndex, resp)), world1) →
  Client.unmarshal_responses data (replicate (length requests) Client.zero_clientResp) =
    (responses, None) →
  Client.ExecuteWithContext url_Parse DefaultClient c ctx requests world =
    ((c', Return br), world') →
  let slot response := default 0 (idsIndex !! Client.cresp_ID response) in
  (∀ i, (Client.BatchResult_Error br i = None ↔ length requests ≤ i) ∧
        (Client.At br i = None ↔ length requests ≤ i)) ∧
  (∀ i, i < length requests →
        (∀ response, response ∈ responses → slot response ≠ i) →
        Client.BatchResult_Error br i = Some None ∧ Client.At br i = Some AnyNil) ∧
  (∀ before response later e,
     responses = before ++ response :: later →
     (∀ response', response' ∈ later → slot response' ≠ slot response) →
     Client.cresp_Error response = Some e →
     ∃ err,
       Client.BatchResult_Error br (slot response) = Some (Some err) ∧
       Error_Code err = Client.cerr_Code e ∧
       Error_Error err = Client.cerr_Message e ∧
       Error_Data err = Client.cerr_Data e).
Proof.
  intros Hdo Hdec Hex slot.
  rewrite (Execute_decoded _ _ _ _ _ _ _ _ _ _ _ _ Hdo Hdec) in Hex.
  destruct (Client.correlate c1 requests idsIndex resp responses _ world1)
    as [[results|err|msg] world2] eqn:Hcor; [|done|done].
  injection Hex as <- <- <-.
  destruct (correlate_untouched _ _ _ _ _ _ _ _ _ Hcor) as [Hlen Hout].
  rewrite length_replicate in Hlen.
  unfold Client.BatchResult_Error, Client.At. cbn [Client.results].
  split; [|split].
  - intros i. rewrite <- Hlen, <- lookup_ge_None. split; [|done].
    destruct (results !! i) as [[| | |]|]; by split.
  - intros i Hi Hnone. rewrite Hout by done.
    by rewrite lookup_replicate_2.
  - intros l1 response l2 e -> Hlast He.
    destruct (correlate_last _ _ _ _ _ _ _ _ _ _ _ Hcor Hlast) as (v & Hv & Hat).
    fold (slot response) in Hat. rewrite He in Hv. rewrite Hat, Hv. by eexists.
Qed.

(** Two requests and an answer with an error for the second only. *)
Lemma X30_error_for_the_second_witness :
  ∃ err,
    match snd (fst (Client.ExecuteWithContext Loop.url_ok Loop.no_transport
                      (Loop.client_of
                         (Loop.canned (JArr [JObj [("id", JNum 2);
                                                   ("error", JObj [("code", JNum 7);
                                                                   ("message", JStr "no")])]])))
                      [] [Loop.call "a" JNull; Loop.call "b" JNull] []))
    with
    | Return br => Client.BatchResult_Error br 1
    | _ => None
    end = Some (Some err) ∧
    Error_Code err = 7%Z ∧ Error_Error err = "no" ∧ Error_Data err = JNull.
Proof.
  exact (proj2 (proj2 (X30_Error_of_a_slot Loop.url_ok Loop.no_transport
           (Loop.client_of
              (Loop.canned (JArr [JObj [("id", JNum 2);
                                        ("error", JObj [("code", JNum 7);
                                                        ("message", JStr "no")])]])))
           [] [Loop.call "a" JNull; Loop.call "b" JNull] []
           (Client.set_incrementID
              (Loop.client_of
                 (Loop.canned (JArr [JObj [("id", JNum 2);
                                           ("error", JObj [("code", JNum 7);
                                                           ("message", JStr "no")])]]))) 2)
           _ _ _ _
           [{| Client.cresp_ID := 2; Client.cresp_Version := "";
               Client.cresp_Error := Some {| Client.cerr_Code := 7;
                                             Client.cerr_Message := "no";
                                             Client.cerr_Data := JNull |};
               Client.cresp_Result := None |}]
           _
           {| Client.results := [AnyNil; AnyError {| code := 7; message := "no";
                                                     data := JNull |}] |}
           _ eq_refl eq_refl eq_refl))
           [] _ [] _ eq_refl (λ r Hin, False_ind _ (proj1 (elem_of_nil r) Hin)) eq_refl).
Defined.
